(** * Vortex theme-extraction utilities: a shallow embedding

    The development follows [vortex-theme-utils.js]:

    - [JsString]: the string methods the utilities call
      ([includes], [padStart], [toUpperCase], [toLowerCase]);
    - [JsNumber]: JavaScript numbers, i.e. IEEE-754 binary64 values, with the
      operations the utilities use, every one the correctly rounded exact
      result;
    - [RegExp]: a backtracking matcher for the fragment of regular
      expressions in which the two patterns of the file are written;
    - the colour converters [vortexRgbToHex] and [vortexOklabToRgb];
    - [Dom]: the live document as the utilities see it (element lookup,
      focus, computed style, a clock), and a state-and-exception monad for
      the calls that touch it;
    - the extractors [vortexExtractFormFieldBorderColor] and
      [vortexExtractFormContainerBackground];
    - the properties proved about them.

    Strings are Rocq strings: a JavaScript string all of whose code units
    are below 256 is the string of these code units. *)

From Stdlib Require Import ZArith Lia Bool List Sorted String Ascii.
From Stdlib Require Import Floats.SpecFloat Floats.PrimFloat Floats.FloatOps.
Import ListNotations.

Local Open Scope string_scope.
Local Open Scope Z_scope.

Set Warnings "-register-all".

(* ================================================================== *)
(** * Strings *)

Module JsString.

Definition code (c : ascii) : Z := Z.of_nat (nat_of_ascii c).

Definition in_range (lo hi c : ascii) : bool :=
  (code lo <=? code c) && (code c <=? code hi).

Definition is_digit (c : ascii) : bool := in_range "0" "9" c.

(** [WhiteSpace] and [LineTerminator] code units below 256: TAB, LF, VT,
    FF, CR, SP and NBSP.  They are what [\s] matches and what
    [parseInt]/[parseFloat] skip. *)
Definition is_space (c : ascii) : bool :=
  in_range "009" "013" c || (code c =? 32) || (code c =? 160).

(** [s.includes(sub)] *)
Fixpoint includes (s sub : string) : bool :=
  prefix sub s ||
  match s with
  | EmptyString => false
  | String _ s' => includes s' sub
  end.

Fixpoint repeat (c : ascii) (n : nat) : string :=
  match n with
  | O => EmptyString
  | S n' => String c (repeat c n')
  end.

(** [s.padStart(n, c)] for a one-character filler [c]. *)
Definition padStart (n : nat) (c : ascii) (s : string) : string :=
  repeat c (n - String.length s) ++ s.

Definition upper (c : ascii) : ascii :=
  if in_range "a" "z" c then ascii_of_nat (nat_of_ascii c - 32) else c.

(** Lower case of a code unit below 256: the ASCII capitals and the
    Latin-1 capitals (U+00C0..U+00DE but the multiplication sign). *)
Definition lower (c : ascii) : ascii :=
  if in_range "A" "Z" c
     || (in_range "192" "222" c && negb (code c =? 215))
  then ascii_of_nat (nat_of_ascii c + 32) else c.

Fixpoint map (f : ascii -> ascii) (s : string) : string :=
  match s with
  | EmptyString => EmptyString
  | String c s' => String (f c) (map f s')
  end.

(** [s.toUpperCase()], on the strings the utilities apply it to: the
    assembled hex code, which is ASCII.  (Upper-casing is not closed on
    code units below 256 in general; ASCII is all that is needed.) *)
Definition toUpperCase (s : string) : string := map upper s.

(** [s.toLowerCase()] *)
Definition toLowerCase (s : string) : string := map lower s.

Fixpoint mem (c : ascii) (s : string) : bool :=
  match s with
  | EmptyString => false
  | String c' s' => Ascii.eqb c c' || mem c s'
  end.

(** The first [n] code units of [s]. *)
Fixpoint take (n : nat) (s : string) : string :=
  match n, s with
  | S n', String c s' => String c (take n' s')
  | _, _ => EmptyString
  end.

End JsString.

(* ================================================================== *)
(** * Numbers *)

(** A JavaScript number is an IEEE-754 binary64 value: [spec_float], the
    Standard Library's description of the format.  [S754_finite s m e] is
    [(-1)^s * m * 2^e].  Every operation below computes the exact result
    and rounds it once, to nearest, ties to even; the examples of section
    [Hardware] compare them with the operations of the processor. *)

Module JsNumber.

Definition number := spec_float.

Definition NaN : number := S754_nan.
Definition Infinity : number := S754_infinity false.

(** ** Rounding *)

(** [num / den] rounded to the nearest integer, ties to even. *)
Definition rne (num den : Z) : Z :=
  let m := num / den in
  match 2 * (num mod den) ?= den with
  | Lt => m
  | Gt => m + 1
  | Eq => if Z.even m then m else m + 1
  end.

(** [p / q / 2^e] as a fraction of integers. *)
Definition scale2 (p q e : Z) : Z * Z :=
  if 0 <=? e then (p, q * 2 ^ e) else (p * 2 ^ (- e), q).

(** [floor (log2 (p / q))] for positive [p], [q]. *)
Definition log2_ratio (p q : Z) : Z :=
  let d := Z.log2 p - Z.log2 q in
  let '(n, m) := scale2 p q d in
  if n <? m then d - 1 else d.

(** The exponent of the unit in the last place of the binary64 numbers
    around [p / q]: 53 significant bits, never below [2^-1074]. *)
Definition ulp_exp (p q : Z) : Z := Z.max (log2_ratio p q - 52) (-1074).

(** The binary64 value nearest to [(-1)^s * p / q], for [0 <= p], [0 < q]. *)
Definition round_ratio (s : bool) (p q : Z) : number :=
  if p <=? 0 then S754_zero s else
  let e := ulp_exp p q in
  let '(n, d) := scale2 p q e in
  let m := rne n d in
  let '(m, e) := if m =? 2 ^ 53 then (2 ^ 52, e + 1) else (m, e) in
  match m with
  | Zpos mp => if 971 <? e then S754_infinity s else S754_finite s mp e
  | _ => S754_zero s
  end.

(** The binary64 value nearest to the signed dyadic number [m * 2^e]. *)
Definition round_dyadic (m e : Z) : number :=
  let '(p, q) := scale2 (Z.abs m) 1 (- e) in
  round_ratio (m <? 0) p q.

Definition of_Z (n : Z) : number := round_dyadic n 0.

(** The signed mantissa of a finite number. *)
Definition mant (s : bool) (m : positive) : Z :=
  if s then Z.neg m else Z.pos m.

(** ** Arithmetic *)

Definition neg (x : number) : number :=
  match x with
  | S754_nan => S754_nan
  | S754_zero s => S754_zero (negb s)
  | S754_infinity s => S754_infinity (negb s)
  | S754_finite s m e => S754_finite (negb s) m e
  end.

Definition add (x y : number) : number :=
  match x, y with
  | S754_nan, _ | _, S754_nan => S754_nan
  | S754_infinity sx, S754_infinity sy =>
      if Bool.eqb sx sy then x else S754_nan
  | S754_infinity _, _ => x
  | _, S754_infinity _ => y
  | S754_zero sx, S754_zero sy => S754_zero (sx && sy)
  | S754_zero _, _ => y
  | _, S754_zero _ => x
  | S754_finite sx mx ex, S754_finite sy my ey =>
      let e := Z.min ex ey in
      let m := mant sx mx * 2 ^ (ex - e) + mant sy my * 2 ^ (ey - e) in
      if m =? 0 then S754_zero false else round_dyadic m e
  end.

Definition sub (x y : number) : number := add x (neg y).

Definition sign (x : number) : bool :=
  match x with
  | S754_nan => false
  | S754_zero s | S754_infinity s | S754_finite s _ _ => s
  end.

Definition mul (x y : number) : number :=
  match x, y with
  | S754_nan, _ | _, S754_nan => S754_nan
  | S754_infinity _, S754_zero _ | S754_zero _, S754_infinity _ => S754_nan
  | S754_infinity sx, _ => S754_infinity (xorb sx (sign y))
  | _, S754_infinity sy => S754_infinity (xorb (sign x) sy)
  | S754_zero sx, _ => S754_zero (xorb sx (sign y))
  | _, S754_zero sy => S754_zero (xorb (sign x) sy)
  | S754_finite sx mx ex, S754_finite sy my ey =>
      round_dyadic (mant sx mx * mant sy my) (ex + ey)
  end.

Definition div (x y : number) : number :=
  match x, y with
  | S754_nan, _ | _, S754_nan => S754_nan
  | S754_infinity _, S754_infinity _ | S754_zero _, S754_zero _ => S754_nan
  | S754_infinity sx, _ => S754_infinity (xorb sx (sign y))
  | _, S754_infinity sy => S754_zero (xorb (sign x) sy)
  | S754_zero sx, _ => S754_zero (xorb sx (sign y))
  | _, S754_zero sy => S754_infinity (xorb (sign x) sy)
  | S754_finite sx mx ex, S754_finite sy my ey =>
      let '(p, q) := scale2 (Z.pos mx) (Z.pos my) (ey - ex) in
      round_ratio (xorb sx sy) p q
  end.

(** ** Comparison *)

(** The order of the extended reals on numbers that are not NaN. *)
Definition compare (x y : number) : option comparison :=
  match x, y with
  | S754_nan, _ | _, S754_nan => None
  | S754_infinity sx, S754_infinity sy =>
      Some (if Bool.eqb sx sy then Eq else if sx then Lt else Gt)
  | S754_infinity sx, _ => Some (if sx then Lt else Gt)
  | _, S754_infinity sy => Some (if sy then Gt else Lt)
  | S754_zero _, S754_zero _ => Some Eq
  | S754_zero _, S754_finite sy _ _ => Some (if sy then Gt else Lt)
  | S754_finite sx _ _, S754_zero _ => Some (if sx then Lt else Gt)
  | S754_finite sx mx ex, S754_finite sy my ey =>
      let e := Z.min ex ey in
      Some (mant sx mx * 2 ^ (ex - e) ?= mant sy my * 2 ^ (ey - e))
  end.

(** [x > y], [x <= y], [x === y] *)
Definition gtb (x y : number) : bool :=
  match compare x y with Some Gt => true | _ => false end.
Definition leb (x y : number) : bool :=
  match compare x y with Some (Lt | Eq) => true | _ => false end.
Definition eqb (x y : number) : bool :=
  match compare x y with Some Eq => true | _ => false end.



(** ** [Math.round], [Math.min], [Math.max] *)

(** [Math.round(x)] is [floor (x + 1/2)], computed exactly; a result of
    zero keeps the sign of [x].  A number whose unit in the last place is
    at least 1 is an integer already. *)
Definition Math_round (x : number) : number :=
  match x with
  | S754_finite s m e =>
      if 0 <=? e then x else
      let n := (2 * mant s m + 2 ^ (- e)) / 2 ^ (1 - e) in
      if n =? 0 then S754_zero s else of_Z n
  | _ => x
  end.

(** NaN if either argument is; [-0] is below [+0]. *)
Definition Math_min (x y : number) : number :=
  match compare x y with
  | None => NaN
  | Some Lt => x
  | Some Gt => y
  | Some Eq => if sign x then x else y
  end.

Definition Math_max (x y : number) : number :=
  match compare x y with
  | None => NaN
  | Some Lt => y
  | Some Gt => x
  | Some Eq => if sign x then y else x
  end.

(** ** Decimal text to number *)

(** The number nearest to [(-1)^s * n * 10^e10], for [0 <= n]. *)
Definition of_scientific (s : bool) (n e10 : Z) : number :=
  if 0 <=? e10 then round_ratio s (n * 10 ^ e10) 1
  else round_ratio s n (10 ^ (- e10)).

Definition digit_value (c : ascii) : Z :=
  if JsString.is_digit c then JsString.code c - 48
  else if JsString.in_range "a" "z" c then JsString.code c - 87
  else if JsString.in_range "A" "Z" c then JsString.code c - 55
  else 99.

Definition is_digit_in (radix : Z) (c : ascii) : bool :=
  digit_value c <? radix.

(** Reads the longest prefix of digits in [radix]: the value read after
    the accumulator [acc], how many digits there were, and the rest. *)
Fixpoint read_digits (radix : Z) (s : string) (acc : Z) (n : Z)
  : Z * Z * string :=
  match s with
  | String c s' =>
      if is_digit_in radix c
      then read_digits radix s' (acc * radix + digit_value c) (n + 1)
      else (acc, n, s)
  | EmptyString => (acc, n, s)
  end.

Fixpoint trimStart (s : string) : string :=
  match s with
  | String c s' => if JsString.is_space c then trimStart s' else s
  | EmptyString => s
  end.

(** An optional sign: whether it is a minus, and the rest. *)
Definition read_sign (s : string) : bool * string :=
  match s with
  | String "-" s' => (true, s')
  | String "+" s' => (false, s')
  | _ => (false, s)
  end.

(** [parseInt(s)], no radix given: leading white space, a sign, [0x] or
    [0X] for radix 16, then the longest run of digits. *)
Definition parseInt (s : string) : number :=
  let '(sg, s1) := read_sign (trimStart s) in
  let '(radix, s2) :=
    match s1 with
    | String "0" (String ("x" | "X") s') => (16, s')
    | _ => (10, s1)
    end in
  let '(v, n, _) := read_digits radix s2 0 0 in
  if n =? 0 then NaN else round_ratio sg v 1.

(** The exponent part of a decimal literal, when there is a complete one. *)
Definition read_exponent (s : string) : Z :=
  match s with
  | String ("e" | "E") s' =>
      let '(sg, s1) := read_sign s' in
      let '(v, n, _) := read_digits 10 s1 0 0 in
      if n =? 0 then 0 else if sg then - v else v
  | _ => 0
  end.

(** [parseFloat(s)]: leading white space, then the longest prefix that
    is a decimal literal ([Infinity], or digits with an optional
    fraction and exponent); NaN when there is none. *)
Definition parseFloat (s : string) : number :=
  let '(sg, s1) := read_sign (trimStart s) in
  if prefix "Infinity" s1 then S754_infinity sg else
  let '(i, ni, s2) := read_digits 10 s1 0 0 in
  let '(v, nf, s3) :=
    match s2 with
    | String "." s' => read_digits 10 s' i 0
    | _ => (i, 0, s2)
    end in
  if ni + nf =? 0 then NaN
  else of_scientific sg v (read_exponent s3 - nf).

(** ** [Number.prototype.toString(16)] *)

Definition hex_digit (d : Z) : ascii :=
  match String.get (Z.to_nat d) "0123456789abcdef" with
  | Some c => c
  | None => "?"%char
  end.

Fixpoint hex_of (fuel : nat) (n : Z) (acc : string) : string :=
  match fuel with
  | O => acc
  | S fuel' =>
      let acc' := String (hex_digit (n mod 16)) acc in
      if n <? 16 then acc' else hex_of fuel' (n / 16) acc'
  end.

(** The digits of [0 <= n] in radix 16, most significant first. *)
Definition hex (n : Z) : string := hex_of (S (Z.to_nat (Z.log2 n))) n "".

(** The radix-16 expansion of [r / 2^k], [0 <= r < 2^k]; it ends. *)
Fixpoint hex_fraction (fuel : nat) (r k : Z) : string :=
  match fuel with
  | O => ""
  | S fuel' =>
      if r =? 0 then ""
      else String (hex_digit (16 * r / 2 ^ k))
                  (hex_fraction fuel' ((16 * r) mod 2 ^ k) k)
  end.

(** [x.toString(16)].  The utilities call it on the results of
    [parseInt] and [Math.round] only, which are integers, NaN or
    infinite; for the other numbers the definition gives the exact
    expansion. *)
Definition toString16 (x : number) : string :=
  match x with
  | S754_nan => "NaN"
  | S754_infinity s => if s then "-Infinity" else "Infinity"
  | S754_zero _ => "0"
  | S754_finite s m e =>
      (if s then "-" else "") ++
      (if 0 <=? e then hex (Z.pos m * 2 ^ e)
       else
         let i := Z.pos m / 2 ^ (- e) in
         let r := Z.pos m mod 2 ^ (- e) in
         if r =? 0 then hex i
         else hex i ++ "." ++ hex_fraction (Z.to_nat (- e)) r (- e))
  end.

(** The integer a number is, when it is one (its floor otherwise, and 0
    for NaN and the infinities). *)
Definition to_Z (x : number) : Z :=
  match x with
  | S754_finite s m e =>
      if 0 <=? e then mant s m * 2 ^ e else mant s m / 2 ^ (- e)
  | _ => 0
  end.

(** ** Literals *)

Definition literal_sign (i : Decimal.int) : bool :=
  match i with Decimal.Pos _ => false | Decimal.Neg _ => true end.

Definition of_literal (n : Number.number) : option number :=
  match n with
  | Number.Decimal (Decimal.Decimal i f) =>
      Some (of_scientific (literal_sign i)
              (Z.of_uint (Decimal.app (Decimal.abs i) f))
              (- Z.of_nat (Decimal.nb_digits f)))
  | Number.Decimal (Decimal.DecimalExp i f e) =>
      Some (of_scientific (literal_sign i)
              (Z.of_uint (Decimal.app (Decimal.abs i) f))
              (Z.of_int e - Z.of_nat (Decimal.nb_digits f)))
  | Number.Hexadecimal _ => None
  end.

Definition to_literal (x : number) : option Number.number := None.

End JsNumber.

Declare Scope js_scope.
Delimit Scope js_scope with js.
Number Notation spec_float JsNumber.of_literal JsNumber.to_literal : js_scope.
Infix "+" := JsNumber.add : js_scope.
Infix "-" := JsNumber.sub : js_scope.
Infix "*" := JsNumber.mul : js_scope.
Infix "/" := JsNumber.div : js_scope.
Notation "- x" := (JsNumber.neg x) : js_scope.
Infix ">" := JsNumber.gtb : js_scope.
Infix "<=" := JsNumber.leb : js_scope.
Infix "===" := JsNumber.eqb (at level 70, no associativity) : js_scope.

(* ================================================================== *)
(** * Regular expressions *)

(** The fragment of JavaScript regular expressions in which the patterns
    of the utilities are written: characters, character classes,
    sequences, the greedy quantifiers [?] on any expression and [*], [+]
    on a class, and capturing groups.  The matcher backtracks as the
    language prescribes: a quantifier takes as much as it can and gives
    back one repetition at a time while the rest of the pattern fails. *)

Module RegExp.

Inductive regex : Type :=
| Eps
| Chr (c : ascii)
| Cls (p : ascii -> bool)
| Seq (r1 r2 : regex)
| Opt (r : regex)
| Star (p : ascii -> bool)
| Plus (p : ascii -> bool)
| Group (i : nat) (r : regex).

(** The expressions of [rs] one after the other. *)
Fixpoint seq (rs : list regex) : regex :=
  match rs with
  | [] => Eps
  | [r] => r
  | r :: rest => Seq r (seq rest)
  end.

(** What the groups have captured, the latest first. *)
Definition captures := list (nat * string).

Fixpoint group (i : nat) (caps : captures) : option string :=
  match caps with
  | [] => None
  | (j, s) :: caps' => if Nat.eqb i j then Some s else group i caps'
  end.

(** The part of [s] that precedes its suffix [s']. *)
Definition consumed (s s' : string) : string :=
  JsString.take (String.length s - String.length s') s.

Section Matcher.
Context {R : Type}.

(** [p*] on [s] with continuation [k]: the longest run first. *)
Fixpoint star (p : ascii -> bool) (s : string) (k : string -> option R)
  : option R :=
  match s with
  | String c s' =>
      if p c then
        match star p s' k with
        | Some r => Some r
        | None => k s
        end
      else k s
  | EmptyString => k s
  end.

(** [matches r s caps k]: [r] matches a prefix of [s] and [k] accepts
    what follows. *)
Fixpoint matches (r : regex) (s : string) (caps : captures)
  (k : string -> captures -> option R) : option R :=
  match r with
  | Eps => k s caps
  | Chr c =>
      match s with
      | String c' s' => if Ascii.eqb c c' then k s' caps else None
      | EmptyString => None
      end
  | Cls p =>
      match s with
      | String c' s' => if p c' then k s' caps else None
      | EmptyString => None
      end
  | Seq r1 r2 =>
      matches r1 s caps (fun s' caps' => matches r2 s' caps' k)
  | Opt r' =>
      match matches r' s caps k with
      | Some x => Some x
      | None => k s caps
      end
  | Star p => star p s (fun s' => k s' caps)
  | Plus p =>
      match s with
      | String c' s' =>
          if p c' then star p s' (fun s'' => k s'' caps) else None
      | EmptyString => None
      end
  | Group i r' =>
      matches r' s caps (fun s' caps' => k s' ((i, consumed s s') :: caps'))
  end.
End Matcher.

(** A match of [r] that starts at the beginning of [s]; group 0 is the
    whole match. *)
Definition match_here (r : regex) (s : string) : option captures :=
  matches (Group 0 r) s [] (fun _ caps => Some caps).

(** [r.exec(s)] for a pattern without flags: the match at the leftmost
    position that has one. *)
Fixpoint exec (r : regex) (s : string) : option captures :=
  match match_here r s with
  | Some caps => Some caps
  | None =>
      match s with
      | String _ s' => exec r s'
      | EmptyString => None
      end
  end.

Definition digit : ascii -> bool := JsString.is_digit.
Definition space : ascii -> bool := JsString.is_space.
Definition digit_or_dot (c : ascii) : bool :=
  JsString.is_digit c || Ascii.eqb c ".".

End RegExp.

(** [s.match(r)] *)
Definition String_match (s : string) (r : RegExp.regex)
  : option RegExp.captures := RegExp.exec r s.

(** [ToString] of a capture: a group that took no part is [undefined]. *)
Definition ToString (v : option string) : string :=
  match v with
  | Some s => s
  | None => "undefined"
  end.

(** A capture in a condition: [undefined] and the empty string are false. *)
Definition truthy (v : option string) : bool :=
  match v with
  | Some s => negb (String.eqb s "")
  | None => false
  end.

(* ================================================================== *)
(** * Colour converter *)

Import RegExp.

(** [/rgba?\((\d+),\s*(\d+),\s*(\d+)(?:,\s*([\d.]+))?\)/] *)
Definition rgb_pattern : regex :=
  seq [ Chr "r"; Chr "g"; Chr "b"; Opt (Chr "a"); Chr "(";
        Group 1 (Plus digit); Chr ","; Star space;
        Group 2 (Plus digit); Chr ","; Star space;
        Group 3 (Plus digit);
        Opt (seq [ Chr ","; Star space; Group 4 (Plus digit_or_dot) ]);
        Chr ")" ].

(** [(n) => n.toString(16).padStart(2, '0')] *)
Definition toHex (n : JsNumber.number) : string :=
  JsString.padStart 2 "0" (JsNumber.toString16 n).

Definition vortexRgbToHex (rgbString : string) : string :=
  match String_match rgbString rgb_pattern with
  | None => rgbString
  | Some mt =>
      let r := JsNumber.parseInt (ToString (group 1 mt)) in
      let g := JsNumber.parseInt (ToString (group 2 mt)) in
      let b := JsNumber.parseInt (ToString (group 3 mt)) in
      let a := if truthy (group 4 mt)
               then Some (JsNumber.parseFloat (ToString (group 4 mt)))
               else None in
      let hex := "#" ++ toHex r ++ toHex g ++ toHex b in
      let hex :=
        match a with
        | Some a' =>
            if negb (a' === 1)%js
            then hex ++ JsString.padStart 2 "0"
                          (JsNumber.toString16 (JsNumber.Math_round (a' * 255)%js))
            else hex
        | None => hex
        end in
      JsString.toUpperCase hex
  end.

(** The values the repository's test suite expects of the converter. *)
Example vortexRgbToHex_examples :
  vortexRgbToHex "rgb(7, 39, 31)" = "#07271F"
  /\ vortexRgbToHex "rgba(0, 0, 0, 0.19)" = "#00000030"
  /\ vortexRgbToHex "rgba(0, 0, 0, 0)" = "#00000000"
  /\ vortexRgbToHex "rgb(235, 230, 223)" = "#EBE6DF"
  /\ vortexRgbToHex "rgb(255, 255, 255)" = "#FFFFFF".
Proof. vm_compute. repeat split; reflexivity. Qed.

Section Oklab.

(** [Math.pow] is the platform's; the conversion is stated for any. *)
Variable Math_pow : JsNumber.number -> JsNumber.number -> JsNumber.number.

Local Open Scope js_scope.

(** The gamma step of one channel. *)
Definition gamma (v : JsNumber.number) : JsNumber.number :=
  if v > 0.0031308 then 1.055 * Math_pow v (1 / 2.4) - 0.055 else 12.92 * v.

(** The last step of one channel. *)
Definition to_byte (v : JsNumber.number) : JsNumber.number :=
  JsNumber.Math_max 0 (JsNumber.Math_min 255 (JsNumber.Math_round (v * 255))).

Definition vortexOklabToRgb (L a b : JsNumber.number) : list JsNumber.number :=
  let l := L + 0.3963377774 * a + 0.2158037573 * b in
  let m := L - 0.1055613458 * a - 0.0638541728 * b in
  let s := L - 0.0894841775 * a - 1.2914855480 * b in
  let l3 := l * l * l in
  let m3 := m * m * m in
  let s3 := s * s * s in
  let r := 4.0767416621 * l3 - 3.0771159139 * m3 + 0.2309699292 * s3 in
  let g := -1.2684380046 * l3 + 2.6097574011 * m3 - 0.3413193965 * s3 in
  let bl := -0.0041960863 * l3 - 0.7034186147 * m3 + 1.7076147010 * s3 in
  let r := gamma r in
  let g := gamma g in
  let bl := gamma bl in
  [ to_byte r; to_byte g; to_byte bl ].

End Oklab.

(* ================================================================== *)
(** * The live document *)

Module Dom.

(** A value that is a string or some object: [className] is a string on
    HTML elements and an [SVGAnimatedString] object on SVG elements. *)
Inductive value : Type :=
| Str (s : string)
| Obj.

(** [v] in a condition: every object is true, a string unless empty. *)
Definition ToBoolean (v : value) : bool :=
  match v with
  | Str s => negb (String.eqb s "")
  | Obj => true
  end.

(** [a || b] *)
Definition or_else (a b : value) : value := if ToBoolean a then a else b.

(** An element handle: the node (told apart by [uid]) with what the
    utilities read from it, and its chain of ancestors. *)
Inductive Element : Type :=
  mkElement {
    uid : nat;
    tagName : string;
    className : value;
    role : option string;            (* getAttribute('role') *)
    parentElement : option Element
  }.

Definition same_node (a b : Element) : bool := Nat.eqb (uid a) (uid b).

(** The properties read from [getComputedStyle(el)]. *)
Record CSSStyleDeclaration : Type :=
  mkStyle {
    borderColor : string;
    borderWidth : string;
    backgroundColor : string
  }.

(** The page: which element a selector finds, its body, and its style
    sheet as the rendering engine resolves it, that is the computed
    style of an element given the uid of the element that has focus (if
    any) and the time elapsed since focus last changed (transitions make
    the style depend on it). *)
Record Document : Type :=
  mkDocument {
    querySelector : string -> option Element;
    body : Element;
    style : Element -> option nat -> Z -> CSSStyleDeclaration
  }.

(** What the utilities do to the page, in order. *)
Inductive Event : Type :=
| Blur (u : nat)
| Click (u : nat)
| Wait (ms : Z)
| ReadStyle (u : nat).

(** The state of the page: the focused element, the clock, the time of
    the last change of focus, how late the timers fire, and the calls
    made so far (the latest last). *)
Record World : Type :=
  mkWorld {
    document : Document;
    focused : option Element;
    clock : Z;
    changed : Z;
    lag : N;
    log : list Event
  }.

Definition record (ev : Event) (w : World) : World :=
  mkWorld (document w) (focused w) (clock w) (changed w) (lag w)
          (log w ++ [ev]).

(** The computed style of [el] now. *)
Definition computed (w : World) (el : Element) : CSSStyleDeclaration :=
  style (document w) el (option_map uid (focused w)) (clock w - changed w).

(** ** Calls that may throw and that act on the page *)

Inductive exn : Type :=
| Error (message : string)
| TypeError.

Inductive outcome (A : Type) : Type :=
| Return (a : A)
| Throw (e : exn).
Arguments Return {A} a.
Arguments Throw {A} e.

Definition M (A : Type) : Type := World -> outcome A * World.

Definition ret {A} (a : A) : M A := fun w => (Return a, w).

Definition throw {A} (e : exn) : M A := fun w => (Throw e, w).

Definition bind {A B} (c : M A) (k : A -> M B) : M B :=
  fun w =>
    match c w with
    | (Return a, w') => k a w'
    | (Throw e, w') => (Throw e, w')
    end.

(** [document.querySelector(selector)] *)
Definition document_querySelector (selector : string) : M (option Element) :=
  fun w => (Return (querySelector (document w) selector), w).

(** [document.activeElement]: the focused element, the body when none is. *)
Definition document_activeElement : M (option Element) :=
  fun w =>
    (Return (match focused w with
             | Some el => Some el
             | None => Some (body (document w))
             end), w).

Definition document_body : M Element :=
  fun w => (Return (body (document w)), w).

(** [el.blur()]: focus leaves [el] if it has it. *)
Definition blur (el : Element) : M unit :=
  fun w =>
    let w' :=
      match focused w with
      | Some f =>
          if same_node f el
          then mkWorld (document w) None (clock w) (clock w) (lag w) (log w)
          else w
      | None => w
      end in
    (Return tt, record (Blur (uid el)) w').

(** [el.click()]: a click event and nothing else. *)
Definition click (el : Element) : M unit :=
  fun w => (Return tt, record (Click (uid el)) w).

(** [await new Promise(resolve => setTimeout(resolve, ms))]: resumes
    when the timer fires, [ms] later or more. *)
Definition sleep (ms : Z) : M unit :=
  fun w =>
    (Return tt,
     record (Wait ms)
       (mkWorld (document w) (focused w) (clock w + ms + Z.of_N (lag w))
                (changed w) (lag w) (log w))).

(** [getComputedStyle(el)] *)
Definition getComputedStyle (el : Element) : M CSSStyleDeclaration :=
  fun w => (Return (computed w el), record (ReadStyle (uid el)) w).

End Dom.

Import Dom.

Notation "x <- c ;; k" := (bind c (fun x => k))
  (at level 61, c at next level, right associativity).
Notation "c ;; k" := (bind c (fun _ => k))
  (at level 61, right associativity).

(* ================================================================== *)
(** * Resting border colour *)

Record BorderResult : Type :=
  mkBorderResult {
    border_color : string;
    border_element : value;
    border_width : string
  }.

Definition vortexExtractFormFieldBorderColor (selector : string)
  : M BorderResult :=
  input <- document_querySelector selector ;;
  match input with
  | None => throw (Error ("Element not found: " ++ selector))
  | Some input =>
      active <- document_activeElement ;;
      match active with
      | Some el => blur el
      | None => ret tt
      end ;;
      blur input ;;
      b <- document_body ;;
      click b ;;
      sleep 200 ;;
      st <- getComputedStyle input ;;
      let inputBorderWidth := borderWidth st in
      let borderElement :=
        if String.eqb inputBorderWidth "0px" || String.eqb inputBorderWidth "0"
        then parentElement input
        else Some input in
      match borderElement with
      | None => throw TypeError        (* getComputedStyle(null) *)
      | Some borderElement =>
          st1 <- getComputedStyle borderElement ;;
          let restingBorderColor := borderColor st1 in
          st2 <- getComputedStyle borderElement ;;
          let borderWidth := borderWidth st2 in
          let hexColor := vortexRgbToHex restingBorderColor in
          ret (mkBorderResult hexColor
                 (or_else (className borderElement) (Str (tagName borderElement)))
                 borderWidth)
      end
  end.

(* ================================================================== *)
(** * Container background *)

(** An entry of [backgrounds]. *)
Record Background : Type :=
  mkBackground {
    level : Z;
    color : string;
    element : Element
  }.

Record ContainerResult : Type :=
  mkContainerResult {
    container_color : string;
    container_element : value
  }.

(** [c.includes('modal') || c.includes('dialog') || c.includes('form')] *)
Definition names_container (c : string) : bool :=
  JsString.includes c "modal" || JsString.includes c "dialog"
  || JsString.includes c "form".

(** The walk up the tree: [n] iterations are left, [i] is the loop index. *)
Fixpoint walk (n : nat) (i : Z) (current : option Element)
  (backgrounds : list Background) (modalElement : option Element)
  : M (list Background * option Element) :=
  match n with
  | O => ret (backgrounds, modalElement)
  | S n' =>
      match current with
      | None => ret (backgrounds, modalElement)          (* break *)
      | Some cur =>
          st <- getComputedStyle cur ;;
          let bg := backgroundColor st in
          let backgrounds :=
            if negb (String.eqb bg "rgba(0, 0, 0, 0)")
               && negb (String.eqb bg "transparent")
            then (backgrounds ++ [mkBackground i bg cur])%list
            else backgrounds in
          let modalElement :=
            match modalElement, className cur with
            | None, Str c =>
                if negb (String.eqb c "") && names_container c
                then Some cur else None
            | _, _ => modalElement
            end in
          walk n' (i + 1) (parentElement cur) backgrounds modalElement
      end
  end.

(** [/,\s*([\d.]+)\)/] *)
Definition alpha_pattern : regex :=
  seq [ Chr ","; Star space; Group 1 (Plus digit_or_dot); Chr ")" ].

(** The test both selection loops make of a colour: no [rgba] in it, or
    an alpha that reads as 1. *)
Definition solid (color : string) : bool :=
  if negb (JsString.includes color "rgba") then true
  else
    let alphaMatch := String_match color alpha_pattern in
    let alpha :=
      match alphaMatch with
      | Some mt => JsNumber.parseFloat (ToString (group 1 mt))
      | None => 0%js
      end in
    (alpha === 1)%js.

Example solid_examples :
  solid "rgb(255, 255, 255)" = true
  /\ solid "rgba(255, 255, 255, 1)" = true
  /\ solid "rgba(255, 255, 255, 1.0)" = true
  /\ solid "rgba(255, 255, 255, 0.5)" = false
  /\ solid "rgba(0, 0, 0, 0)" = false.
Proof. vm_compute. repeat split; reflexivity. Qed.

(** The test the first loop makes of the element of an entry. *)
Definition container_marked (el : Element) : bool :=
  let className := match className el with Str c => c | Obj => "" end in
  names_container className
  || String.eqb (tagName el) "DIALOG"
  || match role el with Some r => String.eqb r "dialog" | None => false end.

(** [formContainerBg] and [containerElement], assigned together. *)
Definition selection : Type := option string * option Element.

(** [!formContainerBg] *)
Definition unset (sel : selection) : bool :=
  match fst sel with
  | Some c => String.eqb c ""
  | None => true
  end.

(** The first loop, from index 0 upwards, until it breaks. *)
Fixpoint first_container (backgrounds : list Background) : selection :=
  match backgrounds with
  | [] => (None, None)
  | bg :: rest =>
      if container_marked (element bg) && solid (color bg)
      then (Some (color bg), Some (element bg))
      else first_container rest
  end.

(** The second loop on the entries from the last index downwards. *)
Fixpoint last_solid (reversed : list Background) (sel : selection)
  : selection :=
  match reversed with
  | [] => sel
  | bg :: rest =>
      let tagName := JsString.toLowerCase (tagName (element bg)) in
      if String.eqb tagName "body" || String.eqb tagName "html"
      then last_solid rest sel                             (* continue *)
      else if solid (color bg)
           then (Some (color bg), Some (element bg))
           else last_solid rest sel
  end.

Definition select (backgrounds : list Background) : selection :=
  let sel := first_container backgrounds in
  let sel := if unset sel then last_solid (rev backgrounds) sel else sel in
  if unset sel then
    match rev backgrounds with
    | bg :: _ => (Some (color bg), Some (element bg))
    | [] => sel
    end
  else sel.

Definition vortexExtractFormContainerBackground (inputSelector : string)
  : M ContainerResult :=
  input <- document_querySelector inputSelector ;;
  match input with
  | None => throw (Error ("Element not found: " ++ inputSelector))
  | Some input =>
      walked <- walk 15 0 (Some input) [] None ;;
      let backgrounds := fst walked in
      let sel := select backgrounds in
      if unset sel then throw (Error "Could not find form container background")
      else
        let hexColor := vortexRgbToHex (ToString (fst sel)) in
        ret (mkContainerResult hexColor
               (match snd sel with
                | Some el => or_else (or_else (className el) (Str (tagName el)))
                                     (Str "unknown")
                | None => Str "unknown"
                end))
  end.

(* ================================================================== *)
(** * A page to try the utilities on *)

(** The page of the test suite, [html > body > div.modal > input], the
    input with a border whose colour changes under focus, and beside it a
    borderless input in a bordered wrapper and an input in a card inside
    the modal.  [delay] is how long after a change of focus the new border
    colour shows. *)

Module Page.

Definition html : Element := mkElement 0 "HTML" (Str "") None None.
Definition body : Element := mkElement 1 "BODY" (Str "") None (Some html).
Definition modal : Element := mkElement 2 "DIV" (Str "modal") None (Some body).
Definition input : Element := mkElement 3 "INPUT" (Str "") None (Some modal).
Definition field : Element := mkElement 4 "DIV" (Str "field") None (Some body).
Definition bare : Element := mkElement 5 "INPUT" (Str "bare") None (Some field).
Definition card : Element := mkElement 6 "DIV" (Str "card") None (Some modal).
Definition inner : Element := mkElement 7 "INPUT" (Str "inner") None (Some card).

Definition sheet (delay : Z) (el : Element) (focus : option nat)
  (elapsed : Z) : CSSStyleDeclaration :=
  match uid el with
  | 1%nat => mkStyle "rgb(0, 0, 0)" "0px" "rgb(255, 255, 255)"
  | 2%nat => mkStyle "rgb(0, 0, 0)" "0px" "rgb(255, 255, 255)"
  | 3%nat =>
      let has_focus :=
        match focus with Some u => Nat.eqb u 3 | None => false end in
      let shown := if elapsed <? delay then negb has_focus else has_focus in
      mkStyle (if shown then "rgb(3, 212, 124)" else "rgb(235, 230, 223)")
              "2px" "rgba(0, 0, 0, 0)"
  | 4%nat => mkStyle "rgb(200, 200, 200)" "1px" "rgb(250, 250, 250)"
  | 6%nat => mkStyle "rgb(0, 0, 0)" "0px" "rgb(238, 238, 238)"
  | _ => mkStyle "rgb(0, 0, 0)" "0px" "rgba(0, 0, 0, 0)"
  end.

Definition page (delay : Z) : Document :=
  mkDocument
    (fun selector =>
       if String.eqb selector "input[type=email]" then Some input
       else if String.eqb selector "input.bare" then Some bare
       else if String.eqb selector "input.inner" then Some inner
       else None)
    body
    (sheet delay).

(** The page at time 5000 with [focus] since time 1000. *)
Definition world (delay : Z) (focus : option Element) : World :=
  mkWorld (page delay) focus 5000 1000 0 [].

End Page.

(* ================================================================== *)
(** * Properties of the extractors *)

(** ** The border extractor, step by step *)

(** The element [document.activeElement] yields. *)
Definition active (w : World) : Element :=
  match focused w with
  | Some el => el
  | None => body (document w)
  end.

(** The page once focus has been cleared and the delay has passed. *)
Definition settled (w : World) (input : Element) : World :=
  snd ((blur (active w) ;; blur input ;; click (body (document w)) ;; sleep 200) w).

(** What the extractor does after the delay. *)
Definition read_border (input : Element) : M BorderResult :=
  st <- getComputedStyle input ;;
  match (if String.eqb (borderWidth st) "0px" || String.eqb (borderWidth st) "0"
         then parentElement input else Some input) with
  | None => throw TypeError
  | Some borderElement =>
      st1 <- getComputedStyle borderElement ;;
      st2 <- getComputedStyle borderElement ;;
      ret (mkBorderResult (vortexRgbToHex (borderColor st1))
             (or_else (className borderElement) (Str (tagName borderElement)))
             (borderWidth st2))
  end.

Lemma border_extractor_steps (selector : string) (w : World) (input : Element) :
  querySelector (document w) selector = Some input ->
  vortexExtractFormFieldBorderColor selector w = read_border input (settled w input).
Proof.
  intros Hq.
  unfold vortexExtractFormFieldBorderColor, settled, read_border, active.
  unfold bind at 1. unfold document_querySelector at 1. rewrite Hq.
  destruct w as [d f c ch lg l]; simpl in *.
  unfold bind, document_activeElement, document_body, blur, click, sleep,
    record, same_node; simpl.
  destruct f as [f|]; simpl.
  - rewrite Nat.eqb_refl; simpl. reflexivity.
  - reflexivity.
Qed.

(** The page once settled, field by field. *)
Lemma settled_eq (w : World) (input : Element) :
  settled w input =
    mkWorld (document w) None (clock w + 200 + Z.of_N (lag w))
      (match focused w with Some _ => clock w | None => changed w end)
      (lag w)
      (log w ++ [Blur (uid (active w)); Blur (uid input);
                 Click (uid (body (document w))); Wait 200])%list.
Proof.
  destruct w as [d f c ch lg l].
  unfold settled, active, bind, blur, click, sleep, record, same_node.
  cbn [document focused clock changed lag log fst snd].
  destruct f as [f|]; cbn [document focused clock changed lag log fst snd].
  - rewrite Nat.eqb_refl.
    cbn [document focused clock changed lag log fst snd].
    rewrite <- !app_assoc. reflexivity.
  - rewrite <- !app_assoc. reflexivity.
Qed.

Lemma settled_focused (w : World) (input : Element) :
  focused (settled w input) = None.
Proof. rewrite settled_eq. reflexivity. Qed.

Lemma settled_document (w : World) (input : Element) :
  document (settled w input) = document w.
Proof. rewrite settled_eq. reflexivity. Qed.

Lemma settled_log (w : World) (input : Element) :
  log (settled w input) =
  (log w ++ [Blur (uid (active w)); Blur (uid input);
             Click (uid (body (document w))); Wait 200])%list.
Proof. rewrite settled_eq. reflexivity. Qed.

(** When focus is on some element at the call, the styles are read at
    least 200 units after it left. *)
Lemma settled_elapsed (w : World) (input f : Element) :
  focused w = Some f ->
  clock (settled w input) - changed (settled w input) = 200 + Z.of_N (lag w).
Proof.
  intros Hf. rewrite settled_eq, Hf. cbn [clock changed]. lia.
Qed.

Lemma computed_record (ev : Event) (w : World) (el : Element) :
  computed (record ev w) el = computed w el.
Proof. reflexivity. Qed.

(** The outcome of the reads, by the element that bears the border. *)
Lemma read_border_outcome (input : Element) (w : World) :
  fst (read_border input w) =
  match (if String.eqb (borderWidth (computed w input)) "0px"
            || String.eqb (borderWidth (computed w input)) "0"
         then parentElement input else Some input) with
  | None => Throw TypeError
  | Some el =>
      Return (mkBorderResult (vortexRgbToHex (borderColor (computed w el)))
                (or_else (className el) (Str (tagName el)))
                (borderWidth (computed w el)))
  end.
Proof.
  unfold read_border, bind, getComputedStyle, throw, ret.
  cbn [fst snd]. change (computed (record (ReadStyle (uid input)) w) input)
    with (computed w input).
  destruct (_ || _)%bool; [destruct (parentElement input)|]; reflexivity.
Qed.

Definition is_read (ev : Event) : Prop :=
  match ev with ReadStyle _ => True | _ => False end.

Lemma read_border_log (input : Element) (w : World) :
  exists reads,
    log (snd (read_border input w)) =
      (log w ++ ReadStyle (uid input) :: reads)%list
    /\ Forall is_read reads.
Proof.
  unfold read_border, bind, getComputedStyle, throw, ret.
  cbn [fst snd]. change (computed (record (ReadStyle (uid input)) w) input)
    with (computed w input).
  assert (Hsome : forall el : Element,
    exists reads,
      log (record (ReadStyle (uid el))
             (record (ReadStyle (uid el)) (record (ReadStyle (uid input)) w))) =
        (log w ++ ReadStyle (uid input) :: reads)%list
      /\ Forall is_read reads).
  { intros el. exists [ReadStyle (uid el); ReadStyle (uid el)].
    simpl. rewrite <- !app_assoc. simpl. split; [reflexivity|].
    repeat constructor. }
  destruct (_ || _)%bool; [destruct (parentElement input) as [el|]|];
    cbn [snd]; try apply Hsome.
  exists []. split; [reflexivity | constructor].
Qed.

Lemma read_border_state (input : Element) (w : World) :
  focused (snd (read_border input w)) = focused w.
Proof.
  unfold read_border, bind, getComputedStyle, throw, ret.
  cbn [fst snd]. change (computed (record (ReadStyle (uid input)) w) input)
    with (computed w input).
  destruct (_ || _)%bool; [destruct (parentElement input)|]; reflexivity.
Qed.

(** ** The container extractor, step by step *)

(** The elements the walk visits: [current] and its ancestors, [n] at most. *)
Fixpoint ancestors (n : nat) (current : option Element) : list Element :=
  match n, current with
  | S n', Some el => el :: ancestors n' (parentElement el)
  | _, _ => []
  end.

Definition transparent (bg : string) : bool :=
  String.eqb bg "rgba(0, 0, 0, 0)" || String.eqb bg "transparent".

(** The entries the walk records for the elements [els], the first of
    them at index [i]. *)
Fixpoint entries (w : World) (i : Z) (els : list Element) : list Background :=
  match els with
  | [] => []
  | el :: rest =>
      let bg := backgroundColor (computed w el) in
      if transparent bg then entries w (i + 1) rest
      else mkBackground i bg el :: entries w (i + 1) rest
  end.

(** [backgrounds] after the walk from [input]. *)
Definition recorded (w : World) (input : Element) : list Background :=
  entries w 0 (ancestors 15 (Some input)).

Definition with_log (w : World) (l : list Event) : World :=
  mkWorld (document w) (focused w) (clock w) (changed w) (lag w) l.

Lemma entries_with_log (w : World) (l : list Event) (i : Z) (els : list Element) :
  entries (with_log w l) i els = entries w i els.
Proof.
  revert i. induction els as [|el rest IH]; intros i; simpl.
  - reflexivity.
  - change (computed (with_log w l) el) with (computed w el).
    rewrite !IH. reflexivity.
Qed.

Lemma walk_spec (n : nat) :
  forall (i : Z) (current : option Element) (backgrounds : list Background)
         (modalElement : option Element) (w : World),
  exists modalElement',
    walk n i current backgrounds modalElement w =
      (Return ((backgrounds ++ entries w i (ancestors n current))%list,
               modalElement'),
       with_log w (log w ++ map (fun el => ReadStyle (uid el))
                                (ancestors n current))%list).
Proof.
  induction n as [|n IH]; intros i current backgrounds modalElement w.
  - exists modalElement. simpl. unfold ret, with_log.
    rewrite !app_nil_r. destruct w; reflexivity.
  - destruct current as [cur|]; simpl.
    + unfold bind at 1. unfold getComputedStyle at 1.
      match goal with
      | |- context [walk n (i + 1) (parentElement cur) ?b ?m (record ?e w)] =>
          destruct (IH (i + 1) (parentElement cur) b m (record e w))
            as [modal' Hwalk];
          exists modal'; rewrite Hwalk
      end.
      change (record (ReadStyle (uid cur)) w)
        with (with_log w (log w ++ [ReadStyle (uid cur)])%list).
      rewrite entries_with_log.
      change (computed (with_log w (log w ++ [ReadStyle (uid cur)])%list) cur)
        with (computed w cur).
      unfold transparent.
      destruct (String.eqb (backgroundColor (computed w cur)) "rgba(0, 0, 0, 0)");
        destruct (String.eqb (backgroundColor (computed w cur)) "transparent");
        simpl; unfold with_log; simpl; rewrite <- ?app_assoc; reflexivity.
    + exists modalElement. unfold ret, with_log.
      rewrite !app_nil_r. destruct w; reflexivity.
Qed.

(** What the extractor returns for the selection it made. *)
Definition container_outcome (sel : selection) : outcome ContainerResult :=
  if unset sel then Throw (Error "Could not find form container background")
  else
    Return (mkContainerResult (vortexRgbToHex (ToString (fst sel)))
              (match snd sel with
               | Some el => or_else (or_else (className el) (Str (tagName el)))
                                    (Str "unknown")
               | None => Str "unknown"
               end)).

Lemma container_extractor_steps (selector : string) (w : World) (input : Element) :
  querySelector (document w) selector = Some input ->
  vortexExtractFormContainerBackground selector w =
    (container_outcome (select (recorded w input)),
     with_log w (log w ++ map (fun el => ReadStyle (uid el))
                              (ancestors 15 (Some input)))%list).
Proof.
  intros Hq. unfold vortexExtractFormContainerBackground.
  unfold bind at 1. unfold document_querySelector at 1. rewrite Hq.
  unfold bind.
  destruct (walk_spec 15 0 (Some input) [] None w) as [modal' Hwalk].
  rewrite Hwalk. cbn [fst app]. fold (recorded w input).
  unfold container_outcome, throw, ret.
  destruct (unset (select (recorded w input))); reflexivity.
Qed.

(** ** Missing elements *)

(** C4. A selector that finds no element makes both extractors throw
    ["Element not found: " + selector] at once: the page is returned as it
    was, with the focus where it was and no call made to it. *)
Theorem element_not_found_before_any_effect (selector : string) (w : World) :
  querySelector (document w) selector = None ->
  vortexExtractFormFieldBorderColor selector w =
    (Throw (Error ("Element not found: " ++ selector)), w)
  /\ vortexExtractFormContainerBackground selector w =
    (Throw (Error ("Element not found: " ++ selector)), w).
Proof.
  intros Hq.
  unfold vortexExtractFormFieldBorderColor, vortexExtractFormContainerBackground,
    bind, document_querySelector, throw.
  rewrite Hq. split; reflexivity.
Qed.

Lemma element_not_found_witness :
  vortexExtractFormFieldBorderColor "textarea" (Page.world 200 (Some Page.input)) =
    (Throw (Error "Element not found: textarea"), Page.world 200 (Some Page.input))
  /\ vortexExtractFormContainerBackground "textarea" (Page.world 200 (Some Page.input)) =
    (Throw (Error "Element not found: textarea"), Page.world 200 (Some Page.input)).
Proof.
  apply (element_not_found_before_any_effect "textarea"
           (Page.world 200 (Some Page.input))).
  reflexivity.
Defined.

(** ** Focus *)

(** The calls a computation made to the page [w] it started from. *)
Definition calls_since {A : Type} (c : M A) (w : World) : list Event :=
  skipn (List.length (log w)) (log (snd (c w))).

(** A computation touches the focus when it leaves it elsewhere than it
    found it or called [blur]. *)
Definition touches_focus {A : Type} (c : M A) (w : World) : Prop :=
  option_map uid (focused (snd (c w))) <> option_map uid (focused w)
  \/ exists u, In (Blur u) (calls_since c w).

Lemma skipn_app_length {A : Type} (l l' : list A) :
  skipn (List.length l) (l ++ l') = l'.
Proof. induction l; simpl; auto. Qed.

Lemma border_extractor_calls (selector : string) (w : World) (input : Element) :
  querySelector (document w) selector = Some input ->
  exists reads,
    calls_since (vortexExtractFormFieldBorderColor selector) w =
      ([Blur (uid (active w)); Blur (uid input);
        Click (uid (body (document w))); Wait 200;
        ReadStyle (uid input)] ++ reads)%list
    /\ Forall is_read reads.
Proof.
  intros Hq. unfold calls_since.
  rewrite (border_extractor_steps _ _ _ Hq).
  destruct (read_border_log input (settled w input)) as [reads [Hlog Hreads]].
  exists reads. split; [|exact Hreads].
  rewrite Hlog, settled_log, <- app_assoc, skipn_app_length. reflexivity.
Qed.

Lemma container_extractor_calls (selector : string) (w : World) (input : Element) :
  querySelector (document w) selector = Some input ->
  calls_since (vortexExtractFormContainerBackground selector) w =
    map (fun el => ReadStyle (uid el)) (ancestors 15 (Some input)).
Proof.
  intros Hq. unfold calls_since.
  rewrite (container_extractor_steps _ _ _ Hq). cbn [snd with_log log].
  apply skipn_app_length.
Qed.

(** The container extractor on the page of the test suite, the input
    focused: the input is found, and the focus stays on it; all the
    extractor did was read four styles. *)
Lemma container_extractor_keeps_focus :
  querySelector (document (Page.world 200 (Some Page.input))) "input[type=email]"
    = Some Page.input
  /\ ~ touches_focus (vortexExtractFormContainerBackground "input[type=email]")
         (Page.world 200 (Some Page.input)).
Proof.
  split; [reflexivity|].
  intros [Hfocus | [u Hblur]].
  - apply Hfocus. reflexivity.
  - vm_compute in Hblur.
    repeat (destruct Hblur as [Hblur | Hblur]; [discriminate|]).
    exact Hblur.
Qed.

(** C8, amended. A call of the border extractor that finds its target
    touches the focus (it blurs the active element and the target) and
    leaves no element focused; a call of the container extractor never
    touches the focus: it only reads styles, and the focus, the clock and
    the time of the last change of focus are as before. *)
Theorem focus_across_extraction (selector : string) (w : World) (input : Element) :
  querySelector (document w) selector = Some input ->
  (touches_focus (vortexExtractFormFieldBorderColor selector) w
   /\ focused (snd (vortexExtractFormFieldBorderColor selector w)) = None)
  /\ (~ touches_focus (vortexExtractFormContainerBackground selector) w
      /\ focused (snd (vortexExtractFormContainerBackground selector w)) = focused w
      /\ clock (snd (vortexExtractFormContainerBackground selector w)) = clock w
      /\ changed (snd (vortexExtractFormContainerBackground selector w)) = changed w
      /\ Forall is_read (calls_since (vortexExtractFormContainerBackground selector) w)).
Proof.
  intros Hq. split; [split|].
  - right. destruct (border_extractor_calls _ _ _ Hq) as [reads [Hcalls _]].
    exists (uid input). rewrite Hcalls. simpl. auto.
  - rewrite (border_extractor_steps _ _ _ Hq), read_border_state.
    apply settled_focused.
  - assert (Hreads : Forall is_read
              (calls_since (vortexExtractFormContainerBackground selector) w)).
    { rewrite (container_extractor_calls _ _ _ Hq).
      apply Forall_forall. intros ev Hev. apply in_map_iff in Hev.
      destruct Hev as [el [<- _]]. exact I. }
    assert (Hw : snd (vortexExtractFormContainerBackground selector w) =
                 with_log w (log w ++ map (fun el => ReadStyle (uid el))
                                          (ancestors 15 (Some input)))%list).
    { rewrite (container_extractor_steps _ _ _ Hq). reflexivity. }
    rewrite Hw. cbn [with_log focused clock changed].
    repeat split; try reflexivity; [|exact Hreads].
    intros [Hfocus | [u Hblur]].
    + apply Hfocus. rewrite Hw. reflexivity.
    + rewrite Forall_forall in Hreads. apply (Hreads _ Hblur).
Qed.

Lemma focus_across_extraction_witness :
  (touches_focus (vortexExtractFormFieldBorderColor "input[type=email]")
     (Page.world 200 (Some Page.input))
   /\ focused (snd (vortexExtractFormFieldBorderColor "input[type=email]"
                      (Page.world 200 (Some Page.input)))) = None)
  /\ (~ touches_focus (vortexExtractFormContainerBackground "input[type=email]")
          (Page.world 200 (Some Page.input))
      /\ focused (snd (vortexExtractFormContainerBackground "input[type=email]"
                         (Page.world 200 (Some Page.input))))
         = focused (Page.world 200 (Some Page.input))
      /\ clock (snd (vortexExtractFormContainerBackground "input[type=email]"
                       (Page.world 200 (Some Page.input))))
         = clock (Page.world 200 (Some Page.input))
      /\ changed (snd (vortexExtractFormContainerBackground "input[type=email]"
                         (Page.world 200 (Some Page.input))))
         = changed (Page.world 200 (Some Page.input))
      /\ Forall is_read
           (calls_since (vortexExtractFormContainerBackground "input[type=email]")
              (Page.world 200 (Some Page.input)))).
Proof.
  apply (focus_across_extraction "input[type=email]"
           (Page.world 200 (Some Page.input)) Page.input).
  reflexivity.
Defined.

(** ** The resting border colour *)

(** The element whose border is reported, for the border width read from
    the input. *)
Definition border_bearer (width : string) (input : Element) : option Element :=
  if String.eqb width "0px" || String.eqb width "0"
  then parentElement input else Some input.

(** The outcome of the extractor when the styles it reads are [st]. *)
Definition border_outcome (st : Element -> CSSStyleDeclaration) (input : Element)
  : outcome BorderResult :=
  match border_bearer (borderWidth (st input)) input with
  | None => Throw TypeError
  | Some el =>
      Return (mkBorderResult (vortexRgbToHex (borderColor (st el)))
                (or_else (className el) (Str (tagName el)))
                (borderWidth (st el)))
  end.

Lemma border_outcome_ext (st st' : Element -> CSSStyleDeclaration) (input : Element) :
  (forall el, st el = st' el) ->
  border_outcome st input = border_outcome st' input.
Proof.
  intros Hst. unfold border_outcome. rewrite (Hst input).
  destruct (border_bearer _ input) as [el|]; [rewrite (Hst el)|]; reflexivity.
Qed.

Lemma border_extractor_outcome (selector : string) (w : World) (input : Element) :
  querySelector (document w) selector = Some input ->
  fst (vortexExtractFormFieldBorderColor selector w) =
    border_outcome (computed (settled w input)) input.
Proof.
  intros Hq. rewrite (border_extractor_steps _ _ _ Hq).
  apply read_border_outcome.
Qed.

(** The page of the test suite when the new border colour takes a second
    to show: the input has focus and shows the focus colour; a second
    after it has lost focus, and from then on, its border is
    [rgb(235, 230, 223)]; the extractor reports the focus colour. *)
Lemma slow_transition_reports_focus_colour :
  querySelector (document (Page.world 1000 (Some Page.input))) "input[type=email]"
    = Some Page.input
  /\ focused (Page.world 1000 (Some Page.input)) = Some Page.input
  /\ borderColor (computed (Page.world 1000 (Some Page.input)) Page.input)
     = "rgb(3, 212, 124)"
  /\ (forall t, 1000 <= t ->
        borderColor (style (Page.page 1000) Page.input None t) = "rgb(235, 230, 223)")
  /\ fst (vortexExtractFormFieldBorderColor "input[type=email]"
            (Page.world 1000 (Some Page.input)))
     = Return (mkBorderResult (vortexRgbToHex "rgb(3, 212, 124)") (Str "INPUT") "2px")
  /\ vortexRgbToHex "rgb(3, 212, 124)" <> vortexRgbToHex "rgb(235, 230, 223)".
Proof.
  split; [reflexivity|]. split; [reflexivity|]. split; [reflexivity|].
  split; [|split; [reflexivity|]].
  - intros t Ht. simpl. unfold Page.sheet. simpl.
    destruct (t <? 1000) eqn:Hlt; [apply Z.ltb_lt in Hlt; lia | reflexivity].
  - vm_compute. discriminate.
Qed.

(** C2, amended. A call that finds its target blurs the active element,
    blurs the target, clicks the body and waits 200, in this order, and
    only then reads computed styles, that of the target first.  When the
    target has focus at the call and every element shows its unfocused
    style [rest] from 200 units after a change of focus on, the colour
    returned is the border colour of [rest], converted. *)
Theorem resting_border_after_delay (selector : string) (w : World) (input : Element) :
  querySelector (document w) selector = Some input ->
  (exists reads,
     calls_since (vortexExtractFormFieldBorderColor selector) w =
       ([Blur (uid (active w)); Blur (uid input);
         Click (uid (body (document w))); Wait 200;
         ReadStyle (uid input)] ++ reads)%list
     /\ Forall is_read reads)
  /\ (forall (f : Element) (rest : Element -> CSSStyleDeclaration),
        focused w = Some f -> uid f = uid input ->
        (forall el t, 200 <= t -> style (document w) el None t = rest el) ->
        fst (vortexExtractFormFieldBorderColor selector w) = border_outcome rest input).
Proof.
  intros Hq. split.
  - exact (border_extractor_calls _ _ _ Hq).
  - intros f rest Hf _ Hrest.
    rewrite (border_extractor_outcome _ _ _ Hq).
    apply border_outcome_ext. intros el. unfold computed.
    rewrite settled_focused, settled_document, (settled_elapsed _ _ _ Hf).
    apply Hrest. lia.
Qed.

Lemma resting_border_witness :
  fst (vortexExtractFormFieldBorderColor "input[type=email]"
         (Page.world 200 (Some Page.input)))
  = Return (mkBorderResult "#EBE6DF" (Str "INPUT") "2px").
Proof.
  destruct (resting_border_after_delay "input[type=email]"
              (Page.world 200 (Some Page.input)) Page.input eq_refl) as [_ Hcolour].
  rewrite (Hcolour Page.input (fun el => Page.sheet 200 el None 200) eq_refl eq_refl).
  - reflexivity.
  - intros el t Ht. simpl. unfold Page.sheet.
    destruct (t <? 200) eqn:Hlt; [apply Z.ltb_lt in Hlt; lia | reflexivity].
Defined.

(** C6. After the delay the extractor reads the border width of the
    target.  When it is ["0px"] or ["0"] and the target has a parent, the
    colour, the width and the descriptor returned are those of the parent;
    when it is anything else they are those of the target. *)
Theorem border_read_from_parent_when_width_zero
  (selector : string) (w : World) (input : Element) :
  querySelector (document w) selector = Some input ->
  let st := computed (settled w input) in
  (forall parent,
     borderWidth (st input) = "0px" \/ borderWidth (st input) = "0" ->
     parentElement input = Some parent ->
     fst (vortexExtractFormFieldBorderColor selector w) =
       Return (mkBorderResult (vortexRgbToHex (borderColor (st parent)))
                 (or_else (className parent) (Str (tagName parent)))
                 (borderWidth (st parent))))
  /\ (borderWidth (st input) <> "0px" -> borderWidth (st input) <> "0" ->
      fst (vortexExtractFormFieldBorderColor selector w) =
        Return (mkBorderResult (vortexRgbToHex (borderColor (st input)))
                  (or_else (className input) (Str (tagName input)))
                  (borderWidth (st input)))).
Proof.
  intros Hq st. split.
  - intros parent Hzero Hparent.
    rewrite (border_extractor_outcome _ _ _ Hq).
    unfold border_outcome, border_bearer. fold st.
    destruct Hzero as [-> | ->]; cbn [String.eqb Ascii.eqb Bool.eqb orb];
      rewrite Hparent; reflexivity.
  - intros Hpx H0.
    rewrite (border_extractor_outcome _ _ _ Hq).
    unfold border_outcome, border_bearer. fold st.
    apply String.eqb_neq in Hpx, H0. rewrite Hpx, H0. reflexivity.
Qed.

(** A target of zero width that has no parent, the root element, makes
    [getComputedStyle(null)] throw. *)
Lemma border_of_root_throws (selector : string) (w : World) (input : Element) :
  querySelector (document w) selector = Some input ->
  borderWidth (computed (settled w input) input) = "0px" ->
  parentElement input = None ->
  fst (vortexExtractFormFieldBorderColor selector w) = Throw TypeError.
Proof.
  intros Hq Hzero Hroot.
  rewrite (border_extractor_outcome _ _ _ Hq).
  unfold border_outcome, border_bearer. rewrite Hzero, Hroot. reflexivity.
Qed.

Lemma border_read_from_parent_witness :
  fst (vortexExtractFormFieldBorderColor "input.bare" (Page.world 200 None))
  = Return (mkBorderResult "#C8C8C8" (Str "field") "1px")
  /\ fst (vortexExtractFormFieldBorderColor "input[type=email]" (Page.world 200 None))
  = Return (mkBorderResult "#EBE6DF" (Str "INPUT") "2px").
Proof.
  split.
  - destruct (border_read_from_parent_when_width_zero "input.bare"
                (Page.world 200 None) Page.bare eq_refl) as [Hparent _].
    rewrite (Hparent Page.field (or_introl eq_refl) eq_refl). reflexivity.
  - destruct (border_read_from_parent_when_width_zero "input[type=email]"
                (Page.world 200 None) Page.input eq_refl) as [_ Hself].
    rewrite Hself; [reflexivity | discriminate | discriminate].
Defined.

(** ** The selection among the recorded backgrounds *)

(** The entries are recorded by increasing level. *)
Definition below (a b : Background) : Prop := level a < level b.

Lemma entries_levels (w : World) (els : list Element) :
  forall i,
    Forall (fun bg => i <= level bg) (entries w i els)
    /\ StronglySorted below (entries w i els).
Proof.
  induction els as [|el rest IH]; intros i; simpl.
  - split; constructor.
  - destruct (IH (i + 1)) as [Hlow Hsorted].
    assert (Hlow' : Forall (fun bg => i <= level bg) (entries w (i + 1) rest)).
    { eapply Forall_impl; [|exact Hlow]. simpl. intros bg Hbg. lia. }
    destruct (transparent _).
    + split; assumption.
    + split.
      * constructor; [simpl; lia | exact Hlow'].
      * constructor; [exact Hsorted|].
        eapply Forall_impl; [|exact Hlow]. unfold below. simpl. intros bg Hbg. lia.
Qed.

Lemma sorted_split (pre post : list Background) (bg : Background) :
  StronglySorted below (pre ++ bg :: post) ->
  (forall x, In x pre -> level x < level bg)
  /\ (forall x, In x post -> level bg < level x).
Proof.
  induction pre as [|a pre IH]; simpl; intros Hs.
  - apply StronglySorted_inv in Hs. destruct Hs as [_ Hall].
    rewrite Forall_forall in Hall. split; [intros x []|exact Hall].
  - apply StronglySorted_inv in Hs. destruct Hs as [Hs Hall].
    destruct (IH Hs) as [Hpre Hpost]. split; [|exact Hpost].
    intros x [<- | Hx]; [|apply Hpre; exact Hx].
    rewrite Forall_forall in Hall. apply Hall.
    apply in_or_app. right. left. reflexivity.
Qed.

(** The test of the first loop. *)
Definition qualifies (bg : Background) : bool :=
  container_marked (element bg) && solid (color bg).

(** A page background: the entry of [body] or [html]. *)
Definition page_level (bg : Background) : bool :=
  String.eqb (JsString.toLowerCase (tagName (element bg))) "body"
  || String.eqb (JsString.toLowerCase (tagName (element bg))) "html".

(** The test of the second loop. *)
Definition falls_back (bg : Background) : bool :=
  negb (page_level bg) && solid (color bg).

Definition pick (bg : Background) : selection :=
  (Some (color bg), Some (element bg)).

Lemma first_container_pick (pre post : list Background) (bg : Background) :
  (forall x, In x pre -> qualifies x = false) ->
  qualifies bg = true ->
  first_container (pre ++ bg :: post) = pick bg.
Proof.
  intros Hpre Hbg. induction pre as [|a pre IH]; simpl.
  - unfold qualifies in Hbg. rewrite Hbg. reflexivity.
  - assert (Ha : qualifies a = false) by (apply Hpre; left; reflexivity).
    unfold qualifies in Ha. rewrite Ha. apply IH.
    intros x Hx. apply Hpre. right. exact Hx.
Qed.

Lemma first_container_none (backgrounds : list Background) :
  (forall x, In x backgrounds -> qualifies x = false) ->
  first_container backgrounds = (None, None).
Proof.
  induction backgrounds as [|a rest IH]; simpl; intros Hall.
  - reflexivity.
  - assert (Ha : qualifies a = false) by (apply Hall; left; reflexivity).
    unfold qualifies in Ha. rewrite Ha. apply IH.
    intros x Hx. apply Hall. right. exact Hx.
Qed.

Lemma last_solid_pick (pre post : list Background) (bg : Background) (sel : selection) :
  (forall x, In x pre -> falls_back x = false) ->
  falls_back bg = true ->
  last_solid (pre ++ bg :: post) sel = pick bg.
Proof.
  intros Hpre Hbg. unfold falls_back, page_level in Hbg.
  apply andb_true_iff in Hbg. destruct Hbg as [Hpage Hsolid].
  apply negb_true_iff in Hpage.
  induction pre as [|a pre IH]; simpl.
  - rewrite Hpage, Hsolid. reflexivity.
  - assert (Ha : falls_back a = false) by (apply Hpre; left; reflexivity).
    unfold falls_back, page_level in Ha.
    destruct (_ || _)%bool in Ha |- *; [|simpl in Ha; rewrite Ha];
      apply IH; intros x Hx; apply Hpre; right; exact Hx.
Qed.

Lemma last_solid_none (reversed : list Background) (sel : selection) :
  (forall x, In x reversed -> falls_back x = false) ->
  last_solid reversed sel = sel.
Proof.
  induction reversed as [|a rest IH]; simpl; intros Hall.
  - reflexivity.
  - assert (Ha : falls_back a = false) by (apply Hall; left; reflexivity).
    unfold falls_back, page_level in Ha.
    destruct (_ || _)%bool in Ha |- *; [|simpl in Ha; rewrite Ha];
      apply IH; intros x Hx; apply Hall; right; exact Hx.
Qed.

Lemma unset_pick (bg : Background) :
  color bg <> "" -> unset (pick bg) = false.
Proof. intros Hc. apply String.eqb_neq. exact Hc. Qed.

(** The descriptor returned for the element of the entry chosen. *)
Definition descriptor (el : Element) : value :=
  or_else (or_else (className el) (Str (tagName el))) (Str "unknown").

Lemma container_outcome_pick (bg : Background) :
  color bg <> "" ->
  container_outcome (pick bg) =
    Return (mkContainerResult (vortexRgbToHex (color bg)) (descriptor (element bg))).
Proof.
  intros Hc. unfold container_outcome. rewrite (unset_pick _ Hc). reflexivity.
Qed.

(** The entry of lowest level that passes the first test is selected. *)
Lemma select_container (backgrounds : list Background) (bg : Background) :
  StronglySorted below backgrounds ->
  In bg backgrounds -> qualifies bg = true -> color bg <> "" ->
  (forall x, In x backgrounds -> qualifies x = true -> level bg <= level x) ->
  select backgrounds = pick bg.
Proof.
  intros Hsorted Hin Hq Hc Hmin.
  apply in_split in Hin. destruct Hin as [pre [post ->]].
  destruct (sorted_split _ _ _ Hsorted) as [Hpre _].
  unfold select. rewrite (first_container_pick pre post bg); trivial.
  - rewrite (unset_pick _ Hc). cbn iota. rewrite (unset_pick _ Hc). reflexivity.
  - intros x Hx. destruct (qualifies x) eqn:Hqx; [|reflexivity].
    assert (level bg <= level x).
    { apply Hmin; [apply in_or_app; left; exact Hx | exact Hqx]. }
    specialize (Hpre x Hx). lia.
Qed.

(** Without an entry that passes the first test, the entry of highest
    level that passes the second is selected. *)
Lemma select_fallback (backgrounds : list Background) (bg : Background) :
  StronglySorted below backgrounds ->
  (forall x, In x backgrounds -> qualifies x = false) ->
  In bg backgrounds -> falls_back bg = true -> color bg <> "" ->
  (forall x, In x backgrounds -> falls_back x = true -> level x <= level bg) ->
  select backgrounds = pick bg.
Proof.
  intros Hsorted Hnone Hin Hfb Hc Hmax.
  unfold select. rewrite (first_container_none _ Hnone). cbn [unset fst].
  apply in_split in Hin. destruct Hin as [pre [post ->]].
  destruct (sorted_split _ _ _ Hsorted) as [_ Hpost].
  rewrite rev_app_distr. cbn [rev]. rewrite <- app_assoc. cbn [app].
  rewrite (last_solid_pick (rev post) (rev pre) bg); trivial.
  - rewrite (unset_pick _ Hc). reflexivity.
  - intros x Hx. apply in_rev in Hx.
    destruct (falls_back x) eqn:Hfx; [|reflexivity].
    assert (level x <= level bg).
    { apply Hmax; [apply in_or_app; right; right; exact Hx | exact Hfx]. }
    specialize (Hpost x Hx). lia.
Qed.

(** Without an entry that passes either test, the entry of highest level
    is selected. *)
Lemma select_last (backgrounds : list Background) (bg : Background) :
  StronglySorted below backgrounds ->
  (forall x, In x backgrounds -> qualifies x = false) ->
  (forall x, In x backgrounds -> falls_back x = false) ->
  In bg backgrounds ->
  (forall x, In x backgrounds -> level x <= level bg) ->
  select backgrounds = pick bg.
Proof.
  intros Hsorted Hnone Hnofb Hin Hmax.
  unfold select. rewrite (first_container_none _ Hnone). cbn [unset fst].
  rewrite last_solid_none.
  2:{ intros x Hx. apply Hnofb. apply in_rev. exact Hx. }
  cbn [unset fst].
  apply in_split in Hin. destruct Hin as [pre [post ->]].
  destruct (sorted_split _ _ _ Hsorted) as [_ Hpost].
  destruct post as [|x post].
  - rewrite rev_app_distr. reflexivity.
  - assert (level x <= level bg).
    { apply Hmax. apply in_or_app. right. right. left. reflexivity. }
    specialize (Hpost x (or_introl eq_refl)). lia.
Qed.

Lemma first_container_cases (backgrounds : list Background) :
  first_container backgrounds = (None, None)
  \/ exists bg, In bg backgrounds /\ first_container backgrounds = pick bg.
Proof.
  induction backgrounds as [|a rest IH]; simpl.
  - left. reflexivity.
  - destruct (_ && _)%bool.
    + right. exists a. split; [left|]; reflexivity.
    + destruct IH as [IH | [bg [Hin IH]]]; [left; exact IH|].
      right. exists bg. split; [right; exact Hin | exact IH].
Qed.

Lemma last_solid_cases (reversed : list Background) (sel : selection) :
  last_solid reversed sel = sel
  \/ exists bg, In bg reversed /\ last_solid reversed sel = pick bg.
Proof.
  induction reversed as [|a rest IH]; simpl.
  - left. reflexivity.
  - assert (Hrest : last_solid rest sel = sel
                    \/ exists bg, In bg (a :: rest) /\ last_solid rest sel = pick bg).
    { destruct IH as [IH | [bg [Hin IH]]]; [left; exact IH|].
      right. exists bg. split; [right; exact Hin | exact IH]. }
    destruct (_ || _)%bool; [exact Hrest|].
    destruct (solid (color a)); [|exact Hrest].
    right. exists a. split; [left|]; reflexivity.
Qed.

(** Whenever an entry was recorded, one of the entries is selected. *)
Lemma select_picks (backgrounds : list Background) :
  backgrounds <> [] ->
  (forall x, In x backgrounds -> color x <> "") ->
  exists bg, In bg backgrounds /\ select backgrounds = pick bg.
Proof.
  intros Hne Hcolor. unfold select.
  destruct (first_container_cases backgrounds) as [-> | [bg [Hin ->]]].
  - cbn [unset fst].
    destruct (last_solid_cases (rev backgrounds) (None, None))
      as [-> | [bg [Hin ->]]].
    + cbn [unset fst].
      destruct (rev backgrounds) as [|bg rest] eqn:Hrev.
      * apply (f_equal (@rev Background)) in Hrev.
        rewrite rev_involutive in Hrev. contradiction.
      * exists bg. split; [|reflexivity].
        apply in_rev. rewrite Hrev. left. reflexivity.
    + apply in_rev in Hin.
      rewrite (unset_pick _ (Hcolor _ Hin)). exists bg. split; [exact Hin | reflexivity].
  - rewrite (unset_pick _ (Hcolor _ Hin)). cbn iota.
    rewrite (unset_pick _ (Hcolor _ Hin)). exists bg. split; [exact Hin | reflexivity].
Qed.

Lemma ancestors_length (n : nat) :
  forall current, (List.length (ancestors n current) <= n)%nat.
Proof.
  induction n as [|n IH]; intros [el|]; simpl; try lia.
  specialize (IH (parentElement el)). lia.
Qed.

Lemma entries_level_bound (w : World) (els : list Element) :
  forall i,
    Forall (fun bg => level bg < i + Z.of_nat (List.length els)) (entries w i els).
Proof.
  induction els as [|el rest IH]; intros i; simpl List.length; simpl entries.
  - constructor.
  - assert (Hrest : Forall (fun bg => level bg < i + Z.of_nat (S (List.length rest)))
                      (entries w (i + 1) rest)).
    { eapply Forall_impl; [|exact (IH (i + 1))]. simpl. intros bg Hbg. lia. }
    destruct (transparent _); [exact Hrest|].
    constructor; [simpl; lia | exact Hrest].
Qed.

(** The walk records levels 0 to 14 only. *)
Lemma recorded_levels (w : World) (input : Element) (bg : Background) :
  In bg (recorded w input) -> 0 <= level bg < 15.
Proof.
  intros Hin. unfold recorded in Hin. split.
  - destruct (entries_levels w (ancestors 15 (Some input)) 0) as [Hlow _].
    rewrite Forall_forall in Hlow. apply Hlow. exact Hin.
  - pose proof (entries_level_bound w (ancestors 15 (Some input)) 0) as Hup.
    rewrite Forall_forall in Hup. specialize (Hup _ Hin).
    pose proof (ancestors_length 15 (Some input)). lia.
Qed.

Lemma recorded_sorted (w : World) (input : Element) :
  StronglySorted below (recorded w input).
Proof. apply entries_levels. Qed.

Lemma container_extractor_outcome (selector : string) (w : World) (input : Element) :
  querySelector (document w) selector = Some input ->
  fst (vortexExtractFormContainerBackground selector w) =
    container_outcome (select (recorded w input)).
Proof.
  intros Hq. rewrite (container_extractor_steps _ _ _ Hq). reflexivity.
Qed.

(** ** Container priority *)

(** An element that is a marked container or lies inside one. *)
Fixpoint within_container (el : Element) : bool :=
  container_marked el
  || match el with
     | mkElement _ _ _ _ (Some parent) => within_container parent
     | mkElement _ _ _ _ None => false
     end.

(** The input in a card inside the modal.  The card is recorded at level
    1 with [rgb(238, 238, 238)]: it is solid, it lies inside the modal,
    and no entry has a lower level; the colour returned is that of the
    modal itself, recorded at level 2. *)
Lemma card_inside_modal_not_selected :
  querySelector (document (Page.world 200 None)) "input.inner" = Some Page.inner
  /\ In (mkBackground 1 "rgb(238, 238, 238)" Page.card)
        (recorded (Page.world 200 None) Page.inner)
  /\ solid "rgb(238, 238, 238)" = true
  /\ within_container Page.card = true
  /\ Forall (fun bg => 1 <= level bg) (recorded (Page.world 200 None) Page.inner)
  /\ fst (vortexExtractFormContainerBackground "input.inner" (Page.world 200 None))
     = Return (mkContainerResult (vortexRgbToHex "rgb(255, 255, 255)") (Str "modal"))
  /\ vortexRgbToHex "rgb(255, 255, 255)" <> vortexRgbToHex "rgb(238, 238, 238)".
Proof.
  split; [reflexivity|]. split; [left; reflexivity|].
  split; [reflexivity|]. split; [reflexivity|].
  split; [|split; [reflexivity|]].
  - vm_compute. repeat constructor; discriminate.
  - vm_compute. discriminate.
Qed.

(** C1, amended. When the walk records an entry whose colour is solid and
    whose own element is a marked container (a class with [modal],
    [dialog] or [form] in it, the tag [DIALOG] or the role [dialog]), the
    extractor returns the colour, converted, of the entry of lowest level
    among these, with the descriptor of its element. *)
Theorem container_priority
  (selector : string) (w : World) (input : Element) (bg : Background) :
  querySelector (document w) selector = Some input ->
  In bg (recorded w input) ->
  container_marked (element bg) = true ->
  solid (color bg) = true ->
  color bg <> "" ->
  (forall x, In x (recorded w input) ->
             container_marked (element x) = true -> solid (color x) = true ->
             level bg <= level x) ->
  fst (vortexExtractFormContainerBackground selector w) =
    Return (mkContainerResult (vortexRgbToHex (color bg)) (descriptor (element bg))).
Proof.
  intros Hq Hin Hmarked Hsolid Hc Hmin.
  rewrite (container_extractor_outcome _ _ _ Hq).
  rewrite (select_container (recorded w input) bg).
  - apply container_outcome_pick. exact Hc.
  - apply recorded_sorted.
  - exact Hin.
  - unfold qualifies. rewrite Hmarked, Hsolid. reflexivity.
  - exact Hc.
  - intros x Hx Hqx. unfold qualifies in Hqx. apply andb_true_iff in Hqx.
    apply Hmin; tauto.
Qed.

(** The page of the test suite: a white body outside, the white modal
    inside it, the transparent input inside the modal. *)
Lemma container_priority_witness :
  fst (vortexExtractFormContainerBackground "input[type=email]" (Page.world 200 None))
  = Return (mkContainerResult "#FFFFFF" (Str "modal")).
Proof.
  rewrite (container_priority "input[type=email]" (Page.world 200 None) Page.input
             (mkBackground 1 "rgb(255, 255, 255)" Page.modal)).
  - reflexivity.
  - reflexivity.
  - left. reflexivity.
  - reflexivity.
  - reflexivity.
  - discriminate.
  - intros x Hx _ _. apply (Forall_forall (fun bg => 1 <= level bg)
                              (recorded (Page.world 200 None) Page.input)).
    + vm_compute. repeat constructor; discriminate.
    + exact Hx.
Defined.

(** ** Fallbacks *)

(** C5. When no recorded entry passes the container test, the extractor
    returns the entry of highest level that is solid and not on [body] or
    [html]; when there is none either, the entry of highest level,
    whatever its colour.  It throws ["Could not find form container
    background"] exactly when the walk, which covers levels 0 to 14,
    recorded nothing.  (The colours recorded are not the empty string.) *)
Theorem container_fallback (selector : string) (w : World) (input : Element) :
  querySelector (document w) selector = Some input ->
  (forall x, In x (recorded w input) -> color x <> "") ->
  (fst (vortexExtractFormContainerBackground selector w) =
     Throw (Error "Could not find form container background")
   <-> recorded w input = [])
  /\ (forall x, In x (recorded w input) -> 0 <= level x < 15)
  /\ ((forall x, In x (recorded w input) -> qualifies x = false) ->
      forall bg, In bg (recorded w input) ->
        (falls_back bg = true ->
         (forall x, In x (recorded w input) -> falls_back x = true ->
                    level x <= level bg) ->
         fst (vortexExtractFormContainerBackground selector w) =
           Return (mkContainerResult (vortexRgbToHex (color bg))
                     (descriptor (element bg))))
        /\ ((forall x, In x (recorded w input) -> falls_back x = false) ->
            (forall x, In x (recorded w input) -> level x <= level bg) ->
            fst (vortexExtractFormContainerBackground selector w) =
              Return (mkContainerResult (vortexRgbToHex (color bg))
                        (descriptor (element bg))))).
Proof.
  intros Hq Hcolor.
  rewrite (container_extractor_outcome _ _ _ Hq).
  split; [|split].
  - split.
    + intros Hthrow.
      destruct (recorded w input) as [|b rest] eqn:Hrec; [reflexivity|].
      destruct (select_picks (b :: rest)) as [bg [Hin Hsel]];
        [discriminate | exact Hcolor |].
      rewrite Hsel, (container_outcome_pick _ (Hcolor _ Hin)) in Hthrow.
      discriminate.
    + intros ->. reflexivity.
  - intros x. apply recorded_levels.
  - intros Hnone bg Hin. split.
    + intros Hfb Hmax.
      rewrite (select_fallback (recorded w input) bg);
        auto using recorded_sorted, container_outcome_pick.
    + intros Hnofb Hmax.
      rewrite (select_last (recorded w input) bg);
        auto using recorded_sorted, container_outcome_pick.
Qed.

(** The borderless input in its wrapper: the wrapper is not a marked
    container; the entry of the body is skipped and that of the wrapper is
    returned. *)
Lemma container_fallback_witness :
  fst (vortexExtractFormContainerBackground "input.bare" (Page.world 200 None))
  = Return (mkContainerResult "#FAFAFA" (Str "field")).
Proof.
  assert (Hall : Forall (fun bg => color bg <> "" /\ qualifies bg = false
                                   /\ (falls_back bg = true -> level bg <= 1))
                   (recorded (Page.world 200 None) Page.bare)).
  { assert (Hrec : recorded (Page.world 200 None) Page.bare =
                     [mkBackground 1 "rgb(250, 250, 250)" Page.field;
                      mkBackground 2 "rgb(255, 255, 255)" Page.body])
      by (vm_compute; reflexivity).
    rewrite Hrec.
    repeat constructor; try discriminate; try (vm_compute; reflexivity);
      vm_compute; discriminate. }
  rewrite Forall_forall in Hall.
  destruct (container_fallback "input.bare" (Page.world 200 None) Page.bare eq_refl)
    as [_ [_ Hfallback]].
  - intros x Hx. apply (Hall x Hx).
  - destruct (Hfallback (fun x Hx => proj1 (proj2 (Hall x Hx)))
                (mkBackground 1 "rgb(250, 250, 250)" Page.field)
                (or_introl eq_refl)) as [Hsolid _].
    rewrite Hsolid.
    + reflexivity.
    + reflexivity.
    + intros x Hx. apply (Hall x Hx).
Defined.

(* ================================================================== *)
(** * Properties of the numbers *)

Module NumberFacts.
Import JsNumber.

Lemma rne_le (n d K : Z) :
  0 < d -> 0 <= n -> n <= K * d -> rne n d <= K.
Proof.
  intros Hd Hn HK. unfold rne.
  pose proof (Z.div_mod n d ltac:(lia)) as Hdm.
  pose proof (Z.mod_pos_bound n d Hd) as Hr.
  destruct (2 * (n mod d) ?= d) eqn:Hc.
  - apply Z.compare_eq in Hc. destruct (Z.even (n / d)); nia.
  - nia.
  - apply Z.compare_gt_iff in Hc. nia.
Qed.

Lemma rne_nonneg (n d : Z) : 0 < d -> 0 <= n -> 0 <= rne n d.
Proof.
  intros Hd Hn. unfold rne.
  pose proof (Z.div_pos n d Hn Hd).
  destruct (2 * (n mod d) ?= d); [destruct (Z.even (n / d))| |]; lia.
Qed.

(** [log2_ratio p q] is not above the logarithm of [p / q]. *)
Lemma log2_ratio_lower (p q : Z) :
  0 < p -> 0 < q -> 0 <= log2_ratio p q -> q * 2 ^ log2_ratio p q <= p.
Proof.
  intros Hp Hq. unfold log2_ratio, scale2.
  pose proof (Z.log2_spec p Hp) as [Hp1 Hp2].
  pose proof (Z.log2_spec q Hq) as [Hq1 Hq2].
  pose proof (Z.log2_nonneg p). pose proof (Z.log2_nonneg q).
  set (d := Z.log2 p - Z.log2 q) in *.
  destruct (0 <=? d) eqn:Hd.
  - apply Z.leb_le in Hd.
    destruct (p <? q * 2 ^ d) eqn:Hlt.
    + intros Hlg.
      assert (Hpow : 2 ^ Z.log2 p = 2 ^ (Z.log2 q + 1) * 2 ^ (d - 1)).
      { rewrite <- Z.pow_add_r by lia. f_equal. unfold d. lia. }
      assert (0 < 2 ^ (d - 1)) by (apply Z.pow_pos_nonneg; lia).
      nia.
    + intros _. apply Z.ltb_ge in Hlt. lia.
  - apply Z.leb_gt in Hd. destruct (_ <? _); intros; lia.
Qed.

Lemma log2_ratio_below (p q k : Z) :
  0 < p -> 0 < q -> 0 <= k -> p < 2 ^ k * q -> log2_ratio p q < k.
Proof.
  intros Hp Hq Hk Hlt.
  destruct (Z.lt_ge_cases (log2_ratio p q) k) as [|Hge]; [assumption|].
  pose proof (log2_ratio_lower p q Hp Hq ltac:(lia)) as Hlow.
  assert (2 ^ k <= 2 ^ log2_ratio p q) by (apply Z.pow_le_mono_r; lia).
  nia.
Qed.

(** A positive ratio that is at most 255 rounds to zero or to a positive
    number that is at most 255, with a unit in the last place below 1. *)
Lemma round_ratio_le_255 (s : bool) (p q : Z) :
  0 < p -> 0 < q -> p <= 255 * q ->
  round_ratio s p q = S754_zero s
  \/ exists m e, round_ratio s p q = S754_finite s m e
                 /\ e < 0 /\ Z.pos m <= 255 * 2 ^ (- e).
Proof.
  intros Hp Hq Hle. unfold round_ratio.
  destruct (p <=? 0) eqn:Hp0; [apply Z.leb_le in Hp0; lia|].
  assert (He : ulp_exp p q <= -45).
  { unfold ulp_exp.
    pose proof (log2_ratio_below p q 8 Hp Hq ltac:(lia)
                  ltac:(change (2 ^ 8) with 256; lia)).
    lia. }
  set (e := ulp_exp p q) in *.
  unfold scale2. destruct (0 <=? e) eqn:He0; [apply Z.leb_le in He0; lia|].
  assert (Hpow : 0 < 2 ^ (- e)) by (apply Z.pow_pos_nonneg; lia).
  pose proof (rne_le (p * 2 ^ (- e)) q (255 * 2 ^ (- e)) Hq
                ltac:(nia) ltac:(nia)) as Hm.
  pose proof (rne_nonneg (p * 2 ^ (- e)) q Hq ltac:(nia)) as Hm0.
  set (m := rne (p * 2 ^ (- e)) q) in *.
  destruct (m =? 2 ^ 53) eqn:Hm53.
  - apply Z.eqb_eq in Hm53. right.
    change (2 ^ 52) with 4503599627370496.
    exists 4503599627370496%positive, (e + 1).
    assert (Hsplit : 2 ^ (- e) = 2 * 2 ^ (- (e + 1))).
    { rewrite <- Z.pow_succ_r by lia. f_equal. lia. }
    destruct (971 <? e + 1) eqn:Hbig; [apply Z.ltb_lt in Hbig; lia|].
    split; [reflexivity|]. split; [lia|].
    change (2 ^ 53) with 9007199254740992 in Hm53. lia.
  - destruct m as [|mp|mp] eqn:Hmeq.
    + left. reflexivity.
    + right. exists mp, e.
      destruct (971 <? e) eqn:Hbig; [apply Z.ltb_lt in Hbig; lia|].
      split; [reflexivity|]. split; lia.
    + lia.
Qed.

(** Zero, or a positive number that is at most 255 with a unit in the
    last place below 1. *)
Definition up_to_255 (y : number) : Prop :=
  (exists s, y = S754_zero s)
  \/ exists m e, y = S754_finite false m e /\ e < 0 /\ Z.pos m <= 255 * 2 ^ (- e).

(** The numbers from 0 to 1: the zeros and the positive [m * 2^e] with
    [m <= 2^-e]. *)
Lemma unit_interval_cases (a : number) :
  (0 <= a)%js = true -> (a <= 1)%js = true ->
  (exists s, a = S754_zero s)
  \/ exists m e, a = S754_finite false m e /\ e <= 0 /\ Z.pos m <= 2 ^ (- e).
Proof.
  unfold leb. destruct a as [s|s| |s m e]; cbn [compare].
  - intros _ _. left. exists s. reflexivity.
  - destruct s; discriminate.
  - discriminate.
  - destruct s; [discriminate|]. intros _. cbn [mant]. intros Hcmp.
    assert (Hle : Z.pos m * 2 ^ (e - Z.min e (-52))
                  <= 4503599627370496 * 2 ^ (-52 - Z.min e (-52))).
    { destruct (_ ?= _) eqn:Hc; try discriminate.
      - apply Z.compare_eq in Hc. rewrite Hc. apply Z.le_refl.
      - apply Z.compare_lt_iff in Hc. apply Z.lt_le_incl. exact Hc. }
    clear Hcmp. right. exists m, e. split; [reflexivity|].
    destruct (Z.le_gt_cases e (-52)) as [He|He].
    + rewrite Z.min_l in Hle by lia.
      replace (e - e) with 0 in Hle by lia. change (2 ^ 0) with 1 in Hle.
      replace (4503599627370496 * 2 ^ (-52 - e)) with (2 ^ (- e)) in Hle; [lia|].
      change 4503599627370496 with (2 ^ 52). rewrite <- Z.pow_add_r by lia.
      f_equal. lia.
    + rewrite Z.min_r in Hle by lia.
      replace (-52 - -52) with 0 in Hle by lia. change (2 ^ 0) with 1 in Hle.
      assert (0 < 2 ^ (e - -52)) by (apply Z.pow_pos_nonneg; lia).
      destruct (Z.le_gt_cases e 0) as [He0|He0].
      * split; [exact He0|].
        assert (Hsplit : 2 ^ 52 = 2 ^ (e - -52) * 2 ^ (- e)).
        { rewrite <- Z.pow_add_r by lia. f_equal. lia. }
        change (2 ^ 52) with 4503599627370496 in Hsplit.
        assert (0 < 2 ^ (- e)) by (apply Z.pow_pos_nonneg; lia).
        nia.
      * assert (2 ^ 53 <= 2 ^ (e - -52)) by (apply Z.pow_le_mono_r; lia).
        change (2 ^ 53) with 9007199254740992 in *. nia.
Qed.

(** [a * 255] for [a] from 0 to 1. *)
Lemma mul_255_range (a : number) :
  (0 <= a)%js = true -> (a <= 1)%js = true -> up_to_255 (a * 255)%js.
Proof.
  intros H0 H1.
  destruct (unit_interval_cases a H0 H1) as [[s ->] | [m [e [-> [He Hm]]]]].
  - left. exists (xorb s false). reflexivity.
  - unfold mul, round_dyadic. cbn [mant].
    assert (Hneg : (Z.pos m * 8972014882652160 <? 0) = false)
      by (apply Z.ltb_ge; lia).
    rewrite Hneg. rewrite Z.abs_eq by lia.
    unfold scale2.
    assert (Hsh : (0 <=? - (e + -45)) = true) by (apply Z.leb_le; lia).
    rewrite Hsh.
    assert (Hq : 0 < 1 * 2 ^ (- (e + -45)))
      by (pose proof (Z.pow_pos_nonneg 2 (- (e + -45))); lia).
    assert (Hpq : Z.pos m * 8972014882652160 <= 255 * (1 * 2 ^ (- (e + -45)))).
    { replace (- (e + -45)) with (- e + 45) by lia.
      rewrite Z.pow_add_r by lia. change (2 ^ 45) with 35184372088832. nia. }
    destruct (round_ratio_le_255 false (Z.pos m * 8972014882652160)
                (1 * 2 ^ (- (e + -45))) ltac:(lia) Hq Hpq) as [Hz | Hf].
    + left. exists false. exact Hz.
    + right. exact Hf.
Qed.

(** [Math.round] of a number from 0 to 255 is a zero or one of the
    integers 1 to 255. *)
Lemma Math_round_byte (y : number) :
  up_to_255 y ->
  (exists s, Math_round y = S754_zero s)
  \/ exists n, 1 <= n <= 255 /\ Math_round y = of_Z n.
Proof.
  intros [[s ->] | [m [e [-> [He Hm]]]]].
  - left. exists s. reflexivity.
  - unfold Math_round. cbn [mant].
    destruct (0 <=? e) eqn:He0; [apply Z.leb_le in He0; lia|].
    set (n := (2 * Z.pos m + 2 ^ (- e)) / 2 ^ (1 - e)).
    assert (Hpow : 0 < 2 ^ (- e)) by (apply Z.pow_pos_nonneg; lia).
    assert (Hsplit : 2 ^ (1 - e) = 2 * 2 ^ (- e)).
    { rewrite <- Z.pow_succ_r by lia. f_equal. lia. }
    assert (Hn : 0 <= n < 256).
    { unfold n. split.
      - apply Z.div_pos; lia.
      - apply Z.div_lt_upper_bound; lia. }
    destruct (n =? 0) eqn:Hn0.
    + left. exists false. reflexivity.
    + right. apply Z.eqb_neq in Hn0. exists n. split; [lia | reflexivity].
Qed.

(** [log2_ratio p q] is not below the logarithm of [p / q] either. *)
Lemma log2_ratio_upper (p q : Z) :
  0 < p -> 0 < q ->
  let '(n, d) := scale2 p q (log2_ratio p q + 1) in n < d.
Proof.
  intros Hp Hq. unfold log2_ratio.
  pose proof (Z.log2_spec p Hp) as [Hp1 Hp2].
  pose proof (Z.log2_spec q Hq) as [Hq1 Hq2].
  pose proof (Z.log2_nonneg p). pose proof (Z.log2_nonneg q).
  rewrite Z.pow_succ_r in Hp2, Hq2 by assumption.
  set (d := Z.log2 p - Z.log2 q) in *.
  unfold scale2 at 2. destruct (0 <=? d) eqn:Hd.
  - apply Z.leb_le in Hd.
    assert (Hrel : 2 ^ Z.log2 p = 2 ^ Z.log2 q * 2 ^ d).
    { rewrite <- Z.pow_add_r by lia. f_equal. unfold d. lia. }
    assert (0 < 2 ^ d) by (apply Z.pow_pos_nonneg; lia).
    destruct (p <? q * 2 ^ d) eqn:Hlt.
    + apply Z.ltb_lt in Hlt. unfold scale2.
      replace (d - 1 + 1) with d by lia.
      rewrite (proj2 (Z.leb_le 0 d) Hd). exact Hlt.
    + unfold scale2. rewrite (proj2 (Z.leb_le 0 (d + 1)) ltac:(lia)).
      rewrite Z.pow_add_r by lia. change (2 ^ 1) with 2. nia.
  - apply Z.leb_gt in Hd.
    assert (Hrel : 2 ^ Z.log2 q = 2 ^ Z.log2 p * 2 ^ (- d)).
    { rewrite <- Z.pow_add_r by lia. f_equal. unfold d. lia. }
    destruct (p * 2 ^ (- d) <? q) eqn:Hlt.
    + apply Z.ltb_lt in Hlt. unfold scale2.
      replace (d - 1 + 1) with d by lia.
      rewrite (proj2 (Z.leb_gt 0 d) Hd). exact Hlt.
    + unfold scale2.
      assert (Hsplit : 2 ^ (- d) = 2 * 2 ^ (- (d + 1))).
      { rewrite <- Z.pow_succ_r by lia. f_equal. lia. }
      assert (0 < 2 ^ (- (d + 1))) by (apply Z.pow_pos_nonneg; lia).
      destruct (0 <=? d + 1) eqn:Hd1.
      * apply Z.leb_le in Hd1. assert (Hd' : d + 1 = 0) by lia.
        rewrite Hd' in *. change (2 ^ 0) with 1 in *. nia.
      * nia.
Qed.

Lemma log2_ratio_above (p q k : Z) :
  0 < p -> 0 < q -> 0 <= k -> 2 ^ k * q <= p -> k <= log2_ratio p q.
Proof.
  intros Hp Hq Hk Hle.
  destruct (Z.le_gt_cases k (log2_ratio p q)) as [|Hlt]; [assumption|].
  pose proof (log2_ratio_upper p q Hp Hq) as Hup. unfold scale2 in Hup.
  assert (0 < 2 ^ k) by (apply Z.pow_pos_nonneg; lia).
  destruct (0 <=? log2_ratio p q + 1) eqn:Hs.
  - apply Z.leb_le in Hs.
    assert (2 ^ (log2_ratio p q + 1) <= 2 ^ k) by (apply Z.pow_le_mono_r; lia).
    nia.
  - apply Z.leb_gt in Hs.
    assert (0 < 2 ^ (- (log2_ratio p q + 1))) by (apply Z.pow_pos_nonneg; lia).
    nia.
Qed.

Lemma rne_ge (n d K : Z) :
  0 < d -> K * d <= n -> K <= rne n d.
Proof.
  intros Hd HK. unfold rne.
  assert (K <= n / d) by (apply Z.div_le_lower_bound; lia).
  destruct (2 * (n mod d) ?= d); [destruct (Z.even (n / d))| |]; lia.
Qed.

(** The outcomes of rounding: the sign is kept. *)
Lemma round_ratio_cases (s : bool) (p q : Z) :
  round_ratio s p q = S754_zero s
  \/ round_ratio s p q = S754_infinity s
  \/ exists m e, round_ratio s p q = S754_finite s m e.
Proof.
  unfold round_ratio.
  destruct (p <=? 0); [left; reflexivity|].
  destruct (scale2 p q (ulp_exp p q)) as [n d].
  destruct (rne n d =? 2 ^ 53).
  - change (2 ^ 52) with 4503599627370496.
    destruct (971 <? _); [right; left; reflexivity | right; right; eauto].
  - destruct (rne n d); [left; reflexivity | | left; reflexivity].
    destruct (971 <? _); [right; left; reflexivity | right; right; eauto].
Qed.

(** A ratio that is at least 256 rounds to a number above 255. *)
Lemma round_ratio_ge_256 (p q : Z) :
  0 < q -> 256 * q <= p ->
  compare 255%js (round_ratio false p q) = Some Lt.
Proof.
  intros Hq Hle.
  assert (Hp : 0 < p) by lia.
  assert (Hlg : 8 <= log2_ratio p q).
  { apply log2_ratio_above; lia. }
  pose proof (log2_ratio_lower p q Hp Hq ltac:(lia)) as Hlow.
  unfold round_ratio.
  destruct (p <=? 0) eqn:Hp0; [apply Z.leb_le in Hp0; lia|].
  unfold ulp_exp. rewrite Z.max_l by lia.
  set (e := log2_ratio p q - 52) in *.
  assert (Hm : exists m, rne (fst (scale2 p q e)) (snd (scale2 p q e)) = m
                         /\ (0 <= e -> 2 ^ 52 <= m)
                         /\ (e < 0 -> 256 * 2 ^ (- e) <= m)).
  { eexists. split; [reflexivity|]. unfold scale2.
    destruct (0 <=? e) eqn:He; cbn [fst snd].
    - apply Z.leb_le in He. split; [|lia]. intros _.
      assert (0 < 2 ^ e) by (apply Z.pow_pos_nonneg; lia).
      apply rne_ge; [nia|].
      replace (log2_ratio p q) with (52 + e) in Hlow by (unfold e; lia).
      rewrite Z.pow_add_r in Hlow by lia. nia.
    - apply Z.leb_gt in He. split; [lia|]. intros _.
      assert (0 < 2 ^ (- e)) by (apply Z.pow_pos_nonneg; lia).
      apply rne_ge; [lia | nia]. }
  destruct (scale2 p q e) as [n d]. cbn [fst snd] in Hm.
  destruct Hm as [m [-> [Hpos Hneg]]].
  assert (Hfinal : forall (m' : positive) (e' : Z),
             (0 <= e' -> 2 ^ 52 <= Z.pos m') ->
             (e' < 0 -> 256 * 2 ^ (- e') <= Z.pos m') ->
             -45 <= e' ->
             compare 255%js (if 971 <? e' then S754_infinity false
                             else S754_finite false m' e') = Some Lt).
  { intros m' e' Hp' Hn' He'. destruct (971 <? e'); [reflexivity|].
    cbn [compare mant]. rewrite Z.min_l by lia.
    replace (-45 - -45) with 0 by lia. change (2 ^ 0) with 1.
    f_equal. apply Z.compare_lt_iff.
    destruct (Z.le_gt_cases 0 e') as [He0|He0].
    - specialize (Hp' He0).
      assert (2 ^ 45 <= 2 ^ (e' - -45)) by (apply Z.pow_le_mono_r; lia).
      change (2 ^ 52) with 4503599627370496 in Hp'.
      change (2 ^ 45) with 35184372088832 in *. nia.
    - specialize (Hn' He0).
      assert (Hsplit : 2 ^ 45 = 2 ^ (e' - -45) * 2 ^ (- e')).
      { rewrite <- Z.pow_add_r by lia. f_equal. lia. }
      change (2 ^ 45) with 35184372088832 in Hsplit.
      assert (0 < 2 ^ (e' - -45)) by (apply Z.pow_pos_nonneg; lia).
      assert (0 < 2 ^ (- e')) by (apply Z.pow_pos_nonneg; lia).
      nia. }
  destruct (m =? 2 ^ 53) eqn:Hm53.
  - change (2 ^ 52) with 4503599627370496.
    apply Hfinal; [| |lia].
    + intros _. change (2 ^ 52) with 4503599627370496. lia.
    + intros He1.
      assert (2 ^ (- (e + 1)) <= 2 ^ 43) by (apply Z.pow_le_mono_r; lia).
      change (2 ^ 43) with 8796093022208 in *. lia.
  - assert (0 < m).
    { destruct (Z.le_gt_cases 0 e).
      - specialize (Hpos ltac:(lia)). change (2 ^ 52) with 4503599627370496 in Hpos. lia.
      - specialize (Hneg ltac:(lia)).
        assert (0 < 2 ^ (- e)) by (apply Z.pow_pos_nonneg; lia). lia. }
    destruct m as [|mp|mp]; try lia.
    apply Hfinal; [assumption | assumption | lia].
Qed.

End NumberFacts.

(* ================================================================== *)
(** * Properties of the regular expressions *)

Lemma append_assoc (s t u : string) : (s ++ t) ++ u = s ++ (t ++ u).
Proof. induction s as [|c s IH]; simpl; [reflexivity | rewrite IH; reflexivity]. Qed.

Module RegExpFacts.
Import RegExp.

(** ** One pass, no backtracking *)

(** [s] without its longest prefix of characters in [p]. *)
Fixpoint skip (p : ascii -> bool) (s : string) : string :=
  match s with
  | String c s' => if p c then skip p s' else s
  | EmptyString => s
  end.

(** The greedy reading of [r] at the start of [s]: every quantifier takes
    all it can and keeps it. *)
Fixpoint run (r : regex) (s : string) (caps : captures)
  : option (string * captures) :=
  match r with
  | Eps => Some (s, caps)
  | Chr c =>
      match s with
      | String c' s' => if Ascii.eqb c c' then Some (s', caps) else None
      | EmptyString => None
      end
  | Cls p =>
      match s with
      | String c' s' => if p c' then Some (s', caps) else None
      | EmptyString => None
      end
  | Seq r1 r2 =>
      match run r1 s caps with
      | Some (s', caps') => run r2 s' caps'
      | None => None
      end
  | Opt r' =>
      match run r' s caps with
      | Some x => Some x
      | None => Some (s, caps)
      end
  | Star p => Some (skip p s, caps)
  | Plus p =>
      match s with
      | String c' s' => if p c' then Some (skip p s', caps) else None
      | EmptyString => None
      end
  | Group i r' =>
      match run r' s caps with
      | Some (s', caps') => Some (s', (i, consumed s s') :: caps')
      | None => None
      end
  end.

Fixpoint nullable (r : regex) : bool :=
  match r with
  | Eps | Opt _ | Star _ => true
  | Chr _ | Cls _ | Plus _ => false
  | Seq r1 r2 => nullable r1 && nullable r2
  | Group _ r' => nullable r'
  end.

(** The characters a match of [r] followed by something that starts in
    [K] can start with. *)
Fixpoint first (r : regex) (K : ascii -> bool) : ascii -> bool :=
  match r with
  | Eps => K
  | Chr c => Ascii.eqb c
  | Cls p => p
  | Seq r1 r2 => first r1 (first r2 K)
  | Opt r' => fun c => first r' K c || K c
  | Star p => fun c => p c || K c
  | Plus p => p
  | Group _ r' => first r' K
  end.

Definition none : ascii -> bool := fun _ => false.
Definition any : ascii -> bool := fun _ => true.

Definition forall_ascii (f : ascii -> bool) : bool :=
  forallb (fun n => f (ascii_of_nat n)) (List.seq 0 256).

Definition disjoint (P Q : ascii -> bool) : bool :=
  forall_ascii (fun c => negb (P c && Q c)).

(** [r] followed by something that starts in [K] can be read in one pass:
    where a quantifier stops, and where an optional part is left out, the
    rest cannot go on with what was left. *)
Fixpoint one_pass (r : regex) (K : ascii -> bool) : bool :=
  match r with
  | Eps | Chr _ | Cls _ => true
  | Seq r1 r2 => one_pass r1 (first r2 K) && one_pass r2 K
  | Opt r' => negb (nullable r') && one_pass r' K && disjoint (first r' none) K
  | Star p | Plus p => disjoint p K
  | Group _ r' => one_pass r' K
  end.

(** [r] ends with a character it must read. *)
Fixpoint definite (r : regex) : bool :=
  match r with
  | Chr _ | Cls _ => true
  | Seq _ r2 => definite r2
  | Group _ r' => definite r'
  | Eps | Opt _ | Star _ | Plus _ => false
  end.

Lemma forall_ascii_spec (f : ascii -> bool) :
  forall_ascii f = true -> forall c, f c = true.
Proof.
  unfold forall_ascii. rewrite forallb_forall. intros Hall c.
  rewrite <- (ascii_nat_embedding c). apply Hall.
  apply in_seq. pose proof (nat_ascii_bounded c). lia.
Qed.

Lemma disjoint_spec (P Q : ascii -> bool) (c : ascii) :
  disjoint P Q = true -> P c = true -> Q c = false.
Proof.
  intros Hd HP.
  pose proof (forall_ascii_spec (fun c => negb (P c && Q c)) Hd c) as Hc.
  simpl in Hc.
  rewrite HP in Hc. destruct (Q c); [discriminate | reflexivity].
Qed.

(** What a continuation accepts starts in [K]. *)
Definition accepts_only {R : Type} (k : string -> captures -> option R)
  (K : ascii -> bool) : Prop :=
  forall c s caps, K c = false -> k (String c s) caps = None.

Lemma star_skip {R : Type} (p : ascii -> bool) (k : string -> option R) :
  (forall c s, p c = true -> k (String c s) = None) ->
  forall s, star p s k = k (skip p s).
Proof.
  intros Hk s. induction s as [|c s IH]; simpl; [reflexivity|].
  destruct (p c) eqn:Hp; [|reflexivity].
  rewrite IH. destruct (k (skip p s)) eqn:Hks; [reflexivity|].
  apply Hk. exact Hp.
Qed.

Lemma first_nullable (r : regex) :
  forall K c, nullable r = true -> K c = true -> first r K c = true.
Proof.
  induction r; intros K c0 Hn HK; simpl in *; try discriminate; auto.
  - apply andb_true_iff in Hn. destruct Hn. auto.
  - rewrite HK. apply orb_true_r.
  - rewrite HK. apply orb_true_r.
Qed.

(** A match reads nothing, or starts with a character of [first]. *)
Lemma run_first (r : regex) :
  forall K s caps s' caps',
    run r s caps = Some (s', caps') ->
    (s' = s /\ nullable r = true)
    \/ exists c t, s = String c t /\ first r K c = true.
Proof.
  induction r; intros K s caps s' caps' Hrun; simpl in *.
  - injection Hrun as <- <-. left. split; reflexivity.
  - destruct s as [|c' t]; [discriminate|].
    destruct (Ascii.eqb c c') eqn:Hc; [|discriminate].
    right. exists c', t. split; [reflexivity | exact Hc].
  - destruct s as [|c' t]; [discriminate|].
    destruct (p c') eqn:Hc; [|discriminate].
    right. exists c', t. split; [reflexivity | exact Hc].
  - destruct (run r1 s caps) as [[s1 c1]|] eqn:H1; [|discriminate].
    destruct (IHr1 (first r2 K) _ _ _ _ H1) as [[-> Hn1] | Hstart];
      [|right; exact Hstart].
    destruct (IHr2 K _ _ _ _ Hrun) as [[-> Hn2] | [c [t [-> Hc]]]].
    + left. split; [reflexivity | rewrite Hn1, Hn2; reflexivity].
    + right. exists c, t. split; [reflexivity|].
      apply first_nullable; assumption.
  - destruct (run r s caps) as [[s1 c1]|] eqn:H1.
    + injection Hrun as <- <-.
      destruct (IHr K _ _ _ _ H1) as [[-> _] | [c [t [-> Hc]]]].
      * left. split; reflexivity.
      * right. exists c, t. split; [reflexivity | rewrite Hc; reflexivity].
    + injection Hrun as <- <-. left. split; reflexivity.
  - injection Hrun as <- <-.
    destruct s as [|c t]; [left; split; reflexivity|].
    simpl. destruct (p c) eqn:Hp.
    + right. exists c, t. split; [reflexivity | rewrite Hp; reflexivity].
    + left. split; reflexivity.
  - destruct s as [|c' t]; [discriminate|].
    destruct (p c') eqn:Hc; [|discriminate].
    right. exists c', t. split; [reflexivity | exact Hc].
  - destruct (run r s caps) as [[s1 c1]|] eqn:H1; [|discriminate].
    injection Hrun as <- <-. exact (IHr K _ _ _ _ H1).
Qed.

(** What is left after a match is a suffix of the input. *)
Lemma skip_suffix (p : ascii -> bool) (s : string) :
  exists m, s = m ++ skip p s.
Proof.
  induction s as [|c s [m IH]]; simpl.
  - exists "". reflexivity.
  - destruct (p c).
    + exists (String c m). simpl. rewrite <- IH. reflexivity.
    + exists "". reflexivity.
Qed.

Lemma run_suffix (r : regex) :
  forall s caps s' caps',
    run r s caps = Some (s', caps') -> exists m, s = m ++ s'.
Proof.
  induction r; intros s caps s' caps' Hrun; simpl in *.
  - injection Hrun as <- <-. exists "". reflexivity.
  - destruct s as [|c' t]; [discriminate|].
    destruct (Ascii.eqb c c'); [|discriminate].
    injection Hrun as <- <-. exists (String c' ""). reflexivity.
  - destruct s as [|c' t]; [discriminate|].
    destruct (p c'); [|discriminate].
    injection Hrun as <- <-. exists (String c' ""). reflexivity.
  - destruct (run r1 s caps) as [[s1 c1]|] eqn:H1; [|discriminate].
    destruct (IHr1 _ _ _ _ H1) as [m1 ->].
    destruct (IHr2 _ _ _ _ Hrun) as [m2 ->].
    exists (m1 ++ m2). rewrite append_assoc. reflexivity.
  - destruct (run r s caps) as [[s1 c1]|] eqn:H1.
    + injection Hrun as <- <-. exact (IHr _ _ _ _ H1).
    + injection Hrun as <- <-. exists "". reflexivity.
  - injection Hrun as <- <-. apply skip_suffix.
  - destruct s as [|c' t]; [discriminate|].
    destruct (p c'); [|discriminate].
    injection Hrun as <- <-.
    destruct (skip_suffix p t) as [m Hm].
    exists (String c' m). simpl. rewrite <- Hm. reflexivity.
  - destruct (run r s caps) as [[s1 c1]|] eqn:H1; [|discriminate].
    injection Hrun as <- <-. exact (IHr _ _ _ _ H1).
Qed.

(** A match of an expression that is not nullable starts with a character
    of its own. *)
Lemma run_starts (r : regex) (s : string) (caps : captures)
  (s' : string) (caps' : captures) :
  nullable r = false ->
  run r s caps = Some (s', caps') ->
  exists c t, s = String c t /\ first r none c = true.
Proof.
  intros Hn Hrun.
  destruct (run_first r none _ _ _ _ Hrun) as [[_ Hn'] | Hstart];
    [congruence | exact Hstart].
Qed.

(** The backtracking matcher and the one-pass reading agree on the
    expressions that can be read in one pass. *)
Theorem matches_run {R : Type} (r : regex) :
  forall (K : ascii -> bool) (k : string -> captures -> option R),
    one_pass r K = true -> accepts_only k K ->
    forall s caps,
      matches r s caps k =
      match run r s caps with
      | Some (s', caps') => k s' caps'
      | None => None
      end.
Proof.
  induction r; intros K k Hok Hk s caps; simpl in *.
  - reflexivity.
  - destruct s as [|c' t]; [reflexivity|]. destruct (Ascii.eqb c c'); reflexivity.
  - destruct s as [|c' t]; [reflexivity|]. destruct (p c'); reflexivity.
  - apply andb_true_iff in Hok. destruct Hok as [Hok1 Hok2].
    rewrite (IHr1 (first r2 K)); [| exact Hok1 |].
    + destruct (run r1 s caps) as [[s1 c1]|]; [|reflexivity].
      apply (IHr2 K); assumption.
    + intros c t caps0 Hc. rewrite (IHr2 K); [| exact Hok2 | exact Hk].
      destruct (run r2 (String c t) caps0) as [[s2 c2]|] eqn:H2; [|reflexivity].
      destruct (run_first r2 K _ _ _ _ H2) as [[-> Hn] | [c' [t' [Heq Hc']]]].
      * apply Hk. destruct (K c) eqn:HK; [|reflexivity].
        rewrite (first_nullable r2 K c Hn HK) in Hc. discriminate.
      * injection Heq as <- <-. congruence.
  - apply andb_true_iff in Hok. destruct Hok as [Hok Hdis].
    apply andb_true_iff in Hok. destruct Hok as [Hnn Hok].
    apply negb_true_iff in Hnn.
    rewrite (IHr K k Hok Hk).
    destruct (run r s caps) as [[s1 c1]|] eqn:H1; [|reflexivity].
    destruct (k s1 c1) eqn:Hk1; [reflexivity|].
    destruct (run_starts r _ _ _ _ Hnn H1) as [c [t [-> Hc]]].
    apply Hk. exact (disjoint_spec _ _ _ Hdis Hc).
  - apply (star_skip p (fun s' => k s' caps)).
    intros c t Hp. apply Hk. exact (disjoint_spec _ _ _ Hok Hp).
  - destruct s as [|c' t]; [reflexivity|]. destruct (p c'); [|reflexivity].
    apply (star_skip p (fun s' => k s' caps)).
    intros c0 t0 Hp. apply Hk. exact (disjoint_spec _ _ _ Hok Hp).
  - rewrite (IHr K (fun s' caps' => k s' ((i, consumed s s') :: caps')) Hok).
    + destruct (run r s caps) as [[s1 c1]|]; reflexivity.
    + intros c t caps0 Hc. apply Hk. exact Hc.
Qed.

Definition starts_in (K : ascii -> bool) (s : string) : Prop :=
  exists c t, s = String c t /\ K c = true.

Lemma skip_app (p : ascii -> bool) (s post : string) (c : ascii) (t : string) :
  skip p s = String c t -> skip p (s ++ post) = String c t ++ post.
Proof.
  induction s as [|c' s IH]; simpl; [discriminate|].
  destruct (p c'); [exact IH|]. intros H. injection H as -> ->. reflexivity.
Qed.

Lemma skip_stops (p : ascii -> bool) (s : string) (c : ascii) (t : string) :
  skip p s = String c t -> p c = false.
Proof.
  induction s as [|c' s IH]; simpl; [discriminate|].
  destruct (p c') eqn:Hp; [exact IH|]. intros H. injection H as <- <-. exact Hp.
Qed.

Lemma definite_not_nullable (r : regex) :
  definite r = true -> nullable r = false.
Proof.
  induction r; simpl; intros Hd; try discriminate; auto.
  rewrite (IHr2 Hd). apply andb_false_r.
Qed.

Lemma length_app (s t : string) :
  String.length (s ++ t) = (String.length s + String.length t)%nat.
Proof. induction s as [|c s IH]; simpl; [reflexivity | rewrite IH; reflexivity]. Qed.

Lemma take_app (m s : string) : JsString.take (String.length m) (m ++ s) = m.
Proof. induction m as [|c m IH]; simpl; [destruct s|rewrite IH]; reflexivity. Qed.

Lemma consumed_app (m s : string) : consumed (m ++ s) s = m.
Proof.
  unfold consumed. rewrite length_app.
  replace (String.length m + String.length s - String.length s)%nat
    with (String.length m) by lia.
  apply take_app.
Qed.

(** A match read in one pass is not changed by what comes after the
    input, when the expression ends with a character it must read or the
    match stops before a character the rest can start with. *)
Theorem run_app (r : regex) :
  forall (K : ascii -> bool) s caps s' caps' post,
    one_pass r K = true ->
    run r s caps = Some (s', caps') ->
    definite r = true \/ starts_in K s' ->
    run r (s ++ post) caps = Some (s' ++ post, caps').
Proof.
  induction r; intros K s caps s' caps' post Hok Hrun Hend; simpl in *.
  - injection Hrun as <- <-. reflexivity.
  - destruct s as [|c' t]; [discriminate|]. simpl.
    destruct (Ascii.eqb c c'); [|discriminate].
    injection Hrun as <- <-. reflexivity.
  - destruct s as [|c' t]; [discriminate|]. simpl.
    destruct (p c'); [|discriminate].
    injection Hrun as <- <-. reflexivity.
  - apply andb_true_iff in Hok. destruct Hok as [Hok1 Hok2].
    destruct (run r1 s caps) as [[s1 c1]|] eqn:H1; [|discriminate].
    rewrite (IHr1 (first r2 K) _ _ _ _ post Hok1 H1).
    + exact (IHr2 K _ _ _ _ post Hok2 Hrun Hend).
    + right.
      destruct (run_first r2 K _ _ _ _ Hrun) as [[-> Hn] | Hstart];
        [|exact Hstart].
      destruct Hend as [Hd | [c [t [-> Hc]]]].
      * rewrite (definite_not_nullable _ Hd) in Hn. discriminate.
      * exists c, t. split; [reflexivity|]. apply first_nullable; assumption.
  - destruct Hend as [Hd | [c [t [Hs' Hc]]]]; [discriminate|].
    apply andb_true_iff in Hok. destruct Hok as [Hok Hdis].
    apply andb_true_iff in Hok. destruct Hok as [Hnn Hok].
    apply negb_true_iff in Hnn.
    destruct (run r s caps) as [[s1 c1]|] eqn:H1.
    + injection Hrun as <- <-.
      rewrite (IHr K _ _ _ _ post Hok H1); [reflexivity|].
      right. exists c, t. split; assumption.
    + injection Hrun as <- <-. subst s. simpl.
      destruct (run r (String c (t ++ post)) caps) as [[s2 c2]|] eqn:H2;
        [|reflexivity].
      destruct (run_starts r _ _ _ _ Hnn H2) as [c' [t' [Heq Hc']]].
      injection Heq as <- <-.
      rewrite (disjoint_spec _ _ _ Hdis Hc') in Hc. discriminate.
  - destruct Hend as [Hd | [c [t [Hs' Hc]]]]; [discriminate|].
    injection Hrun as <- <-. rewrite Hs'.
    rewrite (skip_app p s post c t Hs'). reflexivity.
  - destruct Hend as [Hd | [c [t [Hs' Hc]]]]; [discriminate|].
    destruct s as [|c' t']; [discriminate|]. simpl.
    destruct (p c'); [|discriminate].
    injection Hrun as <- <-. rewrite Hs'.
    rewrite (skip_app p t' post c t Hs'). reflexivity.
  - destruct (run r s caps) as [[s1 c1]|] eqn:H1; [|discriminate].
    injection Hrun as <- <-.
    rewrite (IHr K _ _ _ _ post Hok H1 Hend).
    destruct (run_suffix r _ _ _ _ H1) as [m ->].
    rewrite append_assoc, !consumed_app. reflexivity.
Qed.

Lemma match_here_run (r : regex) (s : string) :
  one_pass (Group 0 r) any = true ->
  match_here r s = option_map snd (run (Group 0 r) s []).
Proof.
  intros Hok. unfold match_here.
  rewrite (matches_run (Group 0 r) any _ Hok).
  - destruct (run (Group 0 r) s []) as [[s' caps']|]; reflexivity.
  - intros c t caps Hc. discriminate.
Qed.

(** A match at the start of [s] is the match at the start of [s ++ post]. *)
Lemma match_here_app (r : regex) (s post : string) (caps : captures) :
  one_pass (Group 0 r) any = true -> definite r = true ->
  match_here r s = Some caps -> match_here r (s ++ post) = Some caps.
Proof.
  intros Hok Hd. rewrite !match_here_run by exact Hok.
  destruct (run (Group 0 r) s []) as [[s' caps']|] eqn:Hrun; [|discriminate].
  intros H. injection H as <-.
  rewrite (run_app (Group 0 r) any _ _ _ _ post Hok Hrun); [reflexivity|].
  left. exact Hd.
Qed.

(** No match starts at a position of [pre] in [pre ++ rest]. *)
Fixpoint starts_nowhere (r : regex) (pre rest : string) : bool :=
  match pre with
  | EmptyString => true
  | String _ pre' =>
      match match_here r (pre ++ rest) with
      | Some _ => false
      | None => starts_nowhere r pre' rest
      end
  end.

Lemma exec_skip (r : regex) (pre rest : string) :
  starts_nowhere r pre rest = true -> exec r (pre ++ rest) = exec r rest.
Proof.
  induction pre as [|c pre IH]; [reflexivity|].
  cbn [starts_nowhere]. destruct (match_here r (String c pre ++ rest)) eqn:Hm;
    [discriminate|].
  intros Hpre. cbn [append exec]. cbn [append] in Hm. rewrite Hm.
  apply IH. exact Hpre.
Qed.

Lemma exec_here (r : regex) (s : string) (caps : captures) :
  match_here r s = Some caps -> exec r s = Some caps.
Proof. intros Hm. destruct s; cbn [exec]; rewrite Hm; reflexivity. Qed.

Lemma run_rejects (r : regex) (s : string) (caps : captures) :
  nullable r = false ->
  (forall c t, s = String c t -> first r none c = false) ->
  run r s caps = None.
Proof.
  intros Hn Hfirst.
  destruct (run r s caps) as [[s' caps']|] eqn:Hrun; [|reflexivity].
  destruct (run_starts r _ _ _ _ Hn Hrun) as [c [t [Hs Hc]]].
  rewrite (Hfirst c t Hs) in Hc. discriminate.
Qed.

End RegExpFacts.

Import RegExpFacts.

(* ================================================================== *)
(** * Properties of the colour converter *)

(** ** The canonical colour *)

(** The canonical form, as the specification words it: two upper-case
    hex digits for each byte. *)
Definition HEX (d : Z) : ascii :=
  match String.get (Z.to_nat d) "0123456789ABCDEF" with
  | Some c => c
  | None => "?"%char
  end.

Definition hex2 (n : Z) : string :=
  String (HEX (n / 16)) (String (HEX (n mod 16)) "").

(** The byte of an alpha: [Math.round(a * 255)] as an integer. *)
Definition alpha_byte (a : JsNumber.number) : Z :=
  JsNumber.to_Z (JsNumber.Math_round (a * 255)%js).

Lemma toUpperCase_app (s t : string) :
  JsString.toUpperCase (s ++ t) = JsString.toUpperCase s ++ JsString.toUpperCase t.
Proof.
  unfold JsString.toUpperCase.
  induction s as [|c s IH]; simpl; [reflexivity | rewrite IH; reflexivity].
Qed.

Definition byte_ok (n : Z) : bool :=
  String.eqb (JsString.toUpperCase (toHex (JsNumber.of_Z n))) (hex2 n)
  && (JsNumber.to_Z (JsNumber.of_Z n) =? n).

Lemma bytes_ok : forallb (fun k => byte_ok (Z.of_nat k)) (List.seq 0 256) = true.
Proof. vm_compute. reflexivity. Qed.

(** The integers 0 to 255 print as their two hex digits. *)
Lemma byte_facts (n : Z) :
  0 <= n <= 255 ->
  JsString.toUpperCase (toHex (JsNumber.of_Z n)) = hex2 n
  /\ JsNumber.to_Z (JsNumber.of_Z n) = n.
Proof.
  intros Hn.
  pose proof bytes_ok as Hall. rewrite forallb_forall in Hall.
  specialize (Hall (Z.to_nat n)).
  rewrite Z2Nat.id in Hall by lia.
  assert (Hin : In (Z.to_nat n) (List.seq 0 256)) by (apply in_seq; lia).
  specialize (Hall Hin). unfold byte_ok in Hall.
  apply andb_true_iff in Hall. destruct Hall as [H1 H2].
  split; [apply String.eqb_eq; exact H1 | apply Z.eqb_eq; exact H2].
Qed.

(** The digits appended for an alpha from 0 to 1. *)
Lemma alpha_digits (a : JsNumber.number) :
  (0 <= a)%js = true -> (a <= 1)%js = true ->
  JsString.toUpperCase
    (JsString.padStart 2 "0"
       (JsNumber.toString16 (JsNumber.Math_round (a * 255)%js)))
  = hex2 (alpha_byte a)
  /\ 0 <= alpha_byte a <= 255.
Proof.
  intros H0 H1. unfold alpha_byte.
  destruct (NumberFacts.Math_round_byte _ (NumberFacts.mul_255_range a H0 H1))
    as [[s ->] | [n [Hn ->]]].
  - split; [reflexivity | simpl; lia].
  - destruct (byte_facts n ltac:(lia)) as [Hhex HZ].
    rewrite HZ. split; [exact Hhex | lia].
Qed.

(** An alpha of zero has the byte 0. *)
Lemma alpha_byte_zero (a : JsNumber.number) :
  (a === 0)%js = true -> alpha_byte a = 0.
Proof.
  unfold JsNumber.eqb, alpha_byte.
  destruct a as [s|s| |s m e]; cbn [JsNumber.compare]; try discriminate.
  - intros _. reflexivity.
  - destruct s; discriminate.
  - destruct s; discriminate.
Qed.

(** C3. For a string in which the pattern finds channels that read as
    integers [r], [g], [b] from 0 to 255 and, when there is one, an alpha
    that reads as a number from 0 to 1, the result is ["#"], the two
    upper-case hex digits of each channel and, if and only if there is
    an alpha and it is not 1, the two hex digits of
    [Math.round(alpha * 255)], a byte; an alpha of 0 gives ["00"]; there
    are 6 or 8 digits after the ["#"]. *)
Theorem rgb_to_hex_digits
  (s : string) (caps : captures) (r g b : Z) :
  String_match s rgb_pattern = Some caps ->
  JsNumber.parseInt (ToString (group 1 caps)) = JsNumber.of_Z r -> 0 <= r <= 255 ->
  JsNumber.parseInt (ToString (group 2 caps)) = JsNumber.of_Z g -> 0 <= g <= 255 ->
  JsNumber.parseInt (ToString (group 3 caps)) = JsNumber.of_Z b -> 0 <= b <= 255 ->
  (forall t, group 4 caps = Some t ->
             (0 <= JsNumber.parseFloat t)%js = true
             /\ (JsNumber.parseFloat t <= 1)%js = true) ->
  vortexRgbToHex s =
    "#" ++ hex2 r ++ hex2 g ++ hex2 b ++
    match group 4 caps with
    | Some t =>
        if (JsNumber.parseFloat t === 1)%js then ""
        else hex2 (alpha_byte (JsNumber.parseFloat t))
    | None => ""
    end
  /\ (forall t, group 4 caps = Some t ->
                0 <= alpha_byte (JsNumber.parseFloat t) <= 255
                /\ ((JsNumber.parseFloat t === 0)%js = true ->
                    vortexRgbToHex s = "#" ++ hex2 r ++ hex2 g ++ hex2 b ++ "00"))
  /\ (String.length (vortexRgbToHex s) = 7%nat
      \/ String.length (vortexRgbToHex s) = 9%nat).
Proof.
  intros Hm Hr Hr255 Hg Hg255 Hb Hb255 Ha.
  assert (Hout : vortexRgbToHex s =
    "#" ++ hex2 r ++ hex2 g ++ hex2 b ++
    match group 4 caps with
    | Some t =>
        if (JsNumber.parseFloat t === 1)%js then ""
        else hex2 (alpha_byte (JsNumber.parseFloat t))
    | None => ""
    end).
  { unfold vortexRgbToHex. rewrite Hm, Hr, Hg, Hb.
    destruct (byte_facts r Hr255) as [Hhr _].
    destruct (byte_facts g Hg255) as [Hhg _].
    destruct (byte_facts b Hb255) as [Hhb _].
    destruct (group 4 caps) as [t|] eqn:H4.
    - destruct (Ha t eq_refl) as [H0 H1].
      assert (Htruthy : truthy (Some t) = true).
      { destruct t; [vm_compute in H0; discriminate | reflexivity]. }
      rewrite Htruthy. cbn [ToString].
      destruct (JsNumber.parseFloat t === 1)%js; cbn [negb].
      + rewrite !toUpperCase_app, Hhr, Hhg, Hhb. reflexivity.
      + rewrite !toUpperCase_app, Hhr, Hhg, Hhb.
        rewrite (proj1 (alpha_digits _ H0 H1)).
        rewrite !append_assoc. reflexivity.
    - cbn [truthy].
      rewrite !toUpperCase_app, Hhr, Hhg, Hhb. reflexivity. }
  split; [exact Hout|]. split.
  - intros t H4. destruct (Ha t H4) as [H0 H1].
    split; [exact (proj2 (alpha_digits _ H0 H1))|].
    intros Hzero. rewrite Hout, H4.
    assert (Hone : (JsNumber.parseFloat t === 1)%js = false).
    { revert Hzero. unfold JsNumber.eqb.
      destruct (JsNumber.parseFloat t) as [z|z| |z m e];
        cbn [JsNumber.compare]; try discriminate; try reflexivity;
        destruct z; discriminate. }
    rewrite Hone, (alpha_byte_zero _ Hzero). reflexivity.
  - rewrite Hout.
    destruct (group 4 caps) as [t|]; [|left; reflexivity].
    destruct (JsNumber.parseFloat t === 1)%js; [left | right]; reflexivity.
Qed.

Lemma rgb_to_hex_witness :
  vortexRgbToHex "rgba(0, 0, 0, 0.19)" = "#00000030"
  /\ vortexRgbToHex "rgba(1,2,3,1)" = "#010203"
  /\ vortexRgbToHex "rgb(7, 39, 31)" = "#07271F".
Proof.
  split; [|split].
  - destruct (rgb_to_hex_digits "rgba(0, 0, 0, 0.19)"
                [(0%nat, "rgba(0, 0, 0, 0.19)"); (4%nat, "0.19");
                 (3%nat, "0"); (2%nat, "0"); (1%nat, "0")] 0 0 0)
      as [Hout _].
    + vm_compute; reflexivity.
    + vm_compute; reflexivity.
    + lia.
    + vm_compute; reflexivity.
    + lia.
    + vm_compute; reflexivity.
    + lia.
    + intros t Ht. injection Ht as <-. split; vm_compute; reflexivity.
    + rewrite Hout. vm_compute. reflexivity.
  - destruct (rgb_to_hex_digits "rgba(1,2,3,1)"
                [(0%nat, "rgba(1,2,3,1)"); (4%nat, "1");
                 (3%nat, "3"); (2%nat, "2"); (1%nat, "1")] 1 2 3)
      as [Hout _].
    + vm_compute; reflexivity.
    + vm_compute; reflexivity.
    + lia.
    + vm_compute; reflexivity.
    + lia.
    + vm_compute; reflexivity.
    + lia.
    + intros t Ht. injection Ht as <-. split; vm_compute; reflexivity.
    + rewrite Hout. vm_compute. reflexivity.
  - destruct (rgb_to_hex_digits "rgb(7, 39, 31)"
                [(0%nat, "rgb(7, 39, 31)");
                 (3%nat, "31"); (2%nat, "39"); (1%nat, "7")] 7 39 31)
      as [Hout _].
    + vm_compute; reflexivity.
    + vm_compute; reflexivity.
    + lia.
    + vm_compute; reflexivity.
    + lia.
    + vm_compute; reflexivity.
    + lia.
    + intros t Ht. discriminate.
    + rewrite Hout. vm_compute. reflexivity.
Defined.

Lemma rgb_pattern_one_pass : one_pass (Group 0 rgb_pattern) any = true.
Proof. vm_compute. reflexivity. Qed.

Lemma rgb_pattern_definite : definite rgb_pattern = true.
Proof. reflexivity. Qed.

(** The pattern matches nowhere in a string without an [r]. *)
Lemma exec_rgb_without_r (s : string) :
  JsString.mem "r" s = false -> String_match s rgb_pattern = None.
Proof.
  unfold String_match.
  assert (Hhere : forall t, JsString.mem "r" t = false ->
                            match_here rgb_pattern t = None).
  { intros t Ht. rewrite match_here_run by exact rgb_pattern_one_pass.
    rewrite run_rejects; [reflexivity | reflexivity |].
    intros c t' ->. simpl in Ht. apply orb_false_iff in Ht.
    exact (proj1 Ht). }
  induction s as [|c s IH]; intros Hs.
  - cbn [exec]. rewrite (Hhere "" eq_refl). reflexivity.
  - cbn [exec]. rewrite (Hhere _ Hs).
    apply IH. simpl in Hs. apply orb_false_iff in Hs. exact (proj2 Hs).
Qed.

Lemma upper_not_r (c : ascii) : Ascii.eqb "r" (JsString.upper c) = false.
Proof.
  destruct c as [b0 b1 b2 b3 b4 b5 b6 b7].
  destruct b0, b1, b2, b3, b4, b5, b6, b7; reflexivity.
Qed.

Lemma toUpperCase_without_r (s : string) :
  JsString.mem "r" (JsString.toUpperCase s) = false.
Proof.
  unfold JsString.toUpperCase.
  induction s as [|c s IH]; cbn [JsString.map JsString.mem]; [reflexivity|].
  rewrite upper_not_r, IH. reflexivity.
Qed.

Lemma rgb_to_hex_upper (s : string) (caps : captures) :
  String_match s rgb_pattern = Some caps ->
  exists t, vortexRgbToHex s = JsString.toUpperCase t.
Proof.
  intros Hm. unfold vortexRgbToHex. rewrite Hm.
  eexists. reflexivity.
Qed.

(** ** Strings that are not colours, and converting twice *)

(** C7. A string in which the pattern finds nothing is returned as it is;
    and converting the result of a conversion changes nothing: the
    result is the input itself, or it is upper case, so that the pattern,
    which starts with [r], finds nothing in it. *)
Theorem rgb_to_hex_idempotent :
  (forall s, String_match s rgb_pattern = None -> vortexRgbToHex s = s)
  /\ (forall s, vortexRgbToHex (vortexRgbToHex s) = vortexRgbToHex s).
Proof.
  assert (Hnone : forall s, String_match s rgb_pattern = None ->
                            vortexRgbToHex s = s).
  { intros s Hs. unfold vortexRgbToHex. rewrite Hs. reflexivity. }
  split; [exact Hnone|].
  intros s. destruct (String_match s rgb_pattern) as [caps|] eqn:Hm.
  - destruct (rgb_to_hex_upper s caps Hm) as [t ->].
    apply Hnone. apply exec_rgb_without_r. apply toUpperCase_without_r.
  - rewrite (Hnone s Hm). exact (Hnone s Hm).
Qed.

(** ** Colours inside a longer string *)

(** C10. When [core] starts with a match of the pattern and no match
    starts earlier, inside the text [pre] put before it, the pattern
    finds in [pre ++ core ++ post] the captures it finds in [core], and
    the result is that for [core] alone: the text around the colour
    leaves no trace in it. *)
Theorem embedded_colour_converted (pre core post : string) (caps : captures) :
  match_here rgb_pattern core = Some caps ->
  starts_nowhere rgb_pattern pre (core ++ post) = true ->
  String_match (pre ++ core ++ post) rgb_pattern = Some caps
  /\ vortexRgbToHex (pre ++ core ++ post) = vortexRgbToHex core.
Proof.
  intros Hcore Hpre.
  assert (Hfull : String_match (pre ++ core ++ post) rgb_pattern = Some caps).
  { unfold String_match. rewrite (exec_skip _ _ _ Hpre).
    apply exec_here.
    exact (match_here_app _ _ post _ rgb_pattern_one_pass rgb_pattern_definite Hcore). }
  split; [exact Hfull|].
  unfold vortexRgbToHex. rewrite Hfull.
  unfold String_match. rewrite (exec_here _ _ _ Hcore). reflexivity.
Qed.

Lemma embedded_colour_witness :
  vortexRgbToHex "color: rgb(1,2, 3); margin: 0" = "#010203".
Proof.
  destruct (embedded_colour_converted "color: " "rgb(1,2, 3)" "; margin: 0"
              [(0%nat, "rgb(1,2, 3)"); (3%nat, "3"); (2%nat, "2"); (1%nat, "1")])
    as [_ Hout].
  - vm_compute. reflexivity.
  - vm_compute. reflexivity.
  - cbn [append] in Hout. rewrite Hout. vm_compute. reflexivity.
Defined.

(* ================================================================== *)
(** * OKLab *)

(** ** The arithmetic against the hardware *)

(** The operations of [JsNumber] give what the processor gives on binary64
    values ([Prim2SF] reads a hardware number as a [spec_float]). *)

Section Hardware.

#[local] Set Warnings "-inexact-float".

Definition same_number (x : float) (y : JsNumber.number) : bool :=
  match Prim2SF x, y with
  | S754_nan, S754_nan => true
  | S754_zero s, S754_zero t | S754_infinity s, S754_infinity t => Bool.eqb s t
  | S754_finite s m e, S754_finite t n f =>
      Bool.eqb s t && Pos.eqb m n && Z.eqb e f
  | _, _ => false
  end.

Example literal_on_hardware :
  same_number 0.3963377774 (0.3963377774)%js
  && same_number 1e104 (1e104)%js
  && same_number 0.0031308 (0.0031308)%js
  && same_number (-0.0041960863) (-0.0041960863)%js = true.
Proof. vm_compute. reflexivity. Qed.

Example mul_on_hardware :
  same_number (0.19 * 255) (0.19 * 255)%js
  && same_number (0.7 * 255) (0.7 * 255)%js
  && same_number (1e104 * 1e104 * 1e104) (1e104 * 1e104 * 1e104)%js
  && same_number (5e-324 * 0.5) (5e-324 * 0.5)%js = true.
Proof. vm_compute. reflexivity. Qed.

Example add_sub_div_on_hardware :
  same_number (0.5 + 0.3963377774 * 1e104) (0.5 + 0.3963377774 * 1e104)%js
  && same_number (0.1 + 0.2) (0.1 + 0.2)%js
  && same_number (0.5 - 0.1055613458 * 0.3) (0.5 - 0.1055613458 * 0.3)%js
  && same_number (infinity - infinity) (JsNumber.Infinity - JsNumber.Infinity)%js
  && same_number (1 / 2.4) (1 / 2.4)%js = true.
Proof. vm_compute. reflexivity. Qed.

End Hardware.

(** ** The clamp *)

Lemma round_ratio_not_NaN (s : bool) (p q : Z) :
  JsNumber.round_ratio s p q <> JsNumber.NaN.
Proof.
  unfold JsNumber.round_ratio.
  destruct (p <=? 0); [discriminate|].
  destruct (JsNumber.scale2 p q (JsNumber.ulp_exp p q)) as [n d].
  destruct (JsNumber.rne n d =? 2 ^ 53).
  - change (2 ^ 52) with 4503599627370496.
    destruct (971 <? _); discriminate.
  - destruct (JsNumber.rne n d); try discriminate.
    destruct (971 <? _); discriminate.
Qed.

Lemma round_dyadic_not_NaN (m e : Z) :
  JsNumber.round_dyadic m e <> JsNumber.NaN.
Proof.
  unfold JsNumber.round_dyadic.
  destruct (JsNumber.scale2 (Z.abs m) 1 (- e)). apply round_ratio_not_NaN.
Qed.

Module ClampFacts.
Import JsNumber NumberFacts.

(** The clamp of the last step. *)
Definition clamp (y : number) : number := Math_max 0%js (Math_min 255%js y).

Lemma clamp_below_zero (y : number) :
  (exists s, y = S754_zero s) \/ y = S754_infinity true
  \/ (exists m e, y = S754_finite true m e) ->
  clamp y = S754_zero false.
Proof.
  intros [[s ->] | [-> | [m [e ->]]]].
  - destruct s; reflexivity.
  - reflexivity.
  - unfold clamp, Math_min. cbn [compare mant].
    assert (Hgt : (8972014882652160 * 2 ^ (-45 - Z.min (-45) e)
                   ?= Z.neg m * 2 ^ (e - Z.min (-45) e)) = Gt).
    { apply Z.compare_gt_iff.
      assert (0 < 2 ^ (-45 - Z.min (-45) e)) by (apply Z.pow_pos_nonneg; lia).
      assert (0 < 2 ^ (e - Z.min (-45) e)) by (apply Z.pow_pos_nonneg; lia).
      nia. }
    rewrite Hgt. reflexivity.
Qed.

(** What is known of the integers 1 to 255 as numbers. *)
Definition small_ok (n : Z) : bool :=
  match of_Z n with
  | S754_finite false m e =>
      (e <? 0) && (Z.pos m =? n * 2 ^ (- e))
      && (clamp (of_Z n) === of_Z n)%js
  | _ => false
  end.

Lemma smalls_ok : forallb (fun k => small_ok (Z.of_nat (S k))) (List.seq 0 255) = true.
Proof. vm_compute. reflexivity. Qed.

Lemma small_facts (n : Z) :
  1 <= n <= 255 ->
  (exists m e, of_Z n = S754_finite false m e /\ e < 0 /\ Z.pos m = n * 2 ^ (- e))
  /\ (clamp (of_Z n) === of_Z n)%js = true.
Proof.
  intros Hn. pose proof smalls_ok as Hall. rewrite forallb_forall in Hall.
  specialize (Hall (Z.to_nat (n - 1))).
  replace (Z.of_nat (S (Z.to_nat (n - 1)))) with n in Hall by lia.
  assert (Hin : In (Z.to_nat (n - 1)) (List.seq 0 255)) by (apply in_seq; lia).
  specialize (Hall Hin). unfold small_ok in Hall.
  destruct (of_Z n) as [s|s| |s m e]; try discriminate.
  destruct s; [discriminate|].
  apply andb_true_iff in Hall. destruct Hall as [Hall Hclamp].
  apply andb_true_iff in Hall. destruct Hall as [He Hm].
  apply Z.ltb_lt in He. apply Z.eqb_eq in Hm.
  split; [exists m, e; auto | exact Hclamp].
Qed.

Lemma of_Z_positive (n : Z) : 0 < n -> of_Z n = round_ratio false n 1.
Proof.
  intros Hn. unfold of_Z, round_dyadic, scale2. cbn [Z.opp Z.leb Z.compare].
  rewrite Z.abs_eq by lia. change (1 * 2 ^ 0) with 1.
  rewrite (proj2 (Z.ltb_ge n 0)) by lia. reflexivity.
Qed.

Lemma of_Z_negative (n : Z) : n < 0 -> of_Z n = round_ratio true (- n) 1.
Proof.
  intros Hn. unfold of_Z, round_dyadic, scale2. cbn [Z.opp Z.leb Z.compare].
  rewrite Z.abs_neq by lia. change (1 * 2 ^ 0) with 1.
  rewrite (proj2 (Z.ltb_lt n 0)) by lia. reflexivity.
Qed.

(** The clamp of a positive integer. *)
Lemma clamp_of_Z (n : Z) :
  1 <= n ->
  exists k, 1 <= k <= 255 /\ (clamp (of_Z n) === of_Z k)%js = true.
Proof.
  intros Hn. destruct (Z.le_gt_cases n 255) as [Hle|Hgt].
  - exists n. split; [lia|]. apply small_facts. lia.
  - exists 255. split; [lia|].
    unfold clamp, Math_min. rewrite of_Z_positive by lia.
    rewrite round_ratio_ge_256 by lia. reflexivity.
Qed.

(** The clamp of a positive number without fractional bits. *)
Lemma clamp_integral (m : positive) (e : Z) :
  0 <= e ->
  exists k, 1 <= k <= 255 /\ (clamp (S754_finite false m e) === of_Z k)%js = true.
Proof.
  intros He. unfold clamp, Math_min. cbn [compare mant].
  rewrite Z.min_l by lia. replace (-45 - -45) with 0 by lia.
  change (2 ^ 0) with 1.
  assert (Hsplit : 2 ^ (e - -45) = 2 ^ e * 35184372088832).
  { replace (e - -45) with (e + 45) by lia. rewrite Z.pow_add_r by lia.
    reflexivity. }
  assert (Hpe : 0 < 2 ^ e) by (apply Z.pow_pos_nonneg; lia).
  rewrite Hsplit.
  destruct (8972014882652160 * 1 ?= Z.pos m * (2 ^ e * 35184372088832)) eqn:Hc.
  - (* the number is 255 *)
    apply Z.compare_eq in Hc. cbn [sign].
    exists 255. split; [lia|].
    change (of_Z 255) with (S754_finite false 8972014882652160 (-45)).
    unfold Math_max. cbn [compare]. unfold eqb. cbn [compare mant].
    rewrite Z.min_r by lia. replace (-45 - -45) with 0 by lia.
    change (2 ^ 0) with 1. rewrite Hsplit. rewrite <- Hc.
    rewrite Z.compare_refl. reflexivity.
  - exists 255. split; [lia | reflexivity].
  - apply Z.compare_gt_iff in Hc.
    set (V := Z.pos m * 2 ^ e).
    assert (HV : 1 <= V <= 255) by (unfold V; nia).
    exists V. split; [exact HV|].
    destruct (small_facts V HV) as [[mV [eV [-> [HeV HmV]]]] _].
    unfold Math_max. cbn [compare]. unfold eqb. cbn [compare mant].
    rewrite Z.min_r by lia. replace (eV - eV) with 0 by lia.
    change (2 ^ 0) with 1.
    assert (Hs : 2 ^ (e - eV) = 2 ^ e * 2 ^ (- eV)).
    { rewrite <- Z.pow_add_r by lia. f_equal; lia. }
    rewrite Hs, HmV. unfold V.
    replace (Z.pos m * (2 ^ e * 2 ^ (- eV))) with (Z.pos m * 2 ^ e * 2 ^ (- eV) * 1)
      by lia.
    rewrite Z.compare_refl. reflexivity.
Qed.

(** What [Math.round] returns for a finite number. *)
Lemma Math_round_cases (s : bool) (m : positive) (e : Z) :
  (0 <= e /\ Math_round (S754_finite s m e) = S754_finite s m e)
  \/ Math_round (S754_finite s m e) = S754_zero s
  \/ exists n, Math_round (S754_finite s m e) = of_Z n
               /\ if s then n < 0 else 0 < n.
Proof.
  unfold Math_round. destruct (0 <=? e) eqn:He.
  - left. apply Z.leb_le in He. split; [exact He | reflexivity].
  - right. apply Z.leb_gt in He.
    set (n := (2 * mant s m + 2 ^ (- e)) / 2 ^ (1 - e)).
    destruct (n =? 0) eqn:Hn0; [left; reflexivity|].
    right. exists n. split; [reflexivity|]. apply Z.eqb_neq in Hn0.
    assert (Hpow : 0 < 2 ^ (- e)) by (apply Z.pow_pos_nonneg; lia).
    assert (Hsplit : 2 ^ (1 - e) = 2 * 2 ^ (- e)).
    { rewrite <- Z.pow_succ_r by lia. f_equal. lia. }
    destruct s; cbn [mant] in n.
    + assert (n < 1); [|lia]. unfold n.
      apply Z.div_lt_upper_bound; lia.
    + assert (0 <= n); [|lia]. unfold n. apply Z.div_pos; lia.
Qed.

(** The clamp of a rounded number that is not NaN is one of the integers
    0 to 255. *)
Lemma clamp_round_range (x : number) :
  x <> NaN ->
  exists k, 0 <= k <= 255 /\ (clamp (Math_round x) === of_Z k)%js = true.
Proof.
  intros Hx. destruct x as [s|s| |s m e]; [| | contradiction |].
  - exists 0. split; [lia|]. destruct s; reflexivity.
  - destruct s; [exists 0 | exists 255]; (split; [lia | reflexivity]).
  - destruct (Math_round_cases s m e) as [[He ->] | [-> | [n [-> Hn]]]].
    + destruct s.
      * exists 0. split; [lia|]. rewrite clamp_below_zero; [reflexivity|].
        right. right. eauto.
      * destruct (clamp_integral m e He) as [k [Hk Heq]].
        exists k. split; [lia | exact Heq].
    + exists 0. split; [lia|]. destruct s; reflexivity.
    + destruct s.
      * exists 0. split; [lia|]. rewrite clamp_below_zero; [reflexivity|].
        rewrite of_Z_negative by exact Hn.
        destruct (round_ratio_cases true (- n) 1) as [-> | [-> | [m' [e' ->]]]];
          eauto.
      * destruct (clamp_of_Z n ltac:(lia)) as [k [Hk Heq]].
        exists k. split; [lia | exact Heq].
Qed.

Lemma mul_255_not_NaN (v : number) : v <> NaN -> (v * 255)%js <> NaN.
Proof.
  intros Hv. destruct v as [s|s| |s m e]; [| | contradiction |].
  - destruct s; discriminate.
  - destruct s; discriminate.
  - apply round_dyadic_not_NaN.
Qed.

End ClampFacts.

(** The last step lets NaN through, and nothing else: the channel is NaN
    exactly when the gamma-corrected value is, and it is one of the
    integers 0 to 255 when it is not. *)
Lemma to_byte_NaN (v : JsNumber.number) :
  to_byte v = JsNumber.NaN <-> v = JsNumber.NaN.
Proof.
  split; [|intros ->; reflexivity].
  intros Hnan.
  destruct v as [s|s| |s m e] eqn:Hv; [exfalso|exfalso|reflexivity|exfalso];
    rewrite <- Hv in *;
    (assert (Hnot : v <> JsNumber.NaN) by (rewrite Hv; discriminate));
    destruct (ClampFacts.clamp_round_range (v * 255)%js
                (ClampFacts.mul_255_not_NaN v Hnot)) as [k [_ Heq]];
    change (ClampFacts.clamp (JsNumber.Math_round (v * 255)%js))
      with (to_byte v) in Heq;
    rewrite Hnan in Heq; discriminate.
Qed.

Lemma to_byte_range (v : JsNumber.number) :
  v <> JsNumber.NaN ->
  exists k, 0 <= k <= 255 /\ (to_byte v === JsNumber.of_Z k)%js = true.
Proof.
  intros Hv.
  exact (ClampFacts.clamp_round_range (v * 255)%js
           (ClampFacts.mul_255_not_NaN v Hv)).
Qed.

(** X13. Whatever the arguments and [Math.pow] are, the result has three
    entries, each NaN or one of the integers 0 to 255. *)
Lemma oklab_channels
  (Math_pow : JsNumber.number -> JsNumber.number -> JsNumber.number)
  (L a b : JsNumber.number) :
  List.length (vortexOklabToRgb Math_pow L a b) = 3%nat
  /\ Forall (fun c => c = JsNumber.NaN
                      \/ exists k, 0 <= k <= 255
                                   /\ (c === JsNumber.of_Z k)%js = true)
            (vortexOklabToRgb Math_pow L a b).
Proof.
  split; [reflexivity|].
  assert (Hchannel : forall v,
            to_byte v = JsNumber.NaN
            \/ exists k, 0 <= k <= 255
                         /\ (to_byte v === JsNumber.of_Z k)%js = true).
  { intros v. destruct v as [s|s| |s m e] eqn:Hv;
      try (right; apply to_byte_range; discriminate).
    left. reflexivity. }
  unfold vortexOklabToRgb.
  repeat (apply Forall_cons; [apply Hchannel|]). apply Forall_nil.
Qed.

(** C9, at an input where it fails. With a chroma of [1e104] the cubes
    [l3], [m3] and [s3] overflow to infinities of both signs, the linear
    channels are NaN, and so are the three values returned, whatever
    [Math.pow] is: [Math.min] and [Math.max] let NaN through. *)
Theorem oklab_overflow_returns_NaN
  (Math_pow : JsNumber.number -> JsNumber.number -> JsNumber.number) :
  vortexOklabToRgb Math_pow 0.5%js 1e104%js 0%js
  = [JsNumber.NaN; JsNumber.NaN; JsNumber.NaN].
Proof. vm_compute. reflexivity. Qed.

(* ================================================================== *)
(** * Further properties of the extractors *)

(** ** The border extractor: failures, and calling it again *)

(** The reads change nothing but the log. *)
Lemma read_border_world (input : Element) (w : World) :
  exists l, snd (read_border input w) = with_log w l.
Proof.
  unfold read_border, bind, getComputedStyle, throw, ret, record.
  cbn [fst snd].
  destruct (_ || _)%bool; [destruct (parentElement input)|];
    cbn [snd]; eexists; unfold with_log;
    cbn [document focused clock changed lag log]; reflexivity.
Qed.

(** The page after a call that found its target: the same document, no
    element focused, the clock 200 and the lag of the timer later. *)
Lemma border_extractor_world (selector : string) (w : World) (input : Element) :
  querySelector (document w) selector = Some input ->
  exists l,
    snd (vortexExtractFormFieldBorderColor selector w) =
      mkWorld (document w) None (clock w + 200 + Z.of_N (lag w))
        (match focused w with Some _ => clock w | None => changed w end)
        (lag w) l.
Proof.
  intros Hq. rewrite (border_extractor_steps _ _ _ Hq).
  destruct (read_border_world input (settled w input)) as [l ->].
  exists l. rewrite settled_eq. reflexivity.
Qed.

(** X1. A call that finds its target fails in one case only: the border
    width of the target reads ["0px"] or ["0"] and the target has no
    parent.  The failure is the [TypeError] of [getComputedStyle(null)],
    and it comes after the focus has been cleared and the delay spent. *)
Theorem border_extractor_fails_only_at_root
  (selector : string) (w : World) (input : Element) :
  querySelector (document w) selector = Some input ->
  (fst (vortexExtractFormFieldBorderColor selector w) = Throw TypeError
   <-> (borderWidth (computed (settled w input) input) = "0px"
        \/ borderWidth (computed (settled w input) input) = "0")
       /\ parentElement input = None)
  /\ (forall e, fst (vortexExtractFormFieldBorderColor selector w) = Throw e ->
        e = TypeError
        /\ focused (snd (vortexExtractFormFieldBorderColor selector w)) = None
        /\ clock (snd (vortexExtractFormFieldBorderColor selector w))
           = clock w + 200 + Z.of_N (lag w)).
Proof.
  intros Hq.
  destruct (border_extractor_world _ _ _ Hq) as [l Hw]. rewrite Hw.
  rewrite (border_extractor_outcome _ _ _ Hq).
  unfold border_outcome, border_bearer.
  generalize (computed (settled w input)). intros st.
  cbn [focused clock].
  destruct (String.eqb (borderWidth (st input)) "0px") eqn:Hpx;
    [|destruct (String.eqb (borderWidth (st input)) "0") eqn:H0]; cbn [orb].
  - apply String.eqb_eq in Hpx.
    destruct (parentElement input) as [parent|].
    + split; [split; [discriminate | intros [_ Hp]; discriminate Hp]|].
      intros e He. discriminate He.
    + split; [split; [auto | reflexivity]|].
      intros e He. injection He as <-. auto.
  - apply String.eqb_eq in H0.
    destruct (parentElement input) as [parent|].
    + split; [split; [discriminate | intros [_ Hp]; discriminate Hp]|].
      intros e He. discriminate He.
    + split; [split; [auto | reflexivity]|].
      intros e He. injection He as <-. auto.
  - apply String.eqb_neq in Hpx, H0.
    split; [split; [discriminate | intros [[Hz | Hz] _]; contradiction]|].
    intros e He. discriminate He.
Qed.

(** The root element of the test page, found by a selector of its own. *)
Definition root_page : Document :=
  mkDocument (fun _ => Some Page.html) Page.body (Page.sheet 200).

Lemma border_extractor_fails_only_at_root_witness :
  fst (vortexExtractFormFieldBorderColor "html"
         (mkWorld root_page None 5000 1000 0 [])) = Throw TypeError.
Proof.
  apply (border_extractor_fails_only_at_root "html"
           (mkWorld root_page None 5000 1000 0 []) Page.html eq_refl).
  split; [left|]; reflexivity.
Defined.

(** X2. On a page that shows its unfocused styles [rest] from 200 units
    after a change of focus on, a call returns the border of [rest]
    whatever element has the focus at the call, if any; and a second call
    made after the first returns what the first returned. *)
Theorem border_extractor_repeatable
  (selector : string) (w : World) (input : Element)
  (rest : Element -> CSSStyleDeclaration) :
  querySelector (document w) selector = Some input ->
  changed w <= clock w ->
  (forall el t, 200 <= t -> style (document w) el None t = rest el) ->
  fst (vortexExtractFormFieldBorderColor selector w) = border_outcome rest input
  /\ fst (vortexExtractFormFieldBorderColor selector
            (snd (vortexExtractFormFieldBorderColor selector w)))
     = fst (vortexExtractFormFieldBorderColor selector w).
Proof.
  intros Hq Hclock Hrest.
  assert (Hany : forall w0, document w0 = document w -> changed w0 <= clock w0 ->
            fst (vortexExtractFormFieldBorderColor selector w0)
            = border_outcome rest input).
  { intros w0 Hd Hc.
    assert (Hq0 : querySelector (document w0) selector = Some input)
      by (rewrite Hd; exact Hq).
    rewrite (border_extractor_outcome _ _ _ Hq0).
    apply border_outcome_ext. intros el. unfold computed.
    rewrite settled_eq. cbn [document focused clock changed option_map].
    rewrite Hd. apply Hrest.
    pose proof (N2Z.is_nonneg (lag w0)).
    destruct (focused w0); lia. }
  split; [apply Hany; [reflexivity | exact Hclock]|].
  rewrite (Hany w eq_refl Hclock).
  destruct (border_extractor_world _ _ _ Hq) as [l Hw].
  apply Hany; rewrite Hw; cbn [document clock changed]; [reflexivity|].
  pose proof (N2Z.is_nonneg (lag w)).
  destruct (focused w); lia.
Qed.

Lemma border_extractor_repeatable_witness :
  fst (vortexExtractFormFieldBorderColor "input[type=email]"
         (Page.world 200 (Some Page.input)))
  = border_outcome (fun el => Page.sheet 200 el None 200) Page.input
  /\ fst (vortexExtractFormFieldBorderColor "input[type=email]"
            (snd (vortexExtractFormFieldBorderColor "input[type=email]"
                    (Page.world 200 (Some Page.input)))))
     = fst (vortexExtractFormFieldBorderColor "input[type=email]"
              (Page.world 200 (Some Page.input))).
Proof.
  apply (border_extractor_repeatable "input[type=email]"
           (Page.world 200 (Some Page.input)) Page.input
           (fun el => Page.sheet 200 el None 200)).
  - reflexivity.
  - cbn [Page.world clock changed]. lia.
  - intros el t Ht. simpl. unfold Page.sheet.
    destruct (t <? 200) eqn:Hlt; [apply Z.ltb_lt in Hlt; lia | reflexivity].
Defined.

(** ** The container extractor: what it returns and what it reads *)

(** Every entry is the background, not transparent, of the element the
    walk visited at its level. *)
Lemma entries_members (w : World) (els : list Element) :
  forall i bg, In bg (entries w i els) ->
    transparent (color bg) = false
    /\ color bg = backgroundColor (computed w (element bg))
    /\ nth_error els (Z.to_nat (level bg - i)) = Some (element bg)
    /\ i <= level bg.
Proof.
  induction els as [|el rest IH]; intros i bg Hin; simpl in Hin.
  - contradiction.
  - assert (Hrest : In bg (entries w (i + 1) rest) ->
              transparent (color bg) = false
              /\ color bg = backgroundColor (computed w (element bg))
              /\ nth_error (el :: rest) (Z.to_nat (level bg - i)) = Some (element bg)
              /\ i <= level bg).
    { intros Hr. destruct (IH _ _ Hr) as [Ht [Hc [Hn Hl]]].
      split; [exact Ht|]. split; [exact Hc|]. split; [|lia].
      replace (Z.to_nat (level bg - i)) with (S (Z.to_nat (level bg - (i + 1))))
        by lia.
      exact Hn. }
    destruct (transparent (backgroundColor (computed w el))) eqn:Ht.
    + apply Hrest. exact Hin.
    + destruct Hin as [<- | Hin]; [|apply Hrest; exact Hin].
      cbn [color element level]. rewrite Z.sub_diag.
      split; [exact Ht|]. split; [reflexivity|]. split; [reflexivity|lia].
Qed.

(** The selection is nothing or one of the entries. *)
Lemma select_cases (backgrounds : list Background) :
  select backgrounds = (None, None)
  \/ exists bg, In bg backgrounds /\ select backgrounds = pick bg.
Proof.
  unfold select.
  assert (Hlast : forall sel,
            sel = (None, None) \/ (exists bg, In bg backgrounds /\ sel = pick bg) ->
            (if unset sel
             then match rev backgrounds with
                  | bg :: _ => (Some (color bg), Some (element bg))
                  | [] => sel
                  end
             else sel) = (None, None)
            \/ exists bg, In bg backgrounds /\
                 (if unset sel
                  then match rev backgrounds with
                       | bg :: _ => (Some (color bg), Some (element bg))
                       | [] => sel
                       end
                  else sel) = pick bg).
  { intros sel Hsel. destruct (unset sel); [|exact Hsel].
    destruct (rev backgrounds) as [|bg rest] eqn:Hrev; [exact Hsel|].
    right. exists bg. split; [|reflexivity].
    apply in_rev. rewrite Hrev. left. reflexivity. }
  apply Hlast.
  destruct (first_container_cases backgrounds) as [H1 | [bg [Hin H1]]]; rewrite H1.
  - cbn [unset fst].
    destruct (last_solid_cases (rev backgrounds) (None, None))
      as [-> | [bg [Hin ->]]]; [left; reflexivity|].
    right. exists bg. split; [apply in_rev; exact Hin | reflexivity].
  - destruct (unset (pick bg)).
    + destruct (last_solid_cases (rev backgrounds) (pick bg))
        as [-> | [bg' [Hin' ->]]].
      * right. exists bg. split; [exact Hin | reflexivity].
      * right. exists bg'. split; [apply in_rev; exact Hin' | reflexivity].
    + right. exists bg. split; [exact Hin | reflexivity].
Qed.

Lemma container_not_found (selector : string) (w : World) :
  querySelector (document w) selector = None ->
  vortexExtractFormContainerBackground selector w =
    (Throw (Error ("Element not found: " ++ selector)), w).
Proof.
  intros Hq.
  unfold vortexExtractFormContainerBackground, bind, document_querySelector, throw.
  rewrite Hq. reflexivity.
Qed.

(** X3. Whatever the extractor returns is the background colour,
    converted, of the target or of one of its first 14 ancestors, with
    the descriptor of that same element; that background is neither
    ["rgba(0, 0, 0, 0)"] nor ["transparent"] nor empty. *)
Theorem container_result_is_recorded
  (selector : string) (w : World) (res : ContainerResult) :
  fst (vortexExtractFormContainerBackground selector w) = Return res ->
  exists input bg,
    querySelector (document w) selector = Some input
    /\ res = mkContainerResult (vortexRgbToHex (color bg)) (descriptor (element bg))
    /\ 0 <= level bg < 15
    /\ nth_error (ancestors 15 (Some input)) (Z.to_nat (level bg)) = Some (element bg)
    /\ color bg = backgroundColor (computed w (element bg))
    /\ color bg <> "rgba(0, 0, 0, 0)" /\ color bg <> "transparent" /\ color bg <> "".
Proof.
  intros Hres.
  destruct (querySelector (document w) selector) as [input|] eqn:Hq.
  2:{ rewrite (container_not_found selector w Hq) in Hres. discriminate. }
  rewrite (container_extractor_outcome _ _ _ Hq) in Hres.
  destruct (select_cases (recorded w input)) as [Hsel | [bg [Hin Hsel]]];
    rewrite Hsel in Hres; [discriminate|].
  unfold container_outcome in Hres.
  destruct (unset (pick bg)) eqn:Hu; [discriminate|].
  injection Hres as <-.
  exists input, bg.
  destruct (entries_members w _ 0 bg Hin) as [Ht [Hc [Hn _]]].
  rewrite Z.sub_0_r in Hn.
  unfold transparent in Ht. apply orb_false_iff in Ht. destruct Ht as [Ht1 Ht2].
  apply String.eqb_neq in Ht1, Ht2, Hu.
  repeat split; try assumption; try apply (recorded_levels w input bg Hin).
Qed.

Lemma container_result_is_recorded_witness :
  exists input bg,
    querySelector (document (Page.world 200 None)) "input.inner" = Some input
    /\ mkContainerResult "#FFFFFF" (Str "modal")
       = mkContainerResult (vortexRgbToHex (color bg)) (descriptor (element bg))
    /\ 0 <= level bg < 15
    /\ nth_error (ancestors 15 (Some input)) (Z.to_nat (level bg)) = Some (element bg)
    /\ color bg = backgroundColor (computed (Page.world 200 None) (element bg))
    /\ color bg <> "rgba(0, 0, 0, 0)" /\ color bg <> "transparent" /\ color bg <> "".
Proof.
  apply (container_result_is_recorded "input.inner" (Page.world 200 None)
           (mkContainerResult "#FFFFFF" (Str "modal"))).
  vm_compute. reflexivity.
Defined.

Lemma entries_ext (w w' : World) (els : list Element) :
  (forall el, In el els ->
     backgroundColor (computed w el) = backgroundColor (computed w' el)) ->
  forall i, entries w i els = entries w' i els.
Proof.
  induction els as [|el rest IH]; intros Hsame i; simpl.
  - reflexivity.
  - rewrite (Hsame el (or_introl eq_refl)).
    rewrite (IH (fun x Hx => Hsame x (or_intror Hx))). reflexivity.
Qed.

(** The outcome is a function of the backgrounds of the elements visited. *)
Lemma container_outcome_ext (selector : string) (w w' : World) (input : Element) :
  querySelector (document w) selector = Some input ->
  querySelector (document w') selector = Some input ->
  (forall el, In el (ancestors 15 (Some input)) ->
     backgroundColor (computed w el) = backgroundColor (computed w' el)) ->
  fst (vortexExtractFormContainerBackground selector w)
  = fst (vortexExtractFormContainerBackground selector w').
Proof.
  intros Hq Hq' Hsame.
  rewrite (container_extractor_outcome _ _ _ Hq),
          (container_extractor_outcome _ _ _ Hq').
  unfold recorded. rewrite (entries_ext w w' _ Hsame). reflexivity.
Qed.

(** X4. The extractor depends on the page through the background colours
    of the target and of its first 14 ancestors only: on two pages where
    the selector finds the same element and these 15 backgrounds at most
    are the same, it returns the same, whatever the borders, the focus,
    the clock and the elements further up are. *)
Theorem container_reads_fifteen_backgrounds
  (selector : string) (w w' : World) (input : Element) :
  querySelector (document w) selector = Some input ->
  querySelector (document w') selector = Some input ->
  (forall el, In el (ancestors 15 (Some input)) ->
     backgroundColor (computed w el) = backgroundColor (computed w' el)) ->
  (List.length (ancestors 15 (Some input)) <= 15)%nat
  /\ fst (vortexExtractFormContainerBackground selector w)
     = fst (vortexExtractFormContainerBackground selector w').
Proof.
  intros Hq Hq' Hsame.
  split; [apply ancestors_length | exact (container_outcome_ext _ _ _ _ Hq Hq' Hsame)].
Qed.

Lemma container_reads_fifteen_backgrounds_witness :
  (List.length (ancestors 15 (Some Page.input)) <= 15)%nat
  /\ fst (vortexExtractFormContainerBackground "input[type=email]"
            (Page.world 200 None))
     = fst (vortexExtractFormContainerBackground "input[type=email]"
              (Page.world 1000 (Some Page.input))).
Proof.
  apply (container_reads_fifteen_backgrounds "input[type=email]"
           (Page.world 200 None) (Page.world 1000 (Some Page.input)) Page.input).
  - reflexivity.
  - reflexivity.
  - intros el _. unfold computed, Page.world, Page.page.
    cbn [document style focused clock changed option_map]. unfold Page.sheet.
    destruct (uid el) as [|[|[|[|[|[|[|n]]]]]]]; reflexivity.
Defined.

(** X5. The extractor only observes: the document is as before, and a
    second call made after the first returns, or throws, what the first
    did. *)
Theorem container_extractor_repeatable (selector : string) (w : World) :
  fst (vortexExtractFormContainerBackground selector
         (snd (vortexExtractFormContainerBackground selector w)))
  = fst (vortexExtractFormContainerBackground selector w)
  /\ document (snd (vortexExtractFormContainerBackground selector w)) = document w.
Proof.
  destruct (querySelector (document w) selector) as [input|] eqn:Hq.
  - rewrite (container_extractor_steps _ _ _ Hq). cbn [fst snd].
    split; [|reflexivity].
    rewrite (container_extractor_outcome selector (with_log w _) input Hq).
    unfold recorded. rewrite entries_with_log. reflexivity.
  - rewrite (container_not_found _ _ Hq). cbn [snd].
    rewrite (container_not_found _ _ Hq). split; reflexivity.
Qed.

(** X6. The two extractors one after the other, as the test suite calls
    them.  On a page whose unfocused styles no longer change from 200
    units after a change of focus on, the container extractor called
    after the border extractor returns what it returns on that page at
    rest, that is with no element focused for 200 units or more:
    whatever had the focus before the first call leaves no trace. *)
Theorem container_after_border
  (borderSelector selector : string) (w w0 : World) (input target : Element) :
  querySelector (document w) borderSelector = Some input ->
  querySelector (document w) selector = Some target ->
  changed w <= clock w ->
  (forall el t t', 200 <= t -> 200 <= t' ->
     style (document w) el None t = style (document w) el None t') ->
  document w0 = document w -> focused w0 = None -> 200 <= clock w0 - changed w0 ->
  fst (vortexExtractFormContainerBackground selector
         (snd (vortexExtractFormFieldBorderColor borderSelector w)))
  = fst (vortexExtractFormContainerBackground selector w0).
Proof.
  intros Hb Hq Hclock Hrest Hd Hf Helapsed.
  rewrite (border_extractor_steps _ _ _ Hb).
  destruct (read_border_world input (settled w input)) as [l Hw].
  rewrite Hw. rewrite settled_eq.
  apply (container_outcome_ext selector _ w0 target).
  - exact Hq.
  - rewrite Hd. exact Hq.
  - intros el _. unfold computed. rewrite Hd, Hf.
    cbn [with_log document focused clock changed option_map].
    f_equal. apply Hrest; [|exact Helapsed].
    pose proof (N2Z.is_nonneg (lag w)). destruct (focused w); lia.
Qed.

Lemma container_after_border_witness :
  fst (vortexExtractFormContainerBackground "input[type=email]"
         (snd (vortexExtractFormFieldBorderColor "input[type=email]"
                 (Page.world 200 (Some Page.input)))))
  = fst (vortexExtractFormContainerBackground "input[type=email]"
           (Page.world 200 None)).
Proof.
  apply (container_after_border "input[type=email]" "input[type=email]"
           (Page.world 200 (Some Page.input)) (Page.world 200 None)
           Page.input Page.input).
  - reflexivity.
  - reflexivity.
  - cbn [Page.world clock changed]. lia.
  - intros el t t' Ht Ht'. cbn [Page.world document Page.page style].
    unfold Page.sheet.
    destruct (t <? 200) eqn:Hlt; [apply Z.ltb_lt in Hlt; lia|].
    destruct (t' <? 200) eqn:Hlt'; [apply Z.ltb_lt in Hlt'; lia|].
    reflexivity.
  - reflexivity.
  - reflexivity.
  - cbn [Page.world clock changed]. lia.
Defined.

(* ================================================================== *)
(** * Further properties of the colour converter *)

From Stdlib Require DecimalString.

(** ** Colours as style sheets write them *)

(** Every code unit of [s] passes [p]. *)
Fixpoint all (p : ascii -> bool) (s : string) : bool :=
  match s with
  | EmptyString => true
  | String c s' => p c && all p s'
  end.

(** A string of one code unit or more, all of which pass [p]. *)
Definition run_of (p : ascii -> bool) (s : string) : bool :=
  negb (String.eqb s "") && all p s.

(** [s] does not go on with a code unit that passes [p]. *)
Definition stops (p : ascii -> bool) (s : string) : Prop :=
  match s with
  | String c _ => p c = false
  | EmptyString => True
  end.

Lemma skip_all (p : ascii -> bool) (d rest : string) :
  all p d = true -> stops p rest -> skip p (d ++ rest) = rest.
Proof.
  intros Hd Hrest. induction d as [|c d IH]; cbn [append skip].
  - destruct rest as [|c rest]; [reflexivity|]. cbn [skip].
    cbn [stops] in Hrest. rewrite Hrest. reflexivity.
  - cbn [all] in Hd. apply andb_true_iff in Hd. destruct Hd as [Hc Hd].
    rewrite Hc. apply IH. exact Hd.
Qed.

Lemma run_star_all (p : ascii -> bool) (d rest : string) (caps : captures) :
  all p d = true -> stops p rest ->
  run (Star p) (d ++ rest) caps = Some (rest, caps).
Proof. intros Hd Hrest. cbn [run]. rewrite (skip_all p d rest Hd Hrest). reflexivity. Qed.

Lemma run_of_cons (p : ascii -> bool) (d : string) :
  run_of p d = true -> exists c d', d = String c d' /\ p c = true /\ all p d' = true.
Proof.
  unfold run_of. destruct d as [|c d]; [discriminate|].
  cbn [String.eqb negb andb all]. intros H. apply andb_true_iff in H.
  exists c, d. split; [reflexivity | exact H].
Qed.

Lemma run_group_plus (i : nat) (p : ascii -> bool) (d rest : string) (caps : captures) :
  run_of p d = true -> stops p rest ->
  run (Group i (Plus p)) (d ++ rest) caps = Some (rest, (i, d) :: caps).
Proof.
  intros Hd Hrest. destruct (run_of_cons p d Hd) as [c [d' [-> [Hc Hd']]]].
  cbn [run append]. rewrite Hc, (skip_all p d' rest Hd' Hrest).
  change (String c (d' ++ rest)) with (String c d' ++ rest).
  rewrite consumed_app. reflexivity.
Qed.

Lemma run_seq (r1 r2 : regex) (s s1 : string) (caps caps1 : captures) :
  run r1 s caps = Some (s1, caps1) ->
  run (Seq r1 r2) s caps = run r2 s1 caps1.
Proof. intros H. cbn [run]. rewrite H. reflexivity. Qed.

Lemma run_chr (c : ascii) (s : string) (caps : captures) :
  run (Chr c) (String c s) caps = Some (s, caps).
Proof. cbn [run]. rewrite Ascii.eqb_refl. reflexivity. Qed.

(** [rgb(r, g, b)] and [rgba(r, g, b, a)] as style sheets and rendering
    engines write them, [sep] being the white space put after a comma. *)
Definition rgb_text (sep r g b : string) : string :=
  "rgb(" ++ r ++ "," ++ sep ++ g ++ "," ++ sep ++ b ++ ")".

Definition rgba_text (sep r g b a : string) : string :=
  "rgba(" ++ r ++ "," ++ sep ++ g ++ "," ++ sep ++ b ++ "," ++ sep ++ a ++ ")".

Lemma digit_stops_space (d rest : string) :
  run_of digit d = true -> stops space (d ++ rest).
Proof.
  intros Hd. destruct (run_of_cons _ _ Hd) as [c [d' [-> [Hc _]]]].
  cbn [append stops]. revert Hc. unfold digit, space.
  destruct c as [b0 b1 b2 b3 b4 b5 b6 b7].
  destruct b0, b1, b2, b3, b4, b5, b6, b7; vm_compute; congruence.
Qed.

Lemma digit_or_dot_stops_space (d rest : string) :
  run_of digit_or_dot d = true -> stops space (d ++ rest).
Proof.
  intros Hd. destruct (run_of_cons _ _ Hd) as [c [d' [-> [Hc _]]]].
  cbn [append stops]. revert Hc. unfold digit_or_dot, space.
  destruct c as [b0 b1 b2 b3 b4 b5 b6 b7].
  destruct b0, b1, b2, b3, b4, b5, b6, b7; vm_compute; congruence.
Qed.

Lemma match_rgb_text (sep r g b post : string) :
  all space sep = true ->
  run_of digit r = true -> run_of digit g = true -> run_of digit b = true ->
  match_here rgb_pattern (rgb_text sep r g b ++ post) =
    Some [(0%nat, rgb_text sep r g b); (3%nat, b); (2%nat, g); (1%nat, r)].
Proof.
  intros Hsep Hr Hg Hb.
  rewrite match_here_run by exact rgb_pattern_one_pass.
  unfold rgb_text, rgb_pattern. cbn [seq].
  set (whole := "rgb(" ++ r ++ "," ++ sep ++ g ++ "," ++ sep ++ b ++ ")").
  assert (Hrun : run
    (Seq (Chr "r") (Seq (Chr "g") (Seq (Chr "b") (Seq (Opt (Chr "a")) (Seq (Chr "(")
      (Seq (Group 1 (Plus digit)) (Seq (Chr ",") (Seq (Star space)
      (Seq (Group 2 (Plus digit)) (Seq (Chr ",") (Seq (Star space)
      (Seq (Group 3 (Plus digit))
      (Seq (Opt (Seq (Chr ",") (Seq (Star space) (Group 4 (Plus digit_or_dot)))))
           (Chr ")")))))))))))))) (whole ++ post) []
    = Some (post, [(3%nat, b); (2%nat, g); (1%nat, r)])).
  { unfold whole. rewrite !append_assoc. cbn [append].
    do 3 (erewrite run_seq; [|apply run_chr]).
    erewrite run_seq; [|reflexivity].
    erewrite run_seq; [|apply run_chr].
    erewrite run_seq; [|apply run_group_plus; [exact Hr | reflexivity]].
    erewrite run_seq; [|apply run_chr].
    erewrite run_seq;
      [|apply run_star_all; [exact Hsep | apply digit_stops_space; exact Hg]].
    erewrite run_seq; [|apply run_group_plus; [exact Hg | reflexivity]].
    erewrite run_seq; [|apply run_chr].
    erewrite run_seq;
      [|apply run_star_all; [exact Hsep | apply digit_stops_space; exact Hb]].
    erewrite run_seq; [|apply run_group_plus; [exact Hb | reflexivity]].
    erewrite run_seq; [|reflexivity].
    apply run_chr. }
  cbn [run]. cbn [run] in Hrun. rewrite Hrun. cbn [option_map snd].
  rewrite consumed_app. reflexivity.
Qed.

Lemma run_opt_some (r : regex) (s : string) (caps : captures)
  (x : string * captures) :
  run r s caps = Some x -> run (Opt r) s caps = Some x.
Proof. intros H. cbn [run]. rewrite H. reflexivity. Qed.

Lemma match_rgba_text (sep r g b a post : string) :
  all space sep = true ->
  run_of digit r = true -> run_of digit g = true -> run_of digit b = true ->
  run_of digit_or_dot a = true ->
  match_here rgb_pattern (rgba_text sep r g b a ++ post) =
    Some [(0%nat, rgba_text sep r g b a); (4%nat, a);
          (3%nat, b); (2%nat, g); (1%nat, r)].
Proof.
  intros Hsep Hr Hg Hb Ha.
  rewrite match_here_run by exact rgb_pattern_one_pass.
  unfold rgba_text, rgb_pattern. cbn [seq].
  set (whole := "rgba(" ++ r ++ "," ++ sep ++ g ++ "," ++ sep ++ b ++ ","
                 ++ sep ++ a ++ ")").
  assert (Hrun : run
    (Seq (Chr "r") (Seq (Chr "g") (Seq (Chr "b") (Seq (Opt (Chr "a")) (Seq (Chr "(")
      (Seq (Group 1 (Plus digit)) (Seq (Chr ",") (Seq (Star space)
      (Seq (Group 2 (Plus digit)) (Seq (Chr ",") (Seq (Star space)
      (Seq (Group 3 (Plus digit))
      (Seq (Opt (Seq (Chr ",") (Seq (Star space) (Group 4 (Plus digit_or_dot)))))
           (Chr ")")))))))))))))) (whole ++ post) []
    = Some (post, [(4%nat, a); (3%nat, b); (2%nat, g); (1%nat, r)])).
  { unfold whole. rewrite !append_assoc. cbn [append].
    do 3 (erewrite run_seq; [|apply run_chr]).
    erewrite run_seq; [|reflexivity].
    erewrite run_seq; [|apply run_chr].
    erewrite run_seq; [|apply run_group_plus; [exact Hr | reflexivity]].
    erewrite run_seq; [|apply run_chr].
    erewrite run_seq;
      [|apply run_star_all; [exact Hsep | apply digit_stops_space; exact Hg]].
    erewrite run_seq; [|apply run_group_plus; [exact Hg | reflexivity]].
    erewrite run_seq; [|apply run_chr].
    erewrite run_seq;
      [|apply run_star_all; [exact Hsep | apply digit_stops_space; exact Hb]].
    erewrite run_seq; [|apply run_group_plus; [exact Hb | reflexivity]].
    erewrite run_seq.
    2:{ apply run_opt_some.
        erewrite run_seq; [|apply run_chr].
        erewrite run_seq;
          [|apply run_star_all;
            [exact Hsep | apply digit_or_dot_stops_space; exact Ha]].
        apply run_group_plus; [exact Ha | reflexivity]. }
    apply run_chr. }
  cbn [run]. cbn [run] in Hrun. rewrite Hrun. cbn [option_map snd].
  rewrite consumed_app. reflexivity.
Qed.

(** ** The alpha the container extractor reads *)

Lemma alpha_pattern_one_pass : one_pass (Group 0 alpha_pattern) any = true.
Proof. vm_compute. reflexivity. Qed.

Lemma mem_app (c : ascii) (s t : string) :
  JsString.mem c (s ++ t) = (JsString.mem c s || JsString.mem c t)%bool.
Proof.
  induction s as [|c' s IH]; cbn [append JsString.mem]; [reflexivity|].
  rewrite IH, orb_assoc. reflexivity.
Qed.

Lemma all_without (p : ascii -> bool) (c : ascii) (s : string) :
  p c = false -> all p s = true -> JsString.mem c s = false.
Proof.
  intros Hc. induction s as [|c' s IH]; cbn [all JsString.mem]; [reflexivity|].
  intros H. apply andb_true_iff in H. destruct H as [Hc' Hs].
  rewrite (IH Hs), orb_false_r.
  destruct (Ascii.eqb c c') eqn:Heq; [|reflexivity].
  apply Ascii.eqb_eq in Heq. congruence.
Qed.

Lemma run_of_all (p : ascii -> bool) (s : string) :
  run_of p s = true -> all p s = true.
Proof. unfold run_of. intros H. apply andb_true_iff in H. exact (proj2 H). Qed.

Lemma all_impl (p q : ascii -> bool) (s : string) :
  (forall c, p c = true -> q c = true) -> all p s = true -> all q s = true.
Proof.
  intros Hpq. induction s as [|c s IH]; cbn [all]; [reflexivity|].
  intros H. apply andb_true_iff in H. destruct H as [Hc Hs].
  rewrite (Hpq c Hc), (IH Hs). reflexivity.
Qed.

Lemma digits_are_digit_or_dot (s : string) :
  run_of digit s = true -> run_of digit_or_dot s = true.
Proof.
  unfold run_of. intros H. apply andb_true_iff in H. destruct H as [Hne Hs].
  rewrite Hne. cbn [andb]. apply (all_impl digit); [|exact Hs].
  intros c Hc. unfold digit_or_dot. unfold digit in Hc. rewrite Hc. reflexivity.
Qed.

Lemma alpha_not_here (c : ascii) (s : string) :
  Ascii.eqb "," c = false -> match_here alpha_pattern (String c s) = None.
Proof.
  intros Hc. rewrite match_here_run by exact alpha_pattern_one_pass.
  unfold alpha_pattern. cbn [seq run]. rewrite Hc. reflexivity.
Qed.

Lemma alpha_exec_skip (pre s : string) :
  JsString.mem "," pre = false ->
  exec alpha_pattern (pre ++ s) = exec alpha_pattern s.
Proof.
  induction pre as [|c pre IH]; cbn [append JsString.mem]; [reflexivity|].
  intros H. apply orb_false_iff in H. destruct H as [Hc Hpre].
  cbn [exec]. rewrite (alpha_not_here c _ Hc). apply IH. exact Hpre.
Qed.

Lemma alpha_not_at_channel (sep d rest : string) :
  all space sep = true -> run_of digit d = true ->
  match_here alpha_pattern ("," ++ sep ++ d ++ "," ++ rest) = None.
Proof.
  intros Hsep Hd. rewrite match_here_run by exact alpha_pattern_one_pass.
  unfold alpha_pattern. cbn [seq append].
  assert (Hrun : run
    (Seq (Chr ",") (Seq (Star space) (Seq (Group 1 (Plus digit_or_dot)) (Chr ")"))))
    (String "," (sep ++ d ++ String "," rest)) [] = None).
  { erewrite run_seq; [|apply run_chr].
    erewrite run_seq;
      [|apply run_star_all; [exact Hsep | apply digit_stops_space; exact Hd]].
    erewrite run_seq;
      [|apply run_group_plus;
        [apply digits_are_digit_or_dot; exact Hd | reflexivity]].
    reflexivity. }
  cbn [run]. cbn [run] in Hrun. rewrite Hrun. reflexivity.
Qed.

Lemma alpha_here (sep a post : string) :
  all space sep = true -> run_of digit_or_dot a = true ->
  match_here alpha_pattern ("," ++ sep ++ a ++ ")" ++ post) =
    Some [(0%nat, "," ++ sep ++ a ++ ")"); (1%nat, a)].
Proof.
  intros Hsep Ha. rewrite match_here_run by exact alpha_pattern_one_pass.
  unfold alpha_pattern. cbn [seq append].
  assert (Hrun : run
    (Seq (Chr ",") (Seq (Star space) (Seq (Group 1 (Plus digit_or_dot)) (Chr ")"))))
    (String "," (sep ++ a ++ String ")" post)) [] = Some (post, [(1%nat, a)])).
  { erewrite run_seq; [|apply run_chr].
    erewrite run_seq;
      [|apply run_star_all;
        [exact Hsep | apply digit_or_dot_stops_space; exact Ha]].
    erewrite run_seq; [|apply run_group_plus; [exact Ha | reflexivity]].
    apply run_chr. }
  cbn [run]. cbn [run] in Hrun. rewrite Hrun. cbn [option_map snd].
  replace (String "," (sep ++ a ++ String ")" post))
    with ((String "," (sep ++ a ++ ")")) ++ post).
  - rewrite consumed_app. reflexivity.
  - cbn [append]. rewrite !append_assoc. reflexivity.
Qed.

Lemma alpha_of_rgba_text (sep r g b a post : string) :
  all space sep = true ->
  run_of digit r = true -> run_of digit g = true -> run_of digit b = true ->
  run_of digit_or_dot a = true ->
  String_match (rgba_text sep r g b a ++ post) alpha_pattern =
    Some [(0%nat, "," ++ sep ++ a ++ ")"); (1%nat, a)].
Proof.
  intros Hsep Hr Hg Hb Ha.
  assert (Hspace : JsString.mem "," sep = false)
    by (apply (all_without space); [reflexivity | exact Hsep]).
  assert (Hdigits : forall d, run_of digit d = true -> JsString.mem "," d = false).
  { intros d Hd. apply (all_without digit); [reflexivity|].
    apply run_of_all. exact Hd. }
  unfold String_match, rgba_text.
  replace (("rgba(" ++ r ++ "," ++ sep ++ g ++ "," ++ sep ++ b ++ "," ++ sep ++ a ++ ")") ++ post)
    with (("rgba(" ++ r) ++ String "," ((sep ++ g) ++ String "," ((sep ++ b) ++
            ("," ++ sep ++ a ++ ")" ++ post))))
    by (repeat (cbn [append]; rewrite ?append_assoc); reflexivity).
  rewrite alpha_exec_skip by (rewrite mem_app, (Hdigits r Hr); reflexivity).
  cbn [exec].
  replace (String "," ((sep ++ g) ++ String "," ((sep ++ b) ++ "," ++ sep ++ a ++ ")" ++ post)))
    with ("," ++ sep ++ g ++ "," ++ ((sep ++ b) ++ "," ++ sep ++ a ++ ")" ++ post))
    by (repeat (cbn [append]; rewrite ?append_assoc); reflexivity).
  rewrite (alpha_not_at_channel sep g _ Hsep Hg).
  cbn [append].
  replace (sep ++ g ++ String "," ((sep ++ b) ++ String "," (sep ++ a ++ String ")" post)))
    with ((sep ++ g) ++ String "," ((sep ++ b) ++ String "," (sep ++ a ++ String ")" post)))
    by (repeat (cbn [append]; rewrite ?append_assoc); reflexivity).
  rewrite alpha_exec_skip by (rewrite mem_app, Hspace, (Hdigits g Hg); reflexivity).
  cbn [exec].
  replace (String "," ((sep ++ b) ++ String "," (sep ++ a ++ String ")" post)))
    with ("," ++ sep ++ b ++ "," ++ (sep ++ a ++ ")" ++ post))
    by (repeat (cbn [append]; rewrite ?append_assoc); reflexivity).
  rewrite (alpha_not_at_channel sep b _ Hsep Hb).
  cbn [append].
  replace (sep ++ b ++ String "," (sep ++ a ++ String ")" post))
    with ((sep ++ b) ++ ("," ++ sep ++ a ++ ")" ++ post))
    by (repeat (cbn [append]; rewrite ?append_assoc); reflexivity).
  rewrite alpha_exec_skip by (rewrite mem_app, Hspace, (Hdigits b Hb); reflexivity).
  apply exec_here. apply alpha_here; assumption.
Qed.

Lemma prefix_rgba_has_a (s : string) :
  prefix "rgba" s = true -> JsString.mem "a" s = true.
Proof.
  destruct s as [|c0 [|c1 [|c2 [|c3 s]]]]; cbn [prefix];
    repeat match goal with
           | |- context [ascii_dec ?x ?y] => destruct (ascii_dec x y)
           end; try discriminate.
  subst. intros _. reflexivity.
Qed.

Lemma includes_rgba_has_a (s : string) :
  JsString.mem "a" s = false -> JsString.includes s "rgba" = false.
Proof.
  induction s as [|c s IH]; intros Hs.
  - reflexivity.
  - cbn [JsString.includes].
    destruct (prefix "rgba" (String c s)) eqn:Hp.
    + apply prefix_rgba_has_a in Hp. congruence.
    + cbn [orb]. apply IH. cbn [JsString.mem] in Hs.
      apply orb_false_iff in Hs. exact (proj2 Hs).
Qed.

Lemma solid_rgb_text (sep r g b : string) :
  all space sep = true ->
  run_of digit r = true -> run_of digit g = true -> run_of digit b = true ->
  solid (rgb_text sep r g b) = true.
Proof.
  intros Hsep Hr Hg Hb. unfold solid.
  rewrite includes_rgba_has_a; [reflexivity|].
  assert (Hspace : JsString.mem "a" sep = false)
    by (apply (all_without space); [reflexivity | exact Hsep]).
  assert (Hdigits : forall d, run_of digit d = true -> JsString.mem "a" d = false).
  { intros d Hd. apply (all_without digit); [reflexivity|].
    apply run_of_all. exact Hd. }
  unfold rgb_text. rewrite !mem_app, Hspace, (Hdigits r Hr), (Hdigits g Hg),
    (Hdigits b Hb). reflexivity.
Qed.

Lemma solid_rgba_text (sep r g b a : string) :
  all space sep = true ->
  run_of digit r = true -> run_of digit g = true -> run_of digit b = true ->
  run_of digit_or_dot a = true ->
  solid (rgba_text sep r g b a) = (JsNumber.parseFloat a === 1)%js.
Proof.
  intros Hsep Hr Hg Hb Ha. unfold solid.
  assert (Hinc : JsString.includes (rgba_text sep r g b a) "rgba" = true)
    by reflexivity.
  rewrite Hinc. cbn [negb].
  pose proof (alpha_of_rgba_text sep r g b a "" Hsep Hr Hg Hb Ha) as Hm.
  replace (rgba_text sep r g b a ++ "") with (rgba_text sep r g b a) in Hm.
  - rewrite Hm. reflexivity.
  - clear. induction (rgba_text sep r g b a) as [|c s IH]; cbn [append];
      [reflexivity | rewrite <- IH; reflexivity].
Qed.

Lemma append_empty (s : string) : s ++ "" = s.
Proof. induction s as [|c s IH]; cbn [append]; [|rewrite IH]; reflexivity. Qed.

Lemma run_of_truthy (p : ascii -> bool) (a : string) :
  run_of p a = true -> truthy (Some a) = true.
Proof.
  unfold run_of, truthy. intros H. apply andb_true_iff in H. exact (proj1 H).
Qed.

(** The hex code before an alpha is appended. *)
Definition opaque_hex (r g b : string) : string :=
  "#" ++ toHex (JsNumber.parseInt r) ++ toHex (JsNumber.parseInt g)
      ++ toHex (JsNumber.parseInt b).

(** The digits appended for the alpha [a]. *)
Definition alpha_hex (a : string) : string :=
  JsString.padStart 2 "0"
    (JsNumber.toString16
       (JsNumber.Math_round (JsNumber.parseFloat a * 255)%js)).

Lemma converter_rgb_text (sep r g b : string) :
  all space sep = true ->
  run_of digit r = true -> run_of digit g = true -> run_of digit b = true ->
  vortexRgbToHex (rgb_text sep r g b) = JsString.toUpperCase (opaque_hex r g b).
Proof.
  intros Hsep Hr Hg Hb. unfold vortexRgbToHex, String_match.
  pose proof (match_rgb_text sep r g b "" Hsep Hr Hg Hb) as Hm.
  rewrite append_empty in Hm. rewrite (exec_here _ _ _ Hm). reflexivity.
Qed.

Lemma converter_rgba_text (sep r g b a : string) :
  all space sep = true ->
  run_of digit r = true -> run_of digit g = true -> run_of digit b = true ->
  run_of digit_or_dot a = true ->
  vortexRgbToHex (rgba_text sep r g b a) =
    JsString.toUpperCase (opaque_hex r g b)
    ++ (if (JsNumber.parseFloat a === 1)%js then ""
        else JsString.toUpperCase (alpha_hex a)).
Proof.
  intros Hsep Hr Hg Hb Ha. unfold vortexRgbToHex, String_match.
  pose proof (match_rgba_text sep r g b a "" Hsep Hr Hg Hb Ha) as Hm.
  rewrite append_empty in Hm. rewrite (exec_here _ _ _ Hm).
  cbn [group Nat.eqb ToString]. rewrite (run_of_truthy _ _ Ha).
  fold (opaque_hex r g b). fold (alpha_hex a).
  destruct (JsNumber.parseFloat a === 1)%js; cbn [negb].
  - rewrite append_empty. reflexivity.
  - apply toUpperCase_app.
Qed.

Lemma length_repeat (c : ascii) (n : nat) : String.length (JsString.repeat c n) = n.
Proof. induction n as [|n IH]; cbn; [|rewrite IH]; reflexivity. Qed.

Lemma length_padStart (n : nat) (c : ascii) (s : string) :
  (n <= String.length (JsString.padStart n c s))%nat.
Proof.
  unfold JsString.padStart. rewrite length_app, length_repeat. lia.
Qed.

Lemma length_toUpperCase (s : string) :
  String.length (JsString.toUpperCase s) = String.length s.
Proof.
  unfold JsString.toUpperCase.
  induction s as [|c s IH]; cbn; [|rewrite IH]; reflexivity.
Qed.

(** X7. The container extractor and the converter read the alpha of a
    colour each with a pattern of its own, and agree: a colour written
    [rgb(r, g, b)] is solid; one written [rgba(r, g, b, a)] is solid when
    [a] reads as 1, which is exactly when the converter appends no alpha
    digits and returns what it returns for [rgb(r, g, b)]. *)
Theorem solid_when_converter_drops_alpha (sep r g b a : string) :
  all space sep = true ->
  run_of digit r = true -> run_of digit g = true -> run_of digit b = true ->
  run_of digit_or_dot a = true ->
  solid (rgb_text sep r g b) = true
  /\ solid (rgba_text sep r g b a) = (JsNumber.parseFloat a === 1)%js
  /\ (solid (rgba_text sep r g b a) = true
      <-> vortexRgbToHex (rgba_text sep r g b a) = vortexRgbToHex (rgb_text sep r g b)).
Proof.
  intros Hsep Hr Hg Hb Ha.
  split; [apply solid_rgb_text; assumption|].
  split; [apply solid_rgba_text; assumption|].
  rewrite (solid_rgba_text sep r g b a), (converter_rgba_text sep r g b a),
    (converter_rgb_text sep r g b) by assumption.
  destruct (JsNumber.parseFloat a === 1)%js.
  - rewrite append_empty. tauto.
  - split; [discriminate|]. intros Heq. apply (f_equal String.length) in Heq.
    rewrite length_app, !length_toUpperCase in Heq.
    pose proof (length_padStart 2 "0"
      (JsNumber.toString16 (JsNumber.Math_round (JsNumber.parseFloat a * 255)%js))).
    unfold alpha_hex in Heq. lia.
Qed.

Lemma solid_when_converter_drops_alpha_witness :
  solid "rgb(255, 255, 255)" = true
  /\ solid "rgba(255, 255, 255, 1.0)" = (JsNumber.parseFloat "1.0" === 1)%js
  /\ (solid "rgba(255, 255, 255, 1.0)" = true
      <-> vortexRgbToHex "rgba(255, 255, 255, 1.0)" = vortexRgbToHex "rgb(255, 255, 255)").
Proof.
  apply (solid_when_converter_drops_alpha " " "255" "255" "255" "1.0");
    reflexivity.
Defined.

(** X8. An alpha that the pattern accepts but that does not read as a
    number, as ["."] or [".."], is not rejected: the result is the code
    of the opaque colour followed by ["NAN"]. *)
Theorem alpha_not_a_number (sep r g b a : string) :
  all space sep = true ->
  run_of digit r = true -> run_of digit g = true -> run_of digit b = true ->
  run_of digit_or_dot a = true ->
  JsNumber.parseFloat a = JsNumber.NaN ->
  vortexRgbToHex (rgba_text sep r g b a) = vortexRgbToHex (rgb_text sep r g b) ++ "NAN".
Proof.
  intros Hsep Hr Hg Hb Ha Hnan.
  rewrite (converter_rgba_text sep r g b a), (converter_rgb_text sep r g b)
    by assumption.
  unfold alpha_hex. rewrite Hnan. reflexivity.
Qed.

Lemma alpha_not_a_number_witness :
  vortexRgbToHex "rgba(1, 2, 3, .)" = vortexRgbToHex "rgb(1, 2, 3)" ++ "NAN".
Proof.
  apply (alpha_not_a_number " " "1" "2" "3" "."); reflexivity.
Defined.

(** ** Channels from 0 to 255 *)

(** [n] in decimal digits, as a style sheet writes a channel. *)
Definition decimal (n : Z) : string :=
  DecimalString.NilZero.string_of_uint (N.to_uint (Z.to_N n)).

Definition channel_ok (n : Z) : bool :=
  run_of digit (decimal n)
  && String.eqb (JsString.toUpperCase (toHex (JsNumber.parseInt (decimal n))))
                (hex2 n).

Lemma channels_ok : forallb (fun k => channel_ok (Z.of_nat k)) (List.seq 0 256) = true.
Proof. vm_compute. reflexivity. Qed.

Lemma channel_facts (n : Z) :
  0 <= n <= 255 ->
  run_of digit (decimal n) = true
  /\ JsString.toUpperCase (toHex (JsNumber.parseInt (decimal n))) = hex2 n.
Proof.
  intros Hn.
  pose proof channels_ok as Hall. rewrite forallb_forall in Hall.
  specialize (Hall (Z.to_nat n)).
  rewrite Z2Nat.id in Hall by lia.
  assert (Hin : In (Z.to_nat n) (List.seq 0 256)) by (apply in_seq; lia).
  specialize (Hall Hin). unfold channel_ok in Hall.
  apply andb_true_iff in Hall. destruct Hall as [H1 H2].
  split; [exact H1 | apply String.eqb_eq; exact H2].
Qed.

Definition hex2_differ (i j : Z) : bool :=
  (i =? j) || negb (String.eqb (hex2 i) (hex2 j)).

Lemma hex2_all_differ :
  forallb (fun i => forallb (fun j => hex2_differ (Z.of_nat i) (Z.of_nat j))
                            (List.seq 0 256)) (List.seq 0 256) = true.
Proof. vm_compute. reflexivity. Qed.

Lemma hex2_injective (i j : Z) :
  0 <= i <= 255 -> 0 <= j <= 255 -> hex2 i = hex2 j -> i = j.
Proof.
  intros Hi Hj Heq.
  pose proof hex2_all_differ as Hall. rewrite forallb_forall in Hall.
  specialize (Hall (Z.to_nat i) ltac:(apply in_seq; lia)).
  rewrite forallb_forall in Hall.
  specialize (Hall (Z.to_nat j) ltac:(apply in_seq; lia)).
  rewrite !Z2Nat.id in Hall by lia. unfold hex2_differ in Hall.
  rewrite Heq, String.eqb_refl, orb_false_r in Hall.
  apply Z.eqb_eq. exact Hall.
Qed.

(** X9. Every opaque colour [rgb(r, g, b)] with channels from 0 to 255
    in decimal, whatever the white space after its commas, is converted
    to ["#"] and the two upper-case hex digits of each channel. *)
Theorem opaque_colour_to_hex (sep : string) (r g b : Z) :
  all space sep = true ->
  0 <= r <= 255 -> 0 <= g <= 255 -> 0 <= b <= 255 ->
  vortexRgbToHex (rgb_text sep (decimal r) (decimal g) (decimal b))
  = "#" ++ hex2 r ++ hex2 g ++ hex2 b.
Proof.
  intros Hsep Hr Hg Hb.
  destruct (channel_facts r Hr) as [Dr Xr].
  destruct (channel_facts g Hg) as [Dg Xg].
  destruct (channel_facts b Hb) as [Db Xb].
  rewrite (converter_rgb_text sep _ _ _ Hsep Dr Dg Db).
  unfold opaque_hex. rewrite !toUpperCase_app, Xr, Xg, Xb. reflexivity.
Qed.

Lemma opaque_colour_to_hex_witness :
  vortexRgbToHex (rgb_text " " (decimal 235) (decimal 230) (decimal 223))
  = "#" ++ hex2 235 ++ hex2 230 ++ hex2 223.
Proof.
  apply (opaque_colour_to_hex " " 235 230 223); [reflexivity | lia | lia | lia].
Defined.

(** X10. Two such colours have the same code exactly when they have the
    same channels: the white space does not count, and no two colours
    share a code. *)
Theorem opaque_colours_share_code (sep sep' : string) (r g b r' g' b' : Z) :
  all space sep = true -> all space sep' = true ->
  0 <= r <= 255 -> 0 <= g <= 255 -> 0 <= b <= 255 ->
  0 <= r' <= 255 -> 0 <= g' <= 255 -> 0 <= b' <= 255 ->
  vortexRgbToHex (rgb_text sep (decimal r) (decimal g) (decimal b))
  = vortexRgbToHex (rgb_text sep' (decimal r') (decimal g') (decimal b'))
  <-> r = r' /\ g = g' /\ b = b'.
Proof.
  intros Hsep Hsep' Hr Hg Hb Hr' Hg' Hb'.
  destruct (channel_facts r Hr) as [Dr Xr].
  destruct (channel_facts g Hg) as [Dg Xg].
  destruct (channel_facts b Hb) as [Db Xb].
  destruct (channel_facts r' Hr') as [Dr' Xr'].
  destruct (channel_facts g' Hg') as [Dg' Xg'].
  destruct (channel_facts b' Hb') as [Db' Xb'].
  rewrite (converter_rgb_text sep _ _ _ Hsep Dr Dg Db),
          (converter_rgb_text sep' _ _ _ Hsep' Dr' Dg' Db').
  unfold opaque_hex.
  rewrite !toUpperCase_app, Xr, Xg, Xb, Xr', Xg', Xb'.
  split.
  - intros Heq. unfold hex2 at 1 2 3 4 5 6 in Heq.
    cbn [append JsString.toUpperCase JsString.map] in Heq.
    injection Heq as H1 H2 H3 H4 H5 H6.
    repeat split; apply hex2_injective; try assumption; unfold hex2; congruence.
  - intros [-> [-> ->]]. reflexivity.
Qed.

Lemma opaque_colours_share_code_witness :
  vortexRgbToHex (rgb_text " " (decimal 7) (decimal 39) (decimal 31))
  = vortexRgbToHex (rgb_text "" (decimal 7) (decimal 39) (decimal 31))
  <-> 7 = 7 /\ 39 = 39 /\ 31 = 31.
Proof.
  apply (opaque_colours_share_code " " "" 7 39 31 7 39 31);
    try reflexivity; lia.
Defined.

(** ** Strings the converter returns as they are *)

(** X11. The strings the converter returns unchanged are exactly those in
    which the pattern finds nothing: whenever it finds a colour the
    result differs from the input. *)
Theorem converter_fixed_points (s : string) :
  vortexRgbToHex s = s <-> String_match s rgb_pattern = None.
Proof.
  split.
  - intros Hfix. destruct (String_match s rgb_pattern) as [caps|] eqn:Hm;
      [|reflexivity].
    destruct (rgb_to_hex_upper s caps Hm) as [t Ht].
    assert (Hr : JsString.mem "r" s = false).
    { rewrite <- Hfix, Ht. apply toUpperCase_without_r. }
    rewrite (exec_rgb_without_r s Hr) in Hm. discriminate.
  - intros Hm. unfold vortexRgbToHex. rewrite Hm. reflexivity.
Qed.

(** ** Channels above 255 *)

Module HexFacts.
Import JsNumber NumberFacts.

Lemma rne_whole (n : Z) : rne n 1 = n.
Proof.
  unfold rne. rewrite Z.mod_1_r, Z.div_1_r. reflexivity.
Qed.

Lemma log2_ratio_whole (n : Z) : 0 < n -> log2_ratio n 1 = Z.log2 n.
Proof.
  intros Hn.
  pose proof (Z.log2_spec n Hn) as [Hlo Hhi].
  pose proof (Z.log2_nonneg n) as Hnn.
  apply Z.le_antisymm.
  - assert (log2_ratio n 1 < Z.succ (Z.log2 n)); [|lia].
    apply log2_ratio_below; lia.
  - apply log2_ratio_above; lia.
Qed.

(** An integer below [2^53] is a number, and prints as its digits. *)
Lemma toString16_whole (n : Z) :
  0 < n < 2 ^ 53 -> toString16 (of_Z n) = hex n.
Proof.
  intros Hn.
  rewrite ClampFacts.of_Z_positive by lia.
  pose proof (Z.log2_spec n ltac:(lia)) as [Hlo Hhi].
  pose proof (Z.log2_nonneg n) as Hnn.
  assert (Hlog : Z.log2 n <= 52).
  { destruct (Z_le_gt_dec (Z.log2 n) 52) as [H|H]; [exact H|].
    assert (2 ^ 53 <= 2 ^ Z.log2 n) by (apply Z.pow_le_mono_r; lia). lia. }
  unfold round_ratio.
  destruct (n <=? 0) eqn:H0; [apply Z.leb_le in H0; lia|].
  unfold ulp_exp. rewrite (log2_ratio_whole n) by lia.
  rewrite Z.max_l by lia.
  set (e := Z.log2 n - 52).
  assert (Hscale : scale2 n 1 e = (n * 2 ^ (- e), 1)).
  { unfold scale2. destruct (0 <=? e) eqn:He.
    - apply Z.leb_le in He. assert (e = 0) by lia.
      replace e with 0 by lia. cbn. f_equal. lia.
    - reflexivity. }
  rewrite Hscale, rne_whole.
  assert (Hpow : 2 ^ (- e) * 2 ^ (Z.succ (Z.log2 n)) = 2 ^ 53).
  { rewrite <- Z.pow_add_r by lia. f_equal. lia. }
  assert (Hpos : 0 < 2 ^ (- e)) by (apply Z.pow_pos_nonneg; lia).
  assert (Hm : 0 < n * 2 ^ (- e) < 2 ^ 53) by nia.
  destruct (n * 2 ^ (- e) =? 2 ^ 53) eqn:Heq; [apply Z.eqb_eq in Heq; lia|].
  destruct (n * 2 ^ (- e)) as [|mp|mp] eqn:Hmp; try lia.
  destruct (971 <? e) eqn:Hbig; [apply Z.ltb_lt in Hbig; lia|].
  unfold toString16. cbn [append].
  destruct (0 <=? e) eqn:He.
  - apply Z.leb_le in He. assert (He0 : e = 0) by lia.
    rewrite He0 in *. cbn in Hmp. rewrite Z.pow_0_r, Z.mul_1_r.
    f_equal. lia.
  - rewrite <- Hmp.
    rewrite Z.mod_mul, Z.div_mul by lia. reflexivity.
Qed.

Lemma length_hex_of (fuel : nat) :
  forall n acc,
    (String.length acc + match fuel with O => 0 | S _ => 1 end
     <= String.length (hex_of fuel n acc))%nat.
Proof.
  induction fuel as [|fuel IH]; intros n acc; cbn [hex_of].
  - lia.
  - destruct (n <? 16); [cbn [String.length]; lia|].
    specialize (IH (n / 16) (String (hex_digit (n mod 16)) acc)).
    cbn [String.length] in IH. destruct fuel; lia.
Qed.

Lemma hex_of_step (fuel : nat) (n : Z) (acc : string) :
  hex_of (S fuel) n acc =
    if n <? 16 then String (hex_digit (n mod 16)) acc
    else hex_of fuel (n / 16) (String (hex_digit (n mod 16)) acc).
Proof. reflexivity. Qed.

Lemma length_hex (n : Z) : 256 <= n -> (3 <= String.length (hex n))%nat.
Proof.
  intros Hn. unfold hex.
  assert (Hlog : 8 <= Z.log2 n).
  { replace 8 with (Z.log2 256) by reflexivity. apply Z.log2_le_mono. lia. }
  destruct (Z.to_nat (Z.log2 n)) as [|[|fuel]] eqn:Hfuel; try lia.
  rewrite hex_of_step.
  destruct (n <? 16) eqn:H16; [apply Z.ltb_lt in H16; lia|].
  rewrite hex_of_step.
  destruct (n / 16 <? 16) eqn:H256.
  { apply Z.ltb_lt in H256.
    assert (16 <= n / 16) by (apply Z.div_le_lower_bound; lia). lia. }
  pose proof (length_hex_of (S fuel) (n / 16 / 16)
                (String (hex_digit (n / 16 mod 16))
                   (String (hex_digit (n mod 16)) ""))) as Hlen.
  cbn [String.length] in Hlen. lia.
Qed.

Lemma length_toHex (x : number) : (2 <= String.length (toHex x))%nat.
Proof. apply length_padStart. Qed.

Lemma length_toHex_above (n : Z) :
  256 <= n < 2 ^ 53 -> (3 <= String.length (toHex (of_Z n)))%nat.
Proof.
  intros Hn. unfold toHex, JsString.padStart.
  rewrite length_app, toString16_whole by lia.
  pose proof (length_hex n ltac:(lia)). lia.
Qed.

End HexFacts.

(** X12. The channels are not checked against 255: when one of them reads
    as an integer from 256 up (and below [2^53]) its hex has three digits
    or more, and the result is longer than ["#"] and six digits. *)
Theorem channel_above_255 (sep r g b : string) (n : Z) :
  all space sep = true ->
  run_of digit r = true -> run_of digit g = true -> run_of digit b = true ->
  256 <= n < 2 ^ 53 ->
  JsNumber.parseInt r = JsNumber.of_Z n
  \/ JsNumber.parseInt g = JsNumber.of_Z n
  \/ JsNumber.parseInt b = JsNumber.of_Z n ->
  (7 < String.length (vortexRgbToHex (rgb_text sep r g b)))%nat.
Proof.
  intros Hsep Hr Hg Hb Hn Hchannel.
  rewrite (converter_rgb_text sep r g b Hsep Hr Hg Hb), length_toUpperCase.
  unfold opaque_hex. rewrite !length_app. cbn [String.length].
  pose proof (HexFacts.length_toHex (JsNumber.parseInt r)).
  pose proof (HexFacts.length_toHex (JsNumber.parseInt g)).
  pose proof (HexFacts.length_toHex (JsNumber.parseInt b)).
  pose proof (HexFacts.length_toHex_above n Hn) as Hlong.
  destruct Hchannel as [Hc | [Hc | Hc]]; rewrite <- Hc in Hlong; lia.
Qed.

Lemma channel_above_255_witness :
  (7 < String.length (vortexRgbToHex "rgb(256, 0, 0)"))%nat.
Proof.
  apply (channel_above_255 " " "256" "0" "0" 256);
    [reflexivity | reflexivity | reflexivity | reflexivity | lia |].
  left. vm_compute. reflexivity.
Defined.

(* ================================================================== *)
(** * Further properties of the OKLab converter *)

(** The linear channels of [vortexOklabToRgb], before the gamma step. *)
Definition linear (L a b : JsNumber.number)
  : JsNumber.number * JsNumber.number * JsNumber.number :=
  let l := (L + 0.3963377774 * a + 0.2158037573 * b)%js in
  let m := (L - 0.1055613458 * a - 0.0638541728 * b)%js in
  let s := (L - 0.0894841775 * a - 1.2914855480 * b)%js in
  let l3 := (l * l * l)%js in
  let m3 := (m * m * m)%js in
  let s3 := (s * s * s)%js in
  ((4.0767416621 * l3 - 3.0771159139 * m3 + 0.2309699292 * s3)%js,
   (-1.2684380046 * l3 + 2.6097574011 * m3 - 0.3413193965 * s3)%js,
   (-0.0041960863 * l3 - 0.7034186147 * m3 + 1.7076147010 * s3)%js).

Lemma oklab_linear
  (Math_pow : JsNumber.number -> JsNumber.number -> JsNumber.number)
  (L a b : JsNumber.number) :
  vortexOklabToRgb Math_pow L a b =
    let '(r, g, bl) := linear L a b in
    [to_byte (gamma Math_pow r); to_byte (gamma Math_pow g);
     to_byte (gamma Math_pow bl)].
Proof. reflexivity. Qed.

(** [-B <= x && x <= B] *)
Definition within (B x : JsNumber.number) : bool := ((- B <= x) && (x <= B))%js.

Module OklabFacts.
Import JsNumber NumberFacts ClampFacts.

(** ** NaN goes through the arithmetic *)

Lemma add_NaN_l (x : number) : (NaN + x)%js = NaN.
Proof. reflexivity. Qed.
Lemma add_NaN_r (x : number) : (x + NaN)%js = NaN.
Proof. destruct x; reflexivity. Qed.
Lemma sub_NaN_l (x : number) : (NaN - x)%js = NaN.
Proof. reflexivity. Qed.
Lemma sub_NaN_r (x : number) : (x - NaN)%js = NaN.
Proof. destruct x; reflexivity. Qed.
Lemma mul_NaN_l (x : number) : (NaN * x)%js = NaN.
Proof. reflexivity. Qed.
Lemma mul_NaN_r (x : number) : (x * NaN)%js = NaN.
Proof. destruct x; reflexivity. Qed.

Ltac nan_through :=
  repeat (rewrite ?add_NaN_l, ?add_NaN_r, ?sub_NaN_l, ?sub_NaN_r,
            ?mul_NaN_l, ?mul_NaN_r; cbv zeta).

Lemma linear_NaN (L a b : number) :
  L = NaN \/ a = NaN \/ b = NaN -> linear L a b = (NaN, NaN, NaN).
Proof.
  intros [-> | [-> | ->]]; unfold linear; cbv zeta; nan_through; reflexivity.
Qed.

Lemma gamma_ext (pow pow' : number -> number -> number) (v : number) :
  (forall x, (x > 0.0031308)%js = true ->
             pow x (1 / 2.4)%js = pow' x (1 / 2.4)%js) ->
  gamma pow v = gamma pow' v.
Proof.
  intros Hsame. unfold gamma.
  destruct (v > 0.0031308)%js eqn:Hv; [rewrite (Hsame v Hv)|]; reflexivity.
Qed.


(** ** The clamp at its two ends *)

(** Zero, minus infinity or a negative number. *)
Definition not_above_zero (y : number) : Prop :=
  (exists s, y = S754_zero s) \/ y = S754_infinity true
  \/ (exists m e, y = S754_finite true m e).

Lemma leb_zero_cases (v : number) :
  (v <= 0)%js = true -> not_above_zero v.
Proof.
  unfold leb, not_above_zero. destruct v as [s|s| |s m e]; cbn [compare].
  - eauto.
  - destruct s; [auto | discriminate].
  - discriminate.
  - destruct s; [eauto | discriminate].
Qed.

Lemma round_dyadic_negative (m : positive) (e : Z) :
  not_above_zero (round_dyadic (Z.neg m) e).
Proof.
  unfold round_dyadic. destruct (scale2 (Z.abs (Z.neg m)) 1 (- e)) as [p q].
  change (Z.neg m <? 0) with true. unfold not_above_zero.
  destruct (round_ratio_cases true p q) as [-> | [-> | [m' [e' ->]]]]; eauto.
Qed.

Lemma mul_255_not_above_zero (v : number) :
  not_above_zero v -> not_above_zero (v * 255)%js.
Proof.
  intros [[s ->] | [-> | [m [e ->]]]].
  - left. eexists. reflexivity.
  - right. left. reflexivity.
  - apply round_dyadic_negative.
Qed.

Lemma Math_round_not_above_zero (y : number) :
  not_above_zero y -> not_above_zero (Math_round y).
Proof.
  intros [[s ->] | [-> | [m [e ->]]]].
  - left. eexists. reflexivity.
  - right. left. reflexivity.
  - destruct (Math_round_cases true m e) as [[_ ->] | [-> | [n [-> Hn]]]].
    + right. right. eauto.
    + left. eauto.
    + rewrite of_Z_negative by exact Hn. unfold not_above_zero.
      destruct (round_ratio_cases true (- n) 1) as [-> | [-> | [m' [e' ->]]]];
        eauto.
Qed.

Lemma to_byte_floor (v : number) : (v <= 0)%js = true -> to_byte v = 0%js.
Proof.
  intros Hv. apply leb_zero_cases in Hv.
  change (to_byte v) with (clamp (Math_round (v * 255)%js)).
  apply clamp_below_zero. apply Math_round_not_above_zero.
  apply mul_255_not_above_zero. exact Hv.
Qed.

(** Plus infinity or a number that is at least 255. *)
Definition at_least_255 (y : number) : Prop :=
  y = S754_infinity false
  \/ exists m e, y = S754_finite false m e
                 /\ (e < 0 -> 255 * 2 ^ (- e) <= Z.pos m)
                 /\ (0 <= e -> 255 <= Z.pos m * 2 ^ e).

Lemma round_ratio_ge_255 (p q : Z) :
  0 < q -> 255 * q <= p -> at_least_255 (round_ratio false p q).
Proof.
  intros Hq Hle.
  assert (Hp : 0 < p) by lia.
  assert (Hlg : 7 <= log2_ratio p q).
  { apply log2_ratio_above; lia. }
  pose proof (log2_ratio_lower p q Hp Hq ltac:(lia)) as Hlow.
  unfold round_ratio.
  destruct (p <=? 0) eqn:Hp0; [apply Z.leb_le in Hp0; lia|].
  unfold ulp_exp. rewrite Z.max_l by lia.
  set (e := log2_ratio p q - 52) in *.
  assert (Hm : exists m, rne (fst (scale2 p q e)) (snd (scale2 p q e)) = m
                         /\ (0 <= e -> 2 ^ 52 <= m)
                         /\ (e < 0 -> 255 * 2 ^ (- e) <= m)).
  { eexists. split; [reflexivity|]. unfold scale2.
    destruct (0 <=? e) eqn:He; cbn [fst snd].
    - apply Z.leb_le in He. split; [|lia]. intros _.
      assert (0 < 2 ^ e) by (apply Z.pow_pos_nonneg; lia).
      apply rne_ge; [nia|].
      replace (log2_ratio p q) with (52 + e) in Hlow by (unfold e; lia).
      rewrite Z.pow_add_r in Hlow by lia. nia.
    - apply Z.leb_gt in He. split; [lia|]. intros _.
      assert (0 < 2 ^ (- e)) by (apply Z.pow_pos_nonneg; lia).
      apply rne_ge; [lia | nia]. }
  destruct (scale2 p q e) as [n d]. cbn [fst snd] in Hm.
  destruct Hm as [m [-> [Hpos Hneg]]].
  assert (Hfinal : forall (m' : positive) (e' : Z),
             (0 <= e' -> 2 ^ 52 <= Z.pos m') ->
             (e' < 0 -> 255 * 2 ^ (- e') <= Z.pos m') ->
             at_least_255 (if 971 <? e' then S754_infinity false
                           else S754_finite false m' e')).
  { intros m' e' Hp' Hn'. destruct (971 <? e'); [left; reflexivity|].
    right. exists m', e'. split; [reflexivity|]. split; [exact Hn'|].
    intros He0. specialize (Hp' He0).
    assert (1 <= 2 ^ e') by (apply (Z.pow_le_mono_r 2 0 e'); lia).
    change (2 ^ 52) with 4503599627370496 in Hp'. nia. }
  destruct (m =? 2 ^ 53) eqn:Hm53.
  - change (2 ^ 52) with 4503599627370496.
    apply Hfinal.
    + intros _. change (2 ^ 52) with 4503599627370496. lia.
    + intros He1.
      assert (2 ^ (- (e + 1)) <= 2 ^ 44) by (apply Z.pow_le_mono_r; lia).
      change (2 ^ 44) with 17592186044416 in *. lia.
  - assert (0 < m).
    { destruct (Z.le_gt_cases 0 e).
      - specialize (Hpos ltac:(lia)). change (2 ^ 52) with 4503599627370496 in Hpos. lia.
      - specialize (Hneg ltac:(lia)).
        assert (0 < 2 ^ (- e)) by (apply Z.pow_pos_nonneg; lia). lia. }
    destruct m as [|mp|mp]; try lia.
    apply Hfinal; assumption.
Qed.

(** Plus infinity or a number that is at least 1. *)
Definition at_least_1 (v : number) : Prop :=
  v = S754_infinity false
  \/ exists m e, v = S754_finite false m e /\ (e < 0 -> 2 ^ (- e) <= Z.pos m).

Lemma leb_one_cases (v : number) : (1 <= v)%js = true -> at_least_1 v.
Proof.
  unfold leb, at_least_1. destruct v as [s|s| |s m e]; cbn [compare].
  - discriminate.
  - destruct s; [discriminate | auto].
  - discriminate.
  - intros Hc.
    assert (Hle : 4503599627370496 * 2 ^ (-52 - Z.min (-52) e)
                  <= mant s m * 2 ^ (e - Z.min (-52) e)).
    { apply Z.compare_le_iff. intros Hgt. cbn [mant] in Hc.
      rewrite Hgt in Hc. discriminate Hc. }
    clear Hc.
    assert (0 < 2 ^ (-52 - Z.min (-52) e)) by (apply Z.pow_pos_nonneg; lia).
    assert (0 < 2 ^ (e - Z.min (-52) e)) by (apply Z.pow_pos_nonneg; lia).
    destruct s; cbn [mant] in Hle; [nia|].
    right. exists m, e. split; [reflexivity|]. intros He.
    destruct (Z.le_gt_cases e (-52)) as [Hlow|Hhigh].
    + rewrite Z.min_r in Hle by lia.
      replace (e - e) with 0 in Hle by lia. change (2 ^ 0) with 1 in Hle.
      assert (Hs : 2 ^ (- e) = 4503599627370496 * 2 ^ (-52 - e)).
      { change 4503599627370496 with (2 ^ 52). rewrite <- Z.pow_add_r by lia.
        f_equal. lia. }
      lia.
    + rewrite Z.min_l in Hle by lia.
      replace (-52 - -52) with 0 in Hle by lia. change (2 ^ 0) with 1 in Hle.
      assert (Hs : 4503599627370496 = 2 ^ (- e) * 2 ^ (e - -52)).
      { change 4503599627370496 with (2 ^ 52). rewrite <- Z.pow_add_r by lia.
        f_equal. lia. }
      assert (0 < 2 ^ (e - -52)) by (apply Z.pow_pos_nonneg; lia).
      assert (0 < 2 ^ (- e)) by (apply Z.pow_pos_nonneg; lia).
      nia.
Qed.

Lemma mul_255_at_least (v : number) :
  at_least_1 v -> at_least_255 (v * 255)%js.
Proof.
  intros [-> | [m [e [-> Hm]]]]; [left; reflexivity|].
  change (S754_finite false m e * 255)%js
    with (round_dyadic (Z.pos m * 8972014882652160) (e + -45)).
  unfold round_dyadic.
  replace (Z.pos m * 8972014882652160 <? 0) with false
    by (symmetry; apply Z.ltb_ge; lia).
  rewrite Z.abs_eq by lia. unfold scale2.
  destruct (0 <=? - (e + -45)) eqn:He.
  - apply Z.leb_le in He. apply round_ratio_ge_255.
    + assert (0 < 2 ^ (- (e + -45))) by (apply Z.pow_pos_nonneg; lia). lia.
    + replace (- (e + -45)) with (45 - e) by lia.
      destruct (Z.le_gt_cases 0 e) as [Hpos|Hneg].
      * assert (2 ^ (45 - e) <= 2 ^ 45) by (apply Z.pow_le_mono_r; lia).
        change (2 ^ 45) with 35184372088832 in *. lia.
      * specialize (Hm Hneg).
        replace (45 - e) with (45 + - e) by lia. rewrite Z.pow_add_r by lia.
        change (2 ^ 45) with 35184372088832. nia.
  - apply Z.leb_gt in He. apply round_ratio_ge_255; [lia|].
    assert (1 <= 2 ^ (e + -45)) by (apply (Z.pow_le_mono_r 2 0); lia).
    nia.
Qed.

Lemma clamp_at_least_255_whole (n : Z) :
  255 <= n -> (clamp (of_Z n) === 255)%js = true.
Proof.
  intros Hn. destruct (Z.eq_dec n 255) as [-> | Hne]; [reflexivity|].
  unfold clamp, Math_min. rewrite of_Z_positive by lia.
  rewrite round_ratio_ge_256 by lia. reflexivity.
Qed.

Lemma clamp_at_least_255_integral (m : positive) (e : Z) :
  0 <= e -> 255 <= Z.pos m * 2 ^ e ->
  (clamp (S754_finite false m e) === 255)%js = true.
Proof.
  intros He Hle. unfold clamp, Math_min. cbn [compare mant].
  rewrite Z.min_l by lia. replace (-45 - -45) with 0 by lia.
  change (2 ^ 0) with 1.
  assert (Hsplit : 2 ^ (e - -45) = 2 ^ e * 35184372088832).
  { replace (e - -45) with (e + 45) by lia. rewrite Z.pow_add_r by lia.
    reflexivity. }
  rewrite Hsplit.
  destruct (8972014882652160 * 1 ?= Z.pos m * (2 ^ e * 35184372088832)) eqn:Hc.
  - apply Z.compare_eq in Hc. cbn [sign].
    unfold Math_max. cbn [compare]. unfold eqb. cbn [compare mant].
    rewrite Z.min_r by lia. replace (-45 - -45) with 0 by lia.
    change (2 ^ 0) with 1. rewrite Hsplit, <- Hc, Z.compare_refl. reflexivity.
  - reflexivity.
  - apply Z.compare_gt_iff in Hc. lia.
Qed.

Lemma clamp_round_at_least (y : number) :
  at_least_255 y -> (clamp (Math_round y) === 255)%js = true.
Proof.
  intros [-> | [m [e [-> [Hneg Hpos]]]]]; [reflexivity|].
  unfold Math_round. destruct (0 <=? e) eqn:He.
  - apply Z.leb_le in He. apply clamp_at_least_255_integral; auto.
  - apply Z.leb_gt in He. specialize (Hneg He). cbn [mant].
    set (n := (2 * Z.pos m + 2 ^ (- e)) / 2 ^ (1 - e)).
    assert (Hn : 255 <= n).
    { unfold n. apply Z.div_le_lower_bound.
      - apply Z.pow_pos_nonneg; lia.
      - replace (1 - e) with (Z.succ (- e)) by lia.
        rewrite Z.pow_succ_r by lia.
        assert (0 < 2 ^ (- e)) by (apply Z.pow_pos_nonneg; lia). lia. }
    destruct (n =? 0) eqn:Hn0; [apply Z.eqb_eq in Hn0; lia|].
    apply clamp_at_least_255_whole. exact Hn.
Qed.


(** ** Magnitudes *)

(** [|M| * 2^E <= 2^K], in integers. *)
Definition dyadic_below (K M E : Z) : Prop :=
  Z.abs M * 2 ^ (E - Z.min E 0) <= 2 ^ (K - Z.min E 0).

Lemma pow_split (a b : Z) : 0 <= a -> 0 <= b -> 2 ^ (a + b) = 2 ^ a * 2 ^ b.
Proof. intros. apply Z.pow_add_r; assumption. Qed.

Lemma dyadic_below_shift (K M E S : Z) :
  0 <= K -> S <= E -> S <= 0 ->
  dyadic_below K M E <-> Z.abs M * 2 ^ (E - S) <= 2 ^ (K - S).
Proof.
  intros HK HE H0. unfold dyadic_below.
  set (mn := Z.min E 0).
  assert (Hmn : S <= mn) by (unfold mn; lia).
  assert (Hmn0 : mn <= 0 /\ mn <= E) by (unfold mn; lia).
  replace (E - S) with ((E - mn) + (mn - S)) by lia.
  replace (K - S) with ((K - mn) + (mn - S)) by lia.
  rewrite !pow_split by lia.
  assert (0 < 2 ^ (mn - S)) by (apply Z.pow_pos_nonneg; lia).
  split; intros Hle; nia.
Qed.

(** Zero or a finite number of magnitude [2^K] at most. *)
Definition finite_below (K : Z) (x : number) : Prop :=
  match x with
  | S754_zero _ => True
  | S754_finite _ m e => dyadic_below K (Z.pos m) e
  | _ => False
  end.

Lemma finite_below_not_NaN (K : Z) (x : number) : finite_below K x -> x <> NaN.
Proof. destruct x; cbn; try contradiction; discriminate. Qed.

Lemma round_ratio_below (s : bool) (p q K : Z) :
  0 < q -> 0 <= K <= 1023 -> p <= 2 ^ K * q ->
  finite_below K (round_ratio s p q).
Proof.
  intros Hq HK Hle. unfold round_ratio.
  destruct (p <=? 0) eqn:Hp0; [exact I|]. apply Z.leb_gt in Hp0.
  assert (Hlr : log2_ratio p q < K + 1).
  { apply log2_ratio_below; try lia.
    rewrite Z.pow_add_r by lia. change (2 ^ 1) with 2.
    assert (0 < 2 ^ K) by (apply Z.pow_pos_nonneg; lia). nia. }
  set (e := ulp_exp p q).
  assert (He : e <= K - 52) by (unfold e, ulp_exp; lia).
  assert (Hpe : 0 < 2 ^ (K - e)) by (apply Z.pow_pos_nonneg; lia).
  assert (Hm : 0 <= rne (fst (scale2 p q e)) (snd (scale2 p q e)) <= 2 ^ (K - e)).
  { unfold scale2. destruct (0 <=? e) eqn:He0; cbn [fst snd].
    - apply Z.leb_le in He0.
      assert (0 < 2 ^ e) by (apply Z.pow_pos_nonneg; lia).
      split; [apply rne_nonneg; nia|]. apply rne_le; [nia | lia |].
      replace K with ((K - e) + e) in Hle by lia.
      rewrite pow_split in Hle by lia. nia.
    - apply Z.leb_gt in He0.
      assert (0 < 2 ^ (- e)) by (apply Z.pow_pos_nonneg; lia).
      split; [apply rne_nonneg; nia|]. apply rne_le; [lia | nia |].
      replace (K - e) with (K + - e) by lia.
      rewrite pow_split by lia. nia. }
  destruct (scale2 p q e) as [n d]. cbn [fst snd] in Hm.
  set (m := rne n d) in *.
  destruct (m =? 2 ^ 53) eqn:Hm53.
  - apply Z.eqb_eq in Hm53.
    assert (H53 : 53 <= K - e).
    { apply (Z.pow_le_mono_r_iff 2); lia. }
    change (2 ^ 52) with 4503599627370496.
    destruct (971 <? e + 1) eqn:Hbig; [apply Z.ltb_lt in Hbig; lia|].
    cbn [finite_below].
    apply (dyadic_below_shift K _ (e + 1) (Z.min (e + 1) 0)); try lia.
    change (Z.abs 4503599627370496) with (2 ^ 52).
    rewrite <- pow_split by lia. apply Z.pow_le_mono_r; lia.
  - destruct m as [|mp|mp] eqn:Hmp; try exact I.
    destruct (971 <? e) eqn:Hbig; [apply Z.ltb_lt in Hbig; lia|].
    cbn [finite_below].
    apply (dyadic_below_shift K _ e (Z.min e 0)); try lia.
    rewrite Z.abs_eq by lia.
    replace (K - Z.min e 0) with ((K - e) + (e - Z.min e 0)) by lia.
    rewrite pow_split by lia.
    assert (0 < 2 ^ (e - Z.min e 0)) by (apply Z.pow_pos_nonneg; lia).
    nia.
Qed.

Lemma round_dyadic_below (K M E : Z) :
  0 <= K <= 1023 -> dyadic_below K M E -> finite_below K (round_dyadic M E).
Proof.
  intros HK Hb. unfold round_dyadic, scale2.
  destruct (0 <=? - E) eqn:HE.
  - apply Z.leb_le in HE.
    assert (0 < 2 ^ (- E)) by (apply Z.pow_pos_nonneg; lia).
    apply round_ratio_below; [lia | lia |].
    apply (dyadic_below_shift K M E E) in Hb; try lia.
    replace (E - E) with 0 in Hb by lia. change (2 ^ 0) with 1 in Hb.
    replace (K - E) with (K + - E) in Hb by lia.
    rewrite pow_split in Hb by lia. lia.
  - apply Z.leb_gt in HE. apply round_ratio_below; [lia | lia |].
    apply (dyadic_below_shift K M E 0) in Hb; try lia.
    replace (E - 0) with E in Hb by lia. replace (K - 0) with K in Hb by lia.
    replace (- - E) with E by lia. lia.
Qed.

Lemma finite_below_mono (K K' : Z) (x : number) :
  0 <= K <= K' -> finite_below K x -> finite_below K' x.
Proof.
  intros HK. destruct x as [s|s| |s m e]; cbn [finite_below]; try tauto.
  unfold dyadic_below. intros Hb.
  assert (2 ^ (K - Z.min e 0) <= 2 ^ (K' - Z.min e 0))
    by (apply Z.pow_le_mono_r; lia).
  lia.
Qed.

Lemma abs_mant (s : bool) (m : positive) : Z.abs (mant s m) = Z.pos m.
Proof. destruct s; reflexivity. Qed.

Lemma mul_below (kx ky : Z) (x y : number) :
  finite_below kx x -> finite_below ky y ->
  0 <= kx -> 0 <= ky -> kx + ky <= 1023 ->
  finite_below (kx + ky) (x * y)%js.
Proof.
  intros Hx Hy Hkx Hky Hk.
  destruct x as [sx|sx| |sx mx ex]; cbn [finite_below] in Hx; try contradiction;
    destruct y as [sy|sy| |sy my ey]; cbn [finite_below] in Hy; try contradiction;
    try exact I.
  cbn [mul]. apply round_dyadic_below; [lia|].
  apply (dyadic_below_shift _ _ _ (Z.min ex 0 + Z.min ey 0)); try lia.
  unfold dyadic_below in Hx, Hy.
  rewrite Z.abs_mul, !abs_mant.
  replace (ex + ey - (Z.min ex 0 + Z.min ey 0))
    with ((ex - Z.min ex 0) + (ey - Z.min ey 0)) by lia.
  replace (kx + ky - (Z.min ex 0 + Z.min ey 0))
    with ((kx - Z.min ex 0) + (ky - Z.min ey 0)) by lia.
  rewrite !pow_split by lia.
  rewrite Z.abs_eq in Hx, Hy by lia.
  assert (0 <= 2 ^ (ex - Z.min ex 0)) by (apply Z.pow_nonneg; lia).
  assert (0 <= 2 ^ (ey - Z.min ey 0)) by (apply Z.pow_nonneg; lia).
  replace (Z.pos mx * Z.pos my * (2 ^ (ex - Z.min ex 0) * 2 ^ (ey - Z.min ey 0)))
    with ((Z.pos mx * 2 ^ (ex - Z.min ex 0)) * (Z.pos my * 2 ^ (ey - Z.min ey 0)))
    by ring.
  apply Z.mul_le_mono_nonneg; lia.
Qed.

Lemma add_below (kx ky : Z) (x y : number) :
  finite_below kx x -> finite_below ky y ->
  0 <= kx -> 0 <= ky -> Z.max kx ky + 1 <= 1023 ->
  finite_below (Z.max kx ky + 1) (x + y)%js.
Proof.
  intros Hx Hy Hkx Hky Hk.
  destruct x as [sx|sx| |sx mx ex]; cbn [finite_below] in Hx; try contradiction;
    destruct y as [sy|sy| |sy my ey]; cbn [finite_below] in Hy; try contradiction;
    try exact I.
  - apply (finite_below_mono ky); [lia | exact Hy].
  - apply (finite_below_mono kx); [lia | exact Hx].
  - cbn [add].
    set (e := Z.min ex ey).
    set (M := mant sx mx * 2 ^ (ex - e) + mant sy my * 2 ^ (ey - e)).
    destruct (M =? 0); [exact I|].
    apply round_dyadic_below; [lia|].
    set (S := Z.min e 0).
    assert (HS : S <= e /\ S <= 0 /\ e <= ex /\ e <= ey) by (unfold S, e; lia).
    apply (dyadic_below_shift _ _ _ S); try lia.
    apply (dyadic_below_shift kx _ ex S) in Hx; try lia.
    apply (dyadic_below_shift ky _ ey S) in Hy; try lia.
    rewrite Z.abs_eq in Hx, Hy by lia.
    assert (Hx' : 2 ^ (kx - S) <= 2 ^ (Z.max kx ky - S))
      by (apply Z.pow_le_mono_r; lia).
    assert (Hy' : 2 ^ (ky - S) <= 2 ^ (Z.max kx ky - S))
      by (apply Z.pow_le_mono_r; lia).
    replace (Z.max kx ky + 1 - S) with (Z.succ (Z.max kx ky - S)) by lia.
    rewrite Z.pow_succ_r by lia.
    assert (Habs : Z.abs M <= Z.pos mx * 2 ^ (ex - e) + Z.pos my * 2 ^ (ey - e)).
    { unfold M.
      assert (0 <= 2 ^ (ex - e)) by (apply Z.pow_nonneg; lia).
      assert (0 <= 2 ^ (ey - e)) by (apply Z.pow_nonneg; lia).
      destruct sx, sy; cbn [mant]; lia. }
    assert (Hex : 2 ^ (ex - S) = 2 ^ (ex - e) * 2 ^ (e - S)).
    { rewrite <- pow_split by lia. f_equal. lia. }
    assert (Hey : 2 ^ (ey - S) = 2 ^ (ey - e) * 2 ^ (e - S)).
    { rewrite <- pow_split by lia. f_equal. lia. }
    assert (0 <= 2 ^ (e - S)) by (apply Z.pow_nonneg; lia).
    rewrite Hex in Hx. rewrite Hey in Hy.
    nia.
Qed.

Lemma neg_below (K : Z) (x : number) :
  finite_below K x -> finite_below K (- x)%js.
Proof. destruct x; cbn; tauto. Qed.

Lemma sub_below (kx ky : Z) (x y : number) :
  finite_below kx x -> finite_below ky y ->
  0 <= kx -> 0 <= ky -> Z.max kx ky + 1 <= 1023 ->
  finite_below (Z.max kx ky + 1) (x - y)%js.
Proof.
  intros Hx Hy. apply add_below; [exact Hx | apply neg_below; exact Hy].
Qed.

Definition finite_belowb (K : Z) (x : number) : bool :=
  match x with
  | S754_zero _ => true
  | S754_finite _ m e =>
      Z.pos m * 2 ^ (e - Z.min e 0) <=? 2 ^ (K - Z.min e 0)
  | _ => false
  end.

Lemma finite_belowb_spec (K : Z) (x : number) :
  finite_belowb K x = true -> finite_below K x.
Proof.
  destruct x as [s|s| |s m e]; cbn [finite_belowb finite_below];
    try discriminate; try tauto.
  intros H. apply Z.leb_le in H. exact H.
Qed.

Lemma leb_mant (sx : bool) (mx : positive) (ex : Z)
  (sy : bool) (my : positive) (ey : Z) :
  (S754_finite sx mx ex <= S754_finite sy my ey)%js = true ->
  mant sx mx * 2 ^ (ex - Z.min ex ey) <= mant sy my * 2 ^ (ey - Z.min ex ey).
Proof.
  unfold leb. cbn [compare]. intros Hc.
  apply Z.compare_le_iff. intros Hgt. rewrite Hgt in Hc. discriminate Hc.
Qed.

Lemma within_below (K : Z) (mB : positive) (eB : Z) (x : number) :
  0 <= K -> dyadic_below K (Z.pos mB) eB ->
  within (S754_finite false mB eB) x = true -> finite_below K x.
Proof.
  intros HK HB Hx. unfold within in Hx. apply andb_true_iff in Hx.
  destruct Hx as [Hlow Hhigh].
  destruct x as [s|s| |s m e]; cbn [finite_below].
  - exact I.
  - destruct s; [discriminate Hlow | discriminate Hhigh].
  - discriminate Hhigh.
  - cbn [neg negb] in Hlow.
    apply leb_mant in Hlow, Hhigh. rewrite (Z.min_comm eB e) in Hlow.
    set (mn := Z.min e eB) in *.
    set (S := Z.min mn 0).
    assert (HS : S <= mn /\ S <= 0 /\ mn <= e /\ mn <= eB) by (unfold S, mn; lia).
    apply (dyadic_below_shift K _ e S); try lia.
    apply (dyadic_below_shift K _ eB S) in HB; try lia.
    rewrite Z.abs_eq in * by lia.
    assert (He : 2 ^ (e - S) = 2 ^ (e - mn) * 2 ^ (mn - S)).
    { rewrite <- pow_split by lia. f_equal. lia. }
    assert (HeB : 2 ^ (eB - S) = 2 ^ (eB - mn) * 2 ^ (mn - S)).
    { rewrite <- pow_split by lia. f_equal. lia. }
    assert (0 <= 2 ^ (mn - S)) by (apply Z.pow_nonneg; lia).
    assert (0 <= 2 ^ (e - mn)) by (apply Z.pow_nonneg; lia).
    assert (0 <= 2 ^ (eB - mn)) by (apply Z.pow_nonneg; lia).
    rewrite He. rewrite HeB in HB.
    cbn [mant] in Hlow, Hhigh.
    assert (Hmag : Z.pos m * 2 ^ (e - mn) <= Z.pos mB * 2 ^ (eB - mn)).
    { destruct s; cbn [mant] in Hlow, Hhigh; lia. }
    nia.
Qed.

(** A product with a constant that is a number other than zero. *)
Lemma mul_constant_not_NaN (s : bool) (m : positive) (e : Z) (v : number) :
  v <> NaN -> (S754_finite s m e * v)%js <> NaN.
Proof.
  intros Hv. destruct v as [sv|sv| |sv mv ev]; [| | contradiction |].
  - discriminate.
  - discriminate.
  - apply round_dyadic_not_NaN.
Qed.

Lemma sub_constant_not_NaN (s : bool) (m : positive) (e : Z) (v : number) :
  v <> NaN -> (v - S754_finite s m e)%js <> NaN.
Proof.
  intros Hv. destruct v as [sv|sv| |sv mv ev]; [| | contradiction |].
  - discriminate.
  - discriminate.
  - unfold sub. cbn [neg add].
    destruct (_ =? 0); [discriminate | apply round_dyadic_not_NaN].
Qed.

Lemma gamma_not_NaN (Math_pow : number -> number -> number) (v : number) :
  (forall x, (x > 0.0031308)%js = true -> Math_pow x (1 / 2.4)%js <> NaN) ->
  v <> NaN -> gamma Math_pow v <> NaN.
Proof.
  intros Hpow Hv. unfold gamma.
  destruct (v > 0.0031308)%js eqn:Hgt.
  - apply sub_constant_not_NaN, mul_constant_not_NaN, Hpow. exact Hgt.
  - apply mul_constant_not_NaN. exact Hv.
Qed.

Ltac magnitude HL Ha Hb :=
  repeat first
    [ exact HL | exact Ha | exact Hb
    | match goal with
      | |- finite_below _ (S754_finite _ _ _) =>
          apply (finite_belowb_spec 3); vm_compute; reflexivity
      end
    | eapply sub_below | eapply add_below | eapply mul_below
    | lia ].

Lemma linear_below (L a b : number) :
  finite_below 333 L -> finite_below 333 a -> finite_below 333 b ->
  let '(r, g, bl) := linear L a b in
  finite_below 1019 r /\ finite_below 1019 g /\ finite_below 1019 bl.
Proof.
  intros HL Ha Hb. unfold linear.
  set (l := (L + 0.3963377774 * a + 0.2158037573 * b)%js).
  set (m := (L - 0.1055613458 * a - 0.0638541728 * b)%js).
  set (s := (L - 0.0894841775 * a - 1.2914855480 * b)%js).
  assert (Hl : finite_below 338 l).
  { eapply finite_below_mono; cycle 1; [unfold l; magnitude HL Ha Hb|]. clear. lia. }
  assert (Hm : finite_below 338 m).
  { eapply finite_below_mono; cycle 1; [unfold m; magnitude HL Ha Hb|]. clear. lia. }
  assert (Hs : finite_below 338 s).
  { eapply finite_below_mono; cycle 1; [unfold s; magnitude HL Ha Hb|]. clear. lia. }
  clearbody l m s.
  assert (Hl3 : finite_below 1014 (l * l * l)%js).
  { eapply finite_below_mono; cycle 1; [magnitude Hl Hl Hl|]. clear. lia. }
  assert (Hm3 : finite_below 1014 (m * m * m)%js).
  { eapply finite_below_mono; cycle 1; [magnitude Hm Hm Hm|]. clear. lia. }
  assert (Hs3 : finite_below 1014 (s * s * s)%js).
  { eapply finite_below_mono; cycle 1; [magnitude Hs Hs Hs|]. clear. lia. }
  set (l3 := (l * l * l)%js) in *. set (m3 := (m * m * m)%js) in *.
  set (s3 := (s * s * s)%js) in *. clearbody l3 m3 s3.
  cbv zeta.
  repeat split.
  - eapply finite_below_mono; cycle 1; [magnitude Hl3 Hm3 Hs3|]. clear. lia.
  - eapply finite_below_mono; cycle 1; [magnitude Hl3 Hm3 Hs3|]. clear. lia.
  - eapply finite_below_mono; cycle 1; [magnitude Hl3 Hm3 Hs3|]. clear. lia.
Qed.


End OklabFacts.

(** X14. NaN in, NaN out: when one of the three arguments is NaN, the
    three values returned are NaN, whatever [Math.pow] is. *)
Theorem oklab_NaN_argument
  (Math_pow : JsNumber.number -> JsNumber.number -> JsNumber.number)
  (L a b : JsNumber.number) :
  L = JsNumber.NaN \/ a = JsNumber.NaN \/ b = JsNumber.NaN ->
  vortexOklabToRgb Math_pow L a b = [JsNumber.NaN; JsNumber.NaN; JsNumber.NaN].
Proof.
  intros Hnan. rewrite oklab_linear, (OklabFacts.linear_NaN L a b Hnan).
  reflexivity.
Qed.

Lemma oklab_NaN_argument_witness :
  vortexOklabToRgb (fun _ _ => 1%js) 0.5%js JsNumber.NaN 0%js
  = [JsNumber.NaN; JsNumber.NaN; JsNumber.NaN].
Proof.
  apply (oklab_NaN_argument (fun _ _ => 1%js) 0.5%js JsNumber.NaN 0%js).
  right. left. reflexivity.
Defined.

(** X15. [Math.pow] is called with the exponent [1 / 2.4] and a base
    above [0.0031308] only, never with a base that is negative, zero or
    NaN: two functions that agree on these arguments give the same
    result. *)
Theorem oklab_uses_pow_above_threshold
  (pow pow' : JsNumber.number -> JsNumber.number -> JsNumber.number)
  (L a b : JsNumber.number) :
  (forall x, (x > 0.0031308)%js = true ->
             pow x (1 / 2.4)%js = pow' x (1 / 2.4)%js) ->
  vortexOklabToRgb pow L a b = vortexOklabToRgb pow' L a b.
Proof.
  intros Hsame. unfold vortexOklabToRgb. cbv zeta.
  rewrite !(OklabFacts.gamma_ext pow pow' _ Hsame). reflexivity.
Qed.

Lemma oklab_uses_pow_above_threshold_witness :
  vortexOklabToRgb (fun _ _ => 0.5%js) 0.7%js (-0.1)%js 0.05%js
  = vortexOklabToRgb
      (fun x _ => if (x > 0.0031308)%js then 0.5%js else JsNumber.NaN)
      0.7%js (-0.1)%js 0.05%js.
Proof.
  apply (oklab_uses_pow_above_threshold
           (fun _ _ => 0.5%js)
           (fun x _ => if (x > 0.0031308)%js then 0.5%js else JsNumber.NaN)).
  intros x Hx. rewrite Hx. reflexivity.
Defined.

(** X16. For arguments that are numbers of magnitude [1e100] at most,
    which covers every OKLab colour, and a [Math.pow] that returns no NaN
    for a base above [0.0031308], nothing overflows: each of the three
    channels is one of the integers 0 to 255. *)
Theorem oklab_channels_are_bytes
  (Math_pow : JsNumber.number -> JsNumber.number -> JsNumber.number)
  (L a b : JsNumber.number) :
  (forall x, (x > 0.0031308)%js = true ->
             Math_pow x (1 / 2.4)%js <> JsNumber.NaN) ->
  within 1e100%js L = true -> within 1e100%js a = true ->
  within 1e100%js b = true ->
  Forall (fun c => exists k, 0 <= k <= 255 /\ (c === JsNumber.of_Z k)%js = true)
         (vortexOklabToRgb Math_pow L a b).
Proof.
  intros Hpow HL Ha Hb.
  assert (Hbound : forall x, within 1e100%js x = true ->
                             OklabFacts.finite_below 333 x).
  { intros x. apply OklabFacts.within_below; [lia|].
    unfold OklabFacts.dyadic_below. vm_compute. discriminate. }
  pose proof (OklabFacts.linear_below L a b
                (Hbound L HL) (Hbound a Ha) (Hbound b Hb)) as Hlin.
  rewrite oklab_linear. destruct (linear L a b) as [[r g] bl].
  destruct Hlin as [Hr [Hg Hbl]].
  repeat (apply Forall_cons;
          [apply to_byte_range, OklabFacts.gamma_not_NaN;
             [exact Hpow | eapply OklabFacts.finite_below_not_NaN; eassumption]|]).
  apply Forall_nil.
Qed.

Lemma oklab_channels_are_bytes_witness :
  Forall (fun c => exists k, 0 <= k <= 255 /\ (c === JsNumber.of_Z k)%js = true)
         (vortexOklabToRgb (fun _ _ => 0.5%js) 0.7%js (-0.1)%js 0.05%js).
Proof.
  apply (oklab_channels_are_bytes (fun _ _ => 0.5%js) 0.7%js (-0.1)%js 0.05%js).
  - intros x _. discriminate.
  - reflexivity.
  - reflexivity.
  - reflexivity.
Defined.

(** X17. The clamp of the last step at its two ends: a gamma-corrected
    value that is zero or below, minus infinity included, gives 0, and
    one that is 1 or above, plus infinity included, gives 255. *)
Theorem to_byte_saturates (v : JsNumber.number) :
  ((v <= 0)%js = true -> to_byte v = 0%js)
  /\ ((1 <= v)%js = true -> (to_byte v === 255)%js = true).
Proof.
  split; [apply OklabFacts.to_byte_floor|].
  intros Hv.
  change (to_byte v)
    with (ClampFacts.clamp (JsNumber.Math_round (v * 255)%js)).
  apply OklabFacts.clamp_round_at_least, OklabFacts.mul_255_at_least,
    OklabFacts.leb_one_cases.
  exact Hv.
Qed.

Lemma to_byte_saturates_witness :
  to_byte (-0.25)%js = 0%js /\ (to_byte 1.5%js === 255)%js = true.
Proof.
  split.
  - apply (to_byte_saturates (-0.25)%js). reflexivity.
  - apply (to_byte_saturates 1.5%js). reflexivity.
Defined.

(* ================================================================== *)
(** * Further properties of the patterns and the markers *)

(** ** Syntaxes the pattern does not know *)

Lemma run_plus_none (p : ascii -> bool) (t : string) (caps : captures) :
  stops p t -> run (Plus p) t caps = None.
Proof.
  destruct t as [|c t]; cbn [stops run]; [reflexivity|].
  intros ->. reflexivity.
Qed.

Lemma run_none_seq (r1 r2 : regex) (s : string) (caps : captures) :
  run r1 s caps = None -> run (Seq r1 r2) s caps = None.
Proof. intros H. cbn [run]. rewrite H. reflexivity. Qed.

Lemma run_group_none (i : nat) (r : regex) (s : string) (caps : captures) :
  run r s caps = None -> run (Group i r) s caps = None.
Proof. intros H. cbn [run]. rewrite H. reflexivity. Qed.

(** A string that does not go on with a comma. *)
Definition no_comma_next (t : string) : Prop :=
  match t with
  | String c _ => c <> ","%char
  | EmptyString => True
  end.

Lemma run_comma_none (t : string) (caps : captures) :
  no_comma_next t -> run (Chr ",") t caps = None.
Proof.
  destruct t as [|c t]; cbn [no_comma_next run]; [reflexivity|].
  intros Hc. destruct (Ascii.eqb "," c) eqn:Heq; [|reflexivity].
  apply Ascii.eqb_eq in Heq. congruence.
Qed.

Lemma no_match_at_first_channel (r t : string) :
  all digit r = true -> stops digit t -> r = "" \/ no_comma_next t ->
  match_here rgb_pattern ("rgb(" ++ r ++ t) = None.
Proof.
  intros Hr Ht Hnext.
  rewrite match_here_run by exact rgb_pattern_one_pass.
  unfold rgb_pattern. cbn [seq append].
  assert (Hrun : run
    (Seq (Chr "r") (Seq (Chr "g") (Seq (Chr "b") (Seq (Opt (Chr "a")) (Seq (Chr "(")
      (Seq (Group 1 (Plus digit)) (Seq (Chr ",") (Seq (Star space)
      (Seq (Group 2 (Plus digit)) (Seq (Chr ",") (Seq (Star space)
      (Seq (Group 3 (Plus digit))
      (Seq (Opt (Seq (Chr ",") (Seq (Star space) (Group 4 (Plus digit_or_dot)))))
           (Chr ")"))))))))))))))
    (String "r" (String "g" (String "b" (String "(" (r ++ t))))) [] = None).
  { do 3 (erewrite run_seq; [|apply run_chr]).
    erewrite run_seq; [|reflexivity].
    erewrite run_seq; [|apply run_chr].
    destruct r as [|c r'].
    - apply run_none_seq, run_group_none, run_plus_none. exact Ht.
    - assert (Hrun1 : run_of digit (String c r') = true) by exact Hr.
      erewrite run_seq; [|apply run_group_plus; [exact Hrun1 | exact Ht]].
      apply run_none_seq, run_comma_none.
      destruct Hnext as [Hempty | Hnext]; [discriminate | exact Hnext]. }
  cbn [run]. cbn [run] in Hrun. rewrite Hrun. reflexivity.
Qed.

(** X18. A colour in a syntax other than the comma-separated integers of
    the pattern is returned as it is: after [rgb(] and a first channel in
    digits [r] (or none), a text [t] that goes on with anything but a digit
    or a comma (a space as in [rgb(1 2 3)], a percent sign, a point, a
    minus sign) and holds no further [r] gives no match. *)
Theorem unsupported_syntax_unchanged (r t : string) :
  all digit r = true -> stops digit t -> r = "" \/ no_comma_next t ->
  JsString.mem "r" t = false ->
  vortexRgbToHex ("rgb(" ++ r ++ t) = "rgb(" ++ r ++ t.
Proof.
  intros Hr Ht Hnext Hmem.
  assert (Hnone : String_match ("rgb(" ++ r ++ t) rgb_pattern = None).
  { unfold String_match.
    change ("rgb(" ++ r ++ t) with (String "r" ("gb(" ++ r ++ t)) at 1.
    cbn [exec].
    change (String "r" ("gb(" ++ r ++ t)) with ("rgb(" ++ r ++ t).
    rewrite (no_match_at_first_channel r t Hr Ht Hnext).
    apply exec_rgb_without_r.
    rewrite !mem_app, Hmem, (all_without digit "r" r eq_refl Hr). reflexivity. }
  unfold vortexRgbToHex. rewrite Hnone. reflexivity.
Qed.

Lemma unsupported_syntax_unchanged_witness :
  vortexRgbToHex ("rgb(" ++ "255" ++ " 255 255 / 50%)") = "rgb(" ++ "255" ++ " 255 255 / 50%)".
Proof.
  apply (unsupported_syntax_unchanged "255" " 255 255 / 50%)").
  - reflexivity.
  - reflexivity.
  - right. cbn [no_comma_next]. discriminate.
  - reflexivity.
Defined.

(** ** The markers of a container *)

Lemma prefix_app (s t : string) : prefix s (s ++ t) = true.
Proof.
  induction s as [|c s IH]; cbn [append prefix].
  - destruct t; reflexivity.
  - destruct (ascii_dec c c) as [_|Hne]; [exact IH | contradiction].
Qed.

Lemma includes_app (pre sub post : string) :
  JsString.includes (pre ++ sub ++ post) sub = true.
Proof.
  induction pre as [|c pre IH]; cbn [append].
  - destruct (sub ++ post) as [|c s] eqn:Hs; cbn [JsString.includes];
      rewrite <- Hs, prefix_app; reflexivity.
  - cbn [JsString.includes]. rewrite IH. apply orb_true_r.
Qed.

(** X19. The markers are looked for anywhere in the class attribute, not
    among its class names: an element whose class attribute has [modal],
    [dialog] or [form] somewhere in it, as [platform] or [information]
    have, is a marked container. *)
Theorem marker_anywhere_in_class (el : Element) (pre marker post : string) :
  In marker ["modal"; "dialog"; "form"] ->
  className el = Str (pre ++ marker ++ post) ->
  names_container (pre ++ marker ++ post) = true
  /\ container_marked el = true.
Proof.
  intros Hmarker Hclass.
  assert (Hnames : names_container (pre ++ marker ++ post) = true).
  { unfold names_container.
    destruct Hmarker as [<- | [<- | [<- | []]]]; rewrite includes_app;
      rewrite ?orb_true_r; reflexivity. }
  split; [exact Hnames|].
  unfold container_marked. rewrite Hclass, Hnames. reflexivity.
Qed.

Lemma marker_anywhere_in_class_witness :
  names_container ("plat" ++ "form" ++ "-header") = true
  /\ container_marked (mkElement 9 "DIV" (Str "platform-header") None None) = true.
Proof.
  apply (marker_anywhere_in_class
           (mkElement 9 "DIV" (Str "platform-header") None None)
           "plat" "form" "-header").
  - right. right. left. reflexivity.
  - reflexivity.
Defined.
